(** * Jira transition-time extractor: model and verified properties

    Two revisions of the script live in the repository:
    - [Legacy]   : src/index.js (REST v2 search, offset pagination, changelog
                   expanded inline, no retry);
    - [Enhanced] : src/unnamed/part_000, whose header calls it index.js,
                   "Enhanced JQL Search API" (REST v3, page tokens, per-issue
                   changelog endpoint, [withRetry]).

    Both are embedded below, statement by statement.  JavaScript values are
    modelled by [JS.value]; network, clock, timers and the file system by an
    explicit world that is threaded through the asynchronous functions.
    Input data is typed after the tracker's JSON: keys and names are
    strings, timestamps are arbitrary values. *)

From Stdlib Require Import ZArith List String Ascii Bool Lia.
From Stdlib Require Import DecimalString DecimalNat DecimalZ.
From Stdlib Require Import QArith Sorted.
Import ListNotations.

Local Open Scope string_scope.
Local Open Scope Z_scope.

(* ================================================================== *)
(** * JavaScript values *)
(* ================================================================== *)

Module JS.

(** Numbers.  Every number the script stores in a report row or waits for
    is an integer (day and minute counts, delays) or [NaN]. *)
Inductive number : Type :=
| NaN
| Num (n : Z).

(** The values that flow through the script.  [VNull] stands for both
    [null] and [undefined], which the script never distinguishes (it only
    uses truthiness, [??] and [Array.join] on them). *)
Inductive value : Type :=
| VNull
| VNumber (x : number)
| VStr (s : string).

Abbreviation VNaN := (VNumber NaN).
Abbreviation VNum n := (VNumber (Num n)).

(** A variable that holds either [null] or a number. *)
Definition cell (m : option number) : value :=
  match m with None => VNull | Some x => VNumber x end.

(** ToBoolean. *)
Definition truthy (v : value) : bool :=
  match v with
  | VNull => false
  | VNaN => false
  | VNum n => negb (n =? 0)
  | VStr s => negb (s =? "")%string
  end.

(** [v || d] *)
Definition or_else (v d : value) : value := if truthy v then v else d.

(** [v ?? d] *)
Definition coalesce (v d : value) : value :=
  match v with VNull => d | _ => v end.

(** [v === s] for a string [s]. *)
Definition is_string (v : value) (s : string) : bool :=
  match v with VStr t => (t =? s)%string | _ => false end.

(** [typeof v === 'number'] *)
Definition typeof_number (v : value) : bool :=
  match v with VNumber _ => true | _ => false end.

Definition string_of_Z (n : Z) : string := NilZero.string_of_int (Z.to_int n).

(** [String(v)] *)
Definition to_string (v : value) : string :=
  match v with
  | VNull => "null"
  | VNaN => "NaN"
  | VNum n => string_of_Z n
  | VStr s => s
  end.

(** [Array.prototype.join]: [null] and [undefined] elements are rendered as
    the empty string, every other element by [String]. *)
Definition join_element (v : value) : string :=
  match v with VNull => "" | _ => to_string v end.

Definition join (sep : string) (vs : list value) : string :=
  String.concat sep (map join_element vs).

(** The double-quote character. *)
Definition dquote : ascii := ascii_of_nat 34.

(** [s.replace(/\dq/g, \dq\dq)], where \dq is the double-quote character:
    every double quote of [s] is doubled. *)
Fixpoint double_quotes (s : string) : string :=
  match s with
  | EmptyString => EmptyString
  | String c rest =>
      if Ascii.eqb c dquote
      then String dquote (String dquote (double_quotes rest))
      else String c (double_quotes rest)
  end.

End JS.
Import JS.

(* ================================================================== *)
(** * The date-fns functions the script calls *)
(* ================================================================== *)

Module DateFns.

(** A [Date] object: [None] is [Invalid Date], [Some t] is the instant [t]
    milliseconds after the epoch. *)
Definition Date : Type := option Z.

Definition msPerMinute : Z := 60000.
Definition msPerDay : Z := 86400000.

(** date-fns is a dependency and not part of the repository.  Its
    documented contract is used.  [differenceInMinutes] is the number of
    full minutes between the two instants, the fraction truncated toward
    zero.  [differenceInDays] is the number of full days, a full day being
    the span from a local time on one day to the same local time on the
    next: it is counted on the calendar of the machine's time zone, and a
    day lasts 23 or 25 hours where the clocks change.  Both give [NaN] when
    an argument is an invalid date. *)
Definition differenceInMinutes (l r : Date) : number :=
  match l, r with
  | Some a, Some b => Num (Z.quot (a - b) msPerMinute)
  | _, _ => NaN
  end.

(** The time zone of the machine: the offset of local time from UTC at an
    instant, and the instant a local reading stands for.  A local reading
    is written as the number of milliseconds that a UTC clock showing the
    same date and time would count. *)
Record zone : Type := mkZone {
  offsetAt : Z -> Z;
  instantOf : Z -> Z
}.

Definition localTime (tz : zone) (t : Z) : Z := t + offsetAt tz t.

(** A zone that keeps one offset from UTC. *)
Definition fixedOffset (c : Z) : zone :=
  {| offsetAt := fun _ => c; instantOf := fun reading => reading - c |}.

Definition utc : zone := fixedOffset 0.

(** America/New_York in 2024: five hours behind UTC, and four between
    2024-03-10T07:00Z and 2024-11-03T06:00Z.  A reading within the hour
    that is skipped in March, or within the hour that comes twice in
    November, is taken with the offset in force before the change. *)
Definition newYork2024 : zone :=
  let spring := 1710054000000 in
  let autumn := 1730613600000 in
  let est := -18000000 in
  let edt := -14400000 in
  {| offsetAt := fun t => if (spring <=? t) && (t <? autumn) then edt else est;
     instantOf := fun reading =>
       if reading <? spring + est + 3600000 then reading - est
       else if reading <? autumn + edt then reading - edt
       else reading - est |}.

(** [compareLocalAsc]: year, month, day, hours, minutes, seconds and
    milliseconds of the two local readings are compared in that order,
    which is the order of the readings. *)
Definition compareLocalAsc (tz : zone) (a b : Z) : Z :=
  Z.sgn (localTime tz a - localTime tz b).

(** [differenceInCalendarDays]: the local midnights of the two dates are a
    whole number of days apart. *)
Definition differenceInCalendarDays (tz : zone) (a b : Z) : Z :=
  localTime tz a / msPerDay - localTime tz b / msPerDay.

(** The body of [differenceInDays] on two valid dates.  The left date is
    moved by [setDate(getDate() - sign * difference)], which keeps its
    local time of day, and then compared with the right date once more:
    the last calendar day counts only when it is full. *)
Definition fullDays (tz : zone) (a b : Z) : Z :=
  let sign := compareLocalAsc tz a b in
  let difference := Z.abs (differenceInCalendarDays tz a b) in
  let moved := instantOf tz (localTime tz a - sign * difference * msPerDay) in
  let isLastDayNotFull :=
    if compareLocalAsc tz moved b =? - sign then 1 else 0 in
  sign * (difference - isLastDayNotFull).
Arguments fullDays : simpl never.

Definition differenceInDays (tz : zone) (l r : Date) : number :=
  match l, r with
  | Some a, Some b => Num (fullDays tz a b)
  | _, _ => NaN
  end.

(** [a <= b] on [Date] objects compares their time values; a comparison
    with [NaN] is false. *)
Definition date_le (a b : Date) : bool :=
  match a, b with
  | Some x, Some y => x <=? y
  | _, _ => false
  end.

(** [isNaN(d)] on a [Date] object. *)
Definition isNaN (d : Date) : bool :=
  match d with None => true | Some _ => false end.

(** [parseISO] applied to a script value: anything but a string gives an
    invalid date. *)
Definition parse (parseISO : string -> Date) (v : value) : Date :=
  match v with VStr s => parseISO s | _ => None end.

(** ** A reference [parseISO]

    The theorems below hold for every [parseISO].  Concrete runs use this
    instance, which reads the two shapes that occur in practice, in UTC:
    [YYYY-MM-DD] (the configured end date) and
    [YYYY-MM-DDTHH:MM:SS[.mmm](Z|+HHMM|+HH:MM)] (tracker timestamps).
    Anything else is an invalid date. *)

Definition digit (c : ascii) : option Z :=
  let n := Z.of_nat (nat_of_ascii c) in
  if (48 <=? n) && (n <=? 57) then Some (n - 48) else None.

Fixpoint decimal_from (acc : Z) (s : string) : option Z :=
  match s with
  | EmptyString => Some acc
  | String c rest =>
      match digit c with
      | Some d => decimal_from (10 * acc + d) rest
      | None => None
      end
  end.

Definition decimal (s : string) : option Z :=
  match s with EmptyString => None | _ => decimal_from 0 s end.

Definition isLeapYear (y : Z) : bool :=
  (y mod 400 =? 0) || ((y mod 4 =? 0) && negb (y mod 100 =? 0)).

Definition daysInMonth (y m : Z) : Z :=
  if m =? 2 then (if isLeapYear y then 29 else 28)
  else if (m =? 4) || (m =? 6) || (m =? 9) || (m =? 11) then 30 else 31.

(** Days between 1970-01-01 and the civil date [y]-[m]-[d]. *)
Definition daysFromCivil (y m d : Z) : Z :=
  let y' := if m <=? 2 then y - 1 else y in
  let era := y' / 400 in
  let yoe := y' - era * 400 in
  let mp := if 2 <? m then m - 3 else m + 9 in
  let doy := (153 * mp + 2) / 5 + d - 1 in
  let doe := yoe * 365 + yoe / 4 - yoe / 100 + doy in
  era * 146097 + doe - 719468.

Definition parseDate (s : string) : option Z :=
  match decimal (substring 0 4 s), decimal (substring 5 2 s),
        decimal (substring 8 2 s) with
  | Some y, Some m, Some d =>
      if (String.length s =? 10)%nat
         && (substring 4 1 s =? "-")%string && (substring 7 1 s =? "-")%string
         && (1 <=? m) && (m <=? 12) && (1 <=? d) && (d <=? daysInMonth y m)
      then Some (daysFromCivil y m d * msPerDay)
      else None
  | _, _, _ => None
  end.

Definition parseClock (s : string) : option Z :=
  match decimal (substring 0 2 s), decimal (substring 3 2 s),
        decimal (substring 6 2 s) with
  | Some h, Some m, Some sec =>
      if (String.length s =? 8)%nat
         && (substring 2 1 s =? ":")%string && (substring 5 1 s =? ":")%string
         && (h <=? 23) && (m <=? 59) && (sec <=? 59)
      then Some (h * 3600000 + m * msPerMinute + sec * 1000)
      else None
  | _, _, _ => None
  end.

Definition parseOffset (s : string) : option Z :=
  if (s =? "Z")%string then Some 0
  else
    let sign := substring 0 1 s in
    let hh := decimal (substring 1 2 s) in
    let mm := if (String.length s =? 6)%nat then
                if (substring 3 1 s =? ":")%string
                then decimal (substring 4 2 s) else None
              else if (String.length s =? 5)%nat
                   then decimal (substring 3 2 s) else None in
    match hh, mm with
    | Some h, Some m =>
        if (h <=? 23) && (m <=? 59) then
          if (sign =? "+")%string then Some (h * 3600000 + m * msPerMinute)
          else if (sign =? "-")%string
               then Some (- (h * 3600000 + m * msPerMinute))
               else None
        else None
    | _, _ => None
    end.

Definition parseFraction (s : string) : option (Z * string) :=
  if (substring 0 1 s =? ".")%string then
    match decimal (substring 1 3 s) with
    | Some ms =>
        if (3 <=? String.length (substring 1 3 s))%nat
        then Some (ms, substring 4 (String.length s - 4) s)
        else None
    | None => None
    end
  else Some (0, s).

Definition parseISO_utc (s : string) : Date :=
  if (String.length s <=? 10)%nat then parseDate s
  else
    match parseDate (substring 0 10 s), parseClock (substring 11 8 s),
          parseFraction (substring 19 (String.length s - 19) s) with
    | Some day, Some clock, Some (ms, zone) =>
        if (substring 10 1 s =? "T")%string then
          match parseOffset zone with
          | Some off => Some (day + clock + ms - off)
          | None => None
          end
        else None
    | _, _, _ => None
    end.

End DateFns.
Import DateFns.

(* ================================================================== *)
(** * Changelog scan (the same loop in both revisions) *)
(* ================================================================== *)

Module Changelog.

(** One entry of [history.items]. *)
Record item : Type := mkItem {
  field : string;
  toString : value
}.

(** One changelog entry. *)
Record history : Type := mkHistory {
  created : value;
  items : list item
}.

(** Body of the inner [for (const item of history.items)] loop.  The
    accumulator is the pair [(status1Time, status2Time)]. *)
Definition scanItem (status1 status2 : string) (historyCreated : value)
    (acc : value * value) (it : item) : value * value :=
  let '(status1Time, status2Time) := acc in
  if (field it =? "status")%string then
    let status1Time :=
      if is_string (toString it) status1 && negb (truthy status1Time)
      then historyCreated else status1Time in
    let status2Time :=
      if is_string (toString it) status2 && negb (truthy status2Time)
      then historyCreated else status2Time in
    (status1Time, status2Time)
  else (status1Time, status2Time).

(** Body of the outer [for (const history of histories)] loop. *)
Definition scanHistory (status1 status2 : string)
    (acc : value * value) (h : history) : value * value :=
  fold_left (scanItem status1 status2 (created h)) (items h) acc.

Definition scanFrom (status1 status2 : string) (acc : value * value)
    (histories : list history) : value * value :=
  fold_left (scanHistory status1 status2) histories acc.

(** Both loops, started with [status1Time = status2Time = null]. *)
Definition extract (status1 status2 : string) (histories : list history)
    : value * value :=
  scanFrom status1 status2 (VNull, VNull) histories.

(** ** Vocabulary of the specification *)

(** The item is a change of the [status] field to [s]. *)
Definition changesStatusTo (s : string) (it : item) : bool :=
  (field it =? "status")%string && is_string (toString it) s.

(** The entry contains a change of the [status] field to [s]. *)
Definition enters (s : string) (h : history) : bool :=
  existsb (changesStatusTo s) (items h).

(** Timestamp of the first entry of the history that enters [s]; absent
    when there is none. *)
Definition firstEntryTo (s : string) (histories : list history) : value :=
  match find (enters s) histories with
  | Some h => created h
  | None => VNull
  end.

(** The entry carries a timestamp. *)
Definition timestamped (h : history) : Prop := truthy (created h) = true.

End Changelog.

(* ================================================================== *)
(** * The world of an asynchronous run *)
(* ================================================================== *)

Module World.

(** The [Retry-After] header of a response, in one of its two forms. *)
Inductive retryAfter : Type :=
| DelaySeconds (n : N)
| HttpDate (s : string).

(** What an [await] can throw: an axios error with a response (status and
    optional [retry-after] header), or one without a response. *)
Inductive error : Type :=
| HttpError (status : Z) (header : option retryAfter)
| NetworkError.

Inductive request : Type :=
| SearchV2 (startAt : Z)
| SearchJql (nextPageToken : option string)
| ChangelogPage (issueKey : string) (startAt : Z).

(** Observable effects, in the order they happen. *)
Inductive event : Type :=
| Request (r : request)
| Sleep (ms : Z)
| WriteFile (name data : string).

(** The environment [E] answers requests and tells the time; the event log
    records what the script did. *)
Record world (E : Type) : Type := mkWorld {
  env : E;
  events : list event
}.
Arguments mkWorld {E} _ _.
Arguments env {E} _.
Arguments events {E} _.

(** How a computation ends: it returns, it throws, or the loop budget of the
    model ran out before it ended. *)
Inductive outcome (A : Type) : Type :=
| Returned (a : A)
| Threw (e : error)
| Unfinished.
Arguments Returned {A} _.
Arguments Threw {A} _.
Arguments Unfinished {A}.

Definition M (E A : Type) : Type := world E -> outcome A * world E.

Definition ret {E A} (a : A) : M E A := fun w => (Returned a, w).

Definition bind {E A B} (m : M E A) (k : A -> M E B) : M E B :=
  fun w =>
    match m w with
    | (Returned a, w') => k a w'
    | (Threw e, w') => (Threw e, w')
    | (Unfinished, w') => (Unfinished, w')
    end.

Definition unfinished {E A} : M E A := fun w => (Unfinished, w).

(** Appends an event to the log. *)
Definition emit {E} (ev : event) : M E unit :=
  fun w => (Returned tt, mkWorld (env w) (events w ++ [ev])).

(** One HTTP exchange: the request is logged and the environment answers. *)
Definition http {E A} (respond : E -> (error + A) * E) (r : request) : M E A :=
  fun w =>
    let '(answer, e') := respond (env w) in
    let w' := mkWorld e' (events w ++ [Request r]) in
    match answer with
    | inl err => (Threw err, w')
    | inr data => (Returned data, w')
    end.

(** [new Date()] *)
Definition newDate {E} (readClock : E -> Z * E) : M E Z :=
  fun w =>
    let '(t, e') := readClock (env w) in
    (Returned t, mkWorld e' (events w)).

(** [await new Promise((r) => setTimeout(r, ms))] *)
Definition sleep {E} (elapse : Z -> E -> E) (ms : Z) : M E unit :=
  fun w => (Returned tt, mkWorld (elapse ms (env w)) (events w ++ [Sleep ms])).

(** [fs.writeFileSync(name, data)] *)
Definition writeFileSync {E} (name data : string) : M E unit :=
  emit (WriteFile name data).

(** [try { body } catch (error) { console.error(...) }] *)
Definition tryCatchLog {E} (body : M E unit) : M E unit :=
  fun w =>
    match body w with
    | (Threw _, w') => (Returned tt, w')
    | r => r
    end.

(** The delays the script waited for, in order. *)
Definition delays (evs : list event) : list Z :=
  flat_map (fun ev => match ev with Sleep ms => [ms] | _ => [] end) evs.

(** The files the script wrote, in order. *)
Definition writes (evs : list event) : list (string * string) :=
  flat_map (fun ev => match ev with WriteFile n d => [(n, d)] | _ => [] end) evs.

(** A computation is silent when it writes no file, however it ends. *)
Definition silent {E A} (m : M E A) : Prop :=
  forall w, writes (events (snd (m w))) = writes (events w).

(** The requests the script sent, in order. *)
Definition requests (evs : list event) : list request :=
  flat_map (fun ev => match ev with Request r => [r] | _ => [] end) evs.

(** The event is neither a wait nor a write. *)
Definition isRequest (ev : event) : Prop := exists r, ev = Request r.

(** The event is not a write. *)
Definition isTraffic (ev : event) : Prop :=
  match ev with WriteFile _ _ => False | _ => True end.

(** A computation stops at the request [r] when, however it is started, it
    only adds events of the kind [P] to the log and either never sends
    [r], or ends where it first sends [r]: it throws, and what it logs from
    that sending on, together with the error thrown, is as [Q] says. *)
Definition stopsAt {E A} (r : request) (P : event -> Prop)
    (Q : list event -> error -> Prop) (m : M E A) : Prop :=
  forall w, exists new,
    events (snd (m w)) = (events w ++ new)%list
    /\ Forall P new
    /\ (~ In (Request r) new
        \/ exists before tail err,
             new = (before ++ tail)%list
             /\ ~ In (Request r) before
             /\ fst (m w) = Threw err
             /\ Q tail err).

End World.

Declare Scope run_scope.
Notation "x <- m ;; k" := (World.bind m (fun x => k))
  (at level 61, m at next level, right associativity) : run_scope.
Notation "m ;;; k" := (World.bind m (fun _ => k))
  (at level 61, right associativity) : run_scope.

(* ================================================================== *)
(** * Data shared by the two revisions *)
(* ================================================================== *)

Module Tracker.
Import Changelog.

(** [issue.fields], restricted to the fields the script reads.  [priority],
    [status] and [assignee] are objects that carry a name ([name], and
    [displayName] for the assignee): [None] when the object is missing or
    [null], [Some None] when the object is there without the name, and
    [Some (Some n)] when it carries the name [n]. *)
Record fields : Type := mkFields {
  summary : option string;
  priority : option (option string);
  status : option (option string);
  created : value;
  assignee : option (option string);
  customfield_999 : value
}.

(** [o.name] on an object that is there: [undefined] without the name. *)
Definition member (name : option string) : value :=
  match name with Some n => VStr n | None => VNull end.

(** [o?.name] *)
Definition nameOf (o : option (option string)) : option string :=
  match o with Some name => name | None => None end.

(** The script configuration (module-level constants of the source). *)
Record config : Type := mkConfig {
  status1 : string;
  status2 : string;
  endDate : string;
  useCreatedDate : bool
}.

(** [o || d] for an optional string. *)
Definition str_or (o : option string) (d : string) : string :=
  match o with
  | Some s => if (s =? "")%string then d else s
  | None => d
  end.

Definition newline : string := String (ascii_of_nat 10) EmptyString.

(** [`${q}${s}${q}`] with [q] the double-quote character. *)
Definition quoted (s : string) : string :=
  String dquote (s ++ String dquote EmptyString).

(** The file the report is written to. *)
Definition csvFile : string := "issue_transition_times.csv".

(** ** Vocabulary of the specification *)

(** A timestamp is present when it is set and [parseISO] reads it. *)
Definition presentTime (parseISO : string -> Date) (t : value) : bool :=
  truthy t && negb (isNaN (parse parseISO t)).

(** The timestamp is not later than the configured end date. *)
Definition withinCutoff (parseISO : string -> Date) (cfg : config) (t : value)
    : bool :=
  date_le (parse parseISO t) (parseISO (endDate cfg)).

(** The text with every double quote written twice. *)
Definition doubled (s : string) : string :=
  string_of_list_ascii
    (flat_map (fun c => if Ascii.eqb c dquote then [dquote; dquote] else [c])
              (list_ascii_of_string s)).

(** A value written as it is, without quotes; nothing for [null]. *)
Definition plain (v : value) : string :=
  match v with
  | VNull => ""
  | VNaN => "NaN"
  | VNum n => string_of_Z n
  | VStr s => s
  end.

(** A value written as it is when it is truthy, nothing otherwise. *)
Definition plainIfTruthy (v : value) : string :=
  if truthy v then to_string v else "".

(** The summary text of an issue, empty when it has none. *)
Definition summaryText (f : fields) : string :=
  match summary f with Some s => s | None => "" end.

(** The [timeSpentDays] values that are present, in row order. *)
Definition presentDays {row : Type} (days : row -> option number)
    (results : list row) : list Z :=
  flat_map (fun r => match days r with Some (Num n) => [n] | _ => [] end)
           results.

Definition sumZ (l : list Z) : Z := fold_right Z.add 0 l.

(** Arithmetic mean of a list of integers, 0 for the empty list. *)
Definition mean (l : list Z) : Q :=
  match l with
  | [] => 0%Q
  | _ => (inject_Z (sumZ l) / inject_Z (Z.of_nat (List.length l)))%Q
  end.

End Tracker.

(* ================================================================== *)
(** * src/index.js: per-issue computation, average, CSV text, run *)
(* ================================================================== *)

Module Legacy.
Import Changelog Tracker World.
Local Open Scope run_scope.

(** Shipped constants. *)
Definition shipped : config :=
  {| status1 := "Backlog"; status2 := "In Progress";
     endDate := "2025-01-01"; useCreatedDate := true |}.

(** An element of [data.issues]; the changelog comes expanded inside it. *)
Record issue : Type := mkIssue {
  key : string;
  issueFields : fields;
  changelog : list history
}.

(** [response.data] of the search endpoint. *)
Record searchData : Type := mkSearchData {
  total : Z;
  issues : list issue
}.

(** An element of [results].  The column [`${status2} Time`] is the field
    [Status2_Time] (its name is assumed distinct from the fixed ones). *)
Record row : Type := mkRow {
  Issue_Key : string;
  Summary : string;
  Status : value;
  Priority : value;
  Start_Time : value;
  Currently_in_Backlog_for : option number;
  Status2_Time : value;
  Time_Spent_Minutes : option number;
  Time_Spent_Days : option number;
  Assignee : value;
  Affected_Customers : value
}.

Section Script.
Variable parseISO : string -> Date.
(** The time zone of the machine the script runs on. *)
Variable tz : zone.
Variable cfg : config.

(** Body of [for (const issue of issues)] in [getAllIssues]; [now] is the
    value of [new Date()] read for this issue.  The pairs [times] and
    [timeSpent] hold the variables that the source assigns together. *)
Definition issueRow (now : Z) (issue : issue) : row :=
  let issueKey := key issue in
  let summary := summary (issueFields issue) in
  let priority :=
    match priority (issueFields issue) with
    | Some name => member name
    | None => VStr "Unknown"
    end in
  let status :=
    match status (issueFields issue) with
    | Some name => member name
    | None => VStr "Unknown"
    end in
  let changelog := changelog issue in
  let createdDate := created (issueFields issue) in
  let assignee :=
    match assignee (issueFields issue) with
    | Some displayName => member displayName
    | None => VStr "Unassigned"
    end in
  let affectedCustomers := or_else (customfield_999 (issueFields issue)) (VStr "N/A") in
  let startTime := if useCreatedDate cfg then createdDate else VNull in
  let times := extract (status1 cfg) (status2 cfg) changelog in
  let status1Time := fst times in
  let status2Time := snd times in
  let startTime :=
    if negb (useCreatedDate cfg) && truthy status1Time then status1Time
    else startTime in
  let currentTime := Some now in
  let backlogDays :=
    if truthy startTime
    then Some (differenceInDays tz currentTime (parse parseISO startTime))
    else None in
  let timeSpent :=
    if truthy startTime && truthy status2Time then
      let startDt := parse parseISO startTime in
      let status2Dt := parse parseISO status2Time in
      if date_le status2Dt (parseISO (endDate cfg))
      then (Some (differenceInMinutes status2Dt startDt),
            Some (differenceInDays tz status2Dt startDt))
      else (None, None)
    else (None, None) in
  let timeSpentMinutes := fst timeSpent in
  let timeSpentDays := snd timeSpent in
  {| Issue_Key := issueKey;
     Summary := match summary with
                | Some s => if (s =? "")%string then "" else double_quotes s
                | None => ""
                end;
     Status := status;
     Priority := priority;
     Start_Time := startTime;
     Currently_in_Backlog_for := backlogDays;
     Status2_Time := status2Time;
     Time_Spent_Minutes := timeSpentMinutes;
     Time_Spent_Days := timeSpentDays;
     Assignee := assignee;
     Affected_Customers := affectedCustomers |}.

(** [m || 0] inside the [reduce]: [null], [NaN] and 0 all count as 0. *)
Definition orZero (m : option number) : Z :=
  match m with Some (Num n) => n | _ => 0 end.

Definition calculateAverageTimeSpentDays (results : list row) : Q :=
  if (List.length results =? 0)%nat then 0%Q
  else
    let totalDays :=
      fold_left (fun sum result => sum + orZero (Time_Spent_Days result)) results 0 in
    (inject_Z totalDays / inject_Z (Z.of_nat (List.length results)))%Q.

Definition headers : list value :=
  map VStr ["Issue Key"; "Summary"; "Status"; "Priority"; "Start Time";
            "Currently in Backlog for"; (status2 cfg ++ " Time")%string;
            "Time Spent (Minutes)"; "Time Spent (Days)"; "Assignee";
            "Affected Customers"].

(** The array built for one result inside [saveResultsToCsv]. *)
Definition csvCells (result : row) : list value :=
  [ VStr (Issue_Key result);
    VStr (quoted (to_string (or_else (VStr (Summary result)) (VStr ""))));
    or_else (Status result) (VStr "");
    or_else (Priority result) (VStr "");
    or_else (Start_Time result) (VStr "");
    or_else (cell (Currently_in_Backlog_for result)) (VStr "");
    or_else (Status2_Time result) (VStr "");
    or_else (cell (Time_Spent_Minutes result)) (VStr "");
    or_else (cell (Time_Spent_Days result)) (VStr "");
    or_else (Assignee result) (VStr "");
    or_else (Affected_Customers result) (VStr "") ].

(** The values a result holds under the column names of [headers], in that
    order. *)
Definition rowValues (result : row) : list value :=
  [ VStr (Issue_Key result); VStr (Summary result); Status result;
    Priority result; Start_Time result;
    cell (Currently_in_Backlog_for result); Status2_Time result;
    cell (Time_Spent_Minutes result); cell (Time_Spent_Days result);
    Assignee result; Affected_Customers result ].

(** The text of each field of the line written for a result. *)
Definition csvFields (result : row) : list string :=
  map join_element (csvCells result).

(** The text handed to [fs.writeFileSync]. *)
Definition csvData (results : list row) : string :=
  String.concat newline
    (map (join ",") (headers :: map csvCells results)).

(** ** Network loop and entry point *)

Variable E : Type.
(** The answer of the search endpoint to [axios.get] with the given
    [startAt] (and [maxResults: 50]). *)
Variable search : Z -> E -> (error + searchData) * E.
Variable readClock : E -> Z * E.

Definition fetchIssues (startAt : Z) : M E searchData :=
  http (search startAt) (SearchV2 startAt).

(** The [for (const issue of issues)] loop. *)
Fixpoint processIssues (issues : list issue) (results : list row)
    : M E (list row) :=
  match issues with
  | [] => ret results
  | issue :: rest =>
      now <- newDate readClock ;;
      processIssues rest (results ++ [issueRow now issue])
  end.

(** The [do ... while (startAt < total)] loop; [fuel] bounds the number of
    iterations. *)
Fixpoint getAllIssuesFrom (fuel : nat) (startAt : Z) (results : list row)
    : M E (list row) :=
  match fuel with
  | O => unfinished
  | S fuel' =>
      data <- fetchIssues startAt ;;
      let total := total data in
      results <- processIssues (issues data) results ;;
      let startAt := startAt + 50 in
      if startAt <? total then getAllIssuesFrom fuel' startAt results
      else ret results
  end.

Definition getAllIssues (fuel : nat) : M E (list row) :=
  getAllIssuesFrom fuel 0 [].

Definition saveResultsToCsv (results : list row) : M E unit :=
  writeFileSync csvFile (csvData results).

(** The console output of [main] is not part of the model. *)
Definition main (fuel : nat) : M E unit :=
  tryCatchLog (
    results <- getAllIssues fuel ;;
    saveResultsToCsv results ;;;
    let averageTimeSpentDays := calculateAverageTimeSpentDays results in
    ret tt).

End Script.

(** ** Vocabulary of the specification *)

(** The search endpoint answers the request with an error whenever it is
    sent. *)
Definition refuses {E} (search : Z -> E -> (error + searchData) * E)
    (r : request) : Prop :=
  match r with
  | SearchV2 startAt => forall e, exists err, fst (search startAt e) = inl err
  | _ => False
  end.

End Legacy.

(* ================================================================== *)
(** * src/unnamed/part_000 (enhanced revision): computation, retries, run *)
(* ================================================================== *)

Module Enhanced.
Import Changelog Tracker World.
Local Open Scope run_scope.

(** Shipped constants. *)
Definition shipped : config :=
  {| status1 := "01 To Write"; status2 := "08 Blocked";
     endDate := "2025-30-09"; useCreatedDate := true |}.

(** An element of [data.issues]. *)
Record issue : Type := mkIssue {
  key : string;
  issueFields : fields
}.

(** [resp.data] of the search endpoint: [{ issues, isLast, nextPageToken }];
    a missing [issues] is the empty list, a missing [isLast] is [false]. *)
Record searchData : Type := mkSearchData {
  issues : list issue;
  isLast : bool;
  nextPageToken_ : option string
}.

(** [resp.data] of the changelog endpoint; every member may be missing. *)
Record changelogData : Type := mkChangelogData {
  values : option (list history);
  maxResults : option Z;
  total : option Z;
  isLastPage : option bool
}.

(** An element of [results]. *)
Record row : Type := mkRow {
  Issue_Key : string;
  Summary : string;
  Status : string;
  Priority : string;
  Start_Time : value;
  Currently_in_Backlog_for : option number;
  Status2_Time : value;
  Time_Spent_Minutes : option number;
  Time_Spent_Days : option number;
  Assignee : string
}.

(** Modelled from the spec: the declaration of the identifier
    AFFECTED_CUSTOMERS_FIELD_ID, which [getAllIssues] reads, is not in the
    file.  The specification calls the custom field optional and the search
    request does not ask for one, so the identifier is taken as declared
    and empty.  The constant [affectedCustomers] computed from it is never
    used afterwards; [fields[id]] is the custom field of the data model. *)
Definition AFFECTED_CUSTOMERS_FIELD_ID : string := "".

Section Script.
Variable parseISO : string -> Date.
(** The time zone of the machine the script runs on. *)
Variable tz : zone.
Variable cfg : config.

(** Body of [for (const issue of issues)] in [getAllIssues], after the
    changelog [histories] of the issue has been fetched; [now] is the value
    of [new Date()] read for this issue.  The pairs [times] and [timeSpent]
    hold the variables that the source assigns together. *)
Definition issueRow (now : Z) (issue : issue) (histories : list history) : row :=
  let issueKey := key issue in
  let fields := issueFields issue in
  let summary := str_or (summary fields) "" in
  let priority := str_or (nameOf (priority fields)) "Unknown" in
  let statusName := str_or (nameOf (status fields)) "Unknown" in
  let createdDate := or_else (created fields) VNull in
  let assignee := str_or (nameOf (assignee fields)) "Unassigned" in
  let affectedCustomers :=
    if truthy (VStr AFFECTED_CUSTOMERS_FIELD_ID)
    then coalesce (customfield_999 fields) (VStr "N/A")
    else VStr "N/A" in
  let startTime := if useCreatedDate cfg then createdDate else VNull in
  let times := extract (status1 cfg) (status2 cfg) histories in
  let status1Time := fst times in
  let status2Time := snd times in
  let startTime :=
    if negb (useCreatedDate cfg) && truthy status1Time then status1Time
    else startTime in
  let backlogDays :=
    if truthy startTime
    then Some (differenceInDays tz (Some now) (parse parseISO startTime))
    else None in
  let timeSpent :=
    if truthy startTime && truthy status2Time then
      let startDt := parse parseISO startTime in
      let status2Dt := parse parseISO status2Time in
      let endDt := parseISO (endDate cfg) in
      if negb (isNaN startDt) && negb (isNaN status2Dt) && negb (isNaN endDt)
         && date_le status2Dt endDt
      then (Some (differenceInMinutes status2Dt startDt),
            Some (differenceInDays tz status2Dt startDt))
      else (None, None)
    else (None, None) in
  let timeSpentMinutes := fst timeSpent in
  let timeSpentDays := snd timeSpent in
  {| Issue_Key := issueKey;
     Summary := double_quotes summary;
     Status := statusName;
     Priority := priority;
     Start_Time := startTime;
     Currently_in_Backlog_for := backlogDays;
     Status2_Time := status2Time;
     Time_Spent_Minutes := timeSpentMinutes;
     Time_Spent_Days := timeSpentDays;
     Assignee := assignee |}.

(** Sum of the values that passed the [typeof v === 'number'] filter; [NaN]
    is such a value and absorbs the sum. *)
Definition addNumber (s v : number) : number :=
  match s, v with
  | Num a, Num b => Num (a + b)
  | _, _ => NaN
  end.

(** The result is [None] when the quotient is [NaN]. *)
Definition calculateAverageTimeSpentDays (results : list row) : option Q :=
  let valid :=
    flat_map (fun v => match v with Some x => [x] | None => [] end)
             (map Time_Spent_Days results) in
  if (List.length valid =? 0)%nat then Some 0%Q
  else
    match fold_left addNumber valid (Num 0) with
    | Num sum => Some (inject_Z sum / inject_Z (Z.of_nat (List.length valid)))%Q
    | NaN => None
    end.

Definition headers : list value :=
  map VStr ["Issue Key"; "Summary"; "Status"; "Priority"; "Start Time";
            "Currently in Backlog for"; (status2 cfg ++ " Time")%string;
            "Time Spent (Minutes)"; "Time Spent (Days)"; "Assignee"].

(** The array built for one result inside [saveResultsToCsv]. *)
Definition csvCells (r : row) : list value :=
  [ coalesce (VStr (Issue_Key r)) (VStr "");
    VStr (quoted (to_string (coalesce (VStr (Summary r)) (VStr ""))));
    coalesce (VStr (Status r)) (VStr "");
    coalesce (VStr (Priority r)) (VStr "");
    coalesce (Start_Time r) (VStr "");
    coalesce (cell (Currently_in_Backlog_for r)) (VStr "");
    coalesce (Status2_Time r) (VStr "");
    coalesce (cell (Time_Spent_Minutes r)) (VStr "");
    coalesce (cell (Time_Spent_Days r)) (VStr "");
    coalesce (VStr (Assignee r)) (VStr "") ].

(** The values a result holds under the column names of [headers], in that
    order. *)
Definition rowValues (r : row) : list value :=
  [ VStr (Issue_Key r); VStr (Summary r); VStr (Status r); VStr (Priority r);
    Start_Time r; cell (Currently_in_Backlog_for r); Status2_Time r;
    cell (Time_Spent_Minutes r); cell (Time_Spent_Days r);
    VStr (Assignee r) ].

(** The text of each field of the line written for a result. *)
Definition csvFields (r : row) : list string :=
  map join_element (csvCells r).

(** The text handed to [fs.writeFileSync]. *)
Definition csv (results : list row) : string :=
  String.concat newline
    (map (join ",") (headers :: map csvCells results)).

(** ** Retry wrapper, network loops and entry point *)

Variable E : Type.
(** The answer of the search endpoint to one [axios.post] carrying the
    given page token, and of the changelog endpoint to one [axios.get] for
    the given issue key and [startAt] (with [maxResults=100]). *)
Variable searchJql : option string -> E -> (error + searchData) * E.
Variable changelogOf : string -> Z -> E -> (error + changelogData) * E.
Variable readClock : E -> Z * E.
(** What a timer of the given number of milliseconds does to the
    environment. *)
Variable elapse : Z -> E -> E.

(** [err.response?.status] *)
Definition statusOf (err : error) : option Z :=
  match err with HttpError status _ => Some status | NetworkError => None end.

(** [status === 429 || (status >= 500 && status <= 599)] *)
Definition transient (status : option Z) : bool :=
  match status with
  | Some st => (st =? 429) || ((500 <=? st) && (st <=? 599))
  | None => false
  end.

(** [err.response?.headers?.['retry-after']] *)
Definition retryAfterHeaderOf (err : error) : option retryAfter :=
  match err with HttpError _ h => h | NetworkError => None end.

(** [Number(header)]: the delay-seconds form is a number, the date form is
    not. *)
Definition NumberOf (h : retryAfter) : number :=
  match h with DelaySeconds n => Num (Z.of_N n) | HttpDate _ => NaN end.

(** [retryAfterMs && !isNaN(retryAfterMs) ? retryAfterMs : delay] with
    [retryAfterMs = retryAfterHeader ? Number(retryAfterHeader) * 1000 : null];
    both header forms are non-empty strings, hence truthy. *)
Definition waitMsOf (err : error) (delay : Z) : Z :=
  let retryAfterHeader := retryAfterHeaderOf err in
  let retryAfterMs : option number :=
    match retryAfterHeader with
    | Some h => Some (match NumberOf h with Num n => Num (n * 1000) | NaN => NaN end)
    | None => None
    end in
  match retryAfterMs with
  | Some (Num ms) => if truthy (VNum ms) then ms else delay
  | _ => delay
  end.

(** The [while (true)] loop of [withRetry], entered with the given value of
    [attempt]; [fuel] bounds the number of iterations. *)
Fixpoint withRetryFrom {A : Type} (fuel : nat) (fn : M E A)
    (retries : nat) (baseDelayMs : Z) (attempt : nat) : M E A :=
  fun w =>
    match fuel with
    | O => (Unfinished, w)
    | S fuel' =>
        match fn w with
        | (Threw err, w1) =>
            let status := statusOf err in
            if (attempt <? retries)%nat && transient status then
              let delay := baseDelayMs * 2 ^ Z.of_nat attempt in
              let waitMs := waitMsOf err delay in
              match sleep elapse waitMs w1 with
              | (_, w2) =>
                  withRetryFrom fuel' fn retries baseDelayMs (S attempt) w2
              end
            else (Threw err, w1)
        | r => r
        end
    end.

(** [withRetry(fn, { retries, baseDelayMs })].  At most [retries + 1] calls
    of [fn] are made, so this budget is never exhausted. *)
Definition withRetryWith {A : Type} (fn : M E A) (retries : nat)
    (baseDelayMs : Z) : M E A :=
  withRetryFrom (S retries) fn retries baseDelayMs 0.

(** [withRetry(fn)] with the default options. *)
Definition withRetry {A : Type} (fn : M E A) : M E A :=
  withRetryWith fn 3 500.

(** [token || null]; the same truthiness test guards
    [if (nextPageToken) body.nextPageToken = nextPageToken] and the loop
    condition [while (nextPageToken)]. *)
Definition tokenOrNull (nextPageToken : option string) : option string :=
  match nextPageToken with
  | Some t => if (t =? "")%string then None else Some t
  | None => None
  end.

Definition fetchIssues (nextPageToken : option string) : M E searchData :=
  withRetry (http (searchJql (tokenOrNull nextPageToken))
                  (SearchJql (tokenOrNull nextPageToken))).

(** The [while (true)] loop of [fetchIssueChangelog]; [fuel] bounds the
    number of iterations. *)
Fixpoint fetchIssueChangelogFrom (fuel : nat) (issueKey : string)
    (startAt : Z) (histories : list history) : M E (list history) :=
  match fuel with
  | O => unfinished
  | S fuel' =>
      data <- withRetry (http (changelogOf issueKey startAt)
                              (ChangelogPage issueKey startAt)) ;;
      let values := match values data with Some v => v | None => [] end in
      let histories := (histories ++ values)%list in
      let pageSize :=
        match maxResults data with
        | Some n => n
        | None => Z.of_nat (List.length values)
        end in
      let total :=
        match total data with Some n => n | None => startAt + pageSize end in
      let isLast :=
        match isLastPage data with
        | Some b => b
        | None => total <=? startAt + pageSize
        end in
      if isLast then ret histories
      else
        let startAt := startAt + (if pageSize =? 0 then 100 else pageSize) in
        fetchIssueChangelogFrom fuel' issueKey startAt histories
  end.

Definition fetchIssueChangelog (fuel : nat) (issueKey : string)
    : M E (list history) :=
  fetchIssueChangelogFrom fuel issueKey 0 [].

(** The [for (const issue of issues)] loop. *)
Fixpoint processIssues (fuel : nat) (issues : list issue) (results : list row)
    : M E (list row) :=
  match issues with
  | [] => ret results
  | issue :: rest =>
      histories <- fetchIssueChangelog fuel (key issue) ;;
      now <- newDate readClock ;;
      processIssues fuel rest (results ++ [issueRow now issue histories])
  end.

(** The [do ... while (nextPageToken)] loop; [fuel] bounds the number of
    iterations of this loop and of each changelog loop. *)
Fixpoint getAllIssuesFrom (fuel budget : nat) (nextPageToken : option string)
    (results : list row) : M E (list row) :=
  match budget with
  | O => unfinished
  | S budget' =>
      data <- fetchIssues nextPageToken ;;
      let issues := issues data in
      results <- processIssues fuel issues results ;;
      let nextPageToken :=
        if isLast data then None else tokenOrNull (nextPageToken_ data) in
      match nextPageToken with
      | Some _ => getAllIssuesFrom fuel budget' nextPageToken results
      | None => ret results
      end
  end.

Definition getAllIssues (fuel : nat) : M E (list row) :=
  getAllIssuesFrom fuel fuel None [].

Definition saveResultsToCsv (results : list row) : M E unit :=
  writeFileSync csvFile (csv results).

(** The console output of [main] is not part of the model. *)
Definition main (fuel : nat) : M E unit :=
  tryCatchLog (
    results <- getAllIssues fuel ;;
    let avgDays := calculateAverageTimeSpentDays results in
    saveResultsToCsv results).

End Script.

(** ** Vocabulary of the specification *)

(** The delays of exponential backoff before attempts [attempt + 1], ...,
    [attempt + n]. *)
Definition backoff (baseDelayMs : Z) (attempt n : nat) : list Z :=
  map (fun k => baseDelayMs * 2 ^ Z.of_nat k) (seq attempt n).

(** The endpoint never sends a [retry-after] header with an error. *)
Definition noRetryAfter {E A} (respond : E -> (error + A) * E) : Prop :=
  forall e status header,
    fst (respond e) = inl (HttpError status header) -> header = None.

(** The endpoint answers every attempt with a transient error (429 or 5xx)
    that carries no [retry-after] header. *)
Definition persistentlyTransient {E A} (respond : E -> (error + A) * E) : Prop :=
  forall e, exists status,
    fst (respond e) = inl (HttpError status None)
    /\ transient (Some status) = true.

(** The endpoint answers every attempt with a transient error (429 or 5xx),
    with or without a [retry-after] header. *)
Definition alwaysTransient {E A} (respond : E -> (error + A) * E) : Prop :=
  forall e, exists err,
    fst (respond e) = inl err /\ transient (statusOf err) = true.

(** What a request leaves in the log when every attempt from [attempt] on
    fails transiently and [n] retries remain. *)
Definition exhausted (r : request) (baseDelayMs : Z) (attempt n : nat)
    : list event :=
  (flat_map (fun k => [Request r; Sleep (baseDelayMs * 2 ^ Z.of_nat k)])
            (seq attempt n) ++ [Request r])%list.

(** The wrapped call of [r] against the endpoint throws, however it is
    started, and what it logs and throws is as [Q] says. *)
Definition failsAs {E A} (elapse : Z -> E -> E) (r : request)
    (Q : list event -> error -> Prop) (respond : E -> (error + A) * E)
    : Prop :=
  forall w, exists tail err,
    events (snd (withRetry E elapse (http respond r) w)) = (events w ++ tail)%list
    /\ fst (withRetry E elapse (http respond r) w) = Threw err
    /\ Q tail err.

(** The tracker answers the request with an error whenever it is sent. *)
Definition refuses {E}
    (searchJql : option string -> E -> (error + searchData) * E)
    (changelogOf : string -> Z -> E -> (error + changelogData) * E)
    (r : request) : Prop :=
  match r with
  | SearchJql token => forall e, exists err, fst (searchJql token e) = inl err
  | ChangelogPage issueKey startAt =>
      forall e, exists err, fst (changelogOf issueKey startAt e) = inl err
  | SearchV2 _ => False
  end.

(** The tracker answers the request with a transient error whenever it is
    sent. *)
Definition strained {E}
    (searchJql : option string -> E -> (error + searchData) * E)
    (changelogOf : string -> Z -> E -> (error + changelogData) * E)
    (r : request) : Prop :=
  match r with
  | SearchJql token => alwaysTransient (searchJql token)
  | ChangelogPage issueKey startAt =>
      alwaysTransient (changelogOf issueKey startAt)
  | SearchV2 _ => False
  end.

(** The tracker answers the request with a transient error, without a
    [retry-after] header, whenever it is sent. *)
Definition overloaded {E}
    (searchJql : option string -> E -> (error + searchData) * E)
    (changelogOf : string -> Z -> E -> (error + changelogData) * E)
    (r : request) : Prop :=
  match r with
  | SearchJql token => persistentlyTransient (searchJql token)
  | ChangelogPage issueKey startAt =>
      persistentlyTransient (changelogOf issueKey startAt)
  | SearchV2 _ => False
  end.

End Enhanced.

(* ================================================================== *)
(** * A tracker that serves consecutive pages *)
(* ================================================================== *)

Module Service.
Import Changelog Tracker World.

(** Number of pages of [size] items needed for [total] items. *)
Definition ceilDiv (total size : nat) : nat := ((total + size - 1) / size)%nat.

(** Number of requests a fetch loop makes: one per page, and one even when
    there is nothing to fetch. *)
Definition pageCount (total size : nat) : nat := Nat.max 1 (ceilDiv total size).

(** The page token for the page that starts at [offset], and the offset a
    token stands for (0 without a token). *)
Definition pageToken (offset : nat) : string :=
  NilEmpty.string_of_uint (Nat.to_uint offset).

Definition offsetOf (token : option string) : nat :=
  match token with
  | None => 0%nat
  | Some t =>
      match NilEmpty.uint_of_string t with
      | Some d => Nat.of_uint d
      | None => 0%nat
      end
  end.

(** The token sent with the request for page [i] of [size] items. *)
Definition tokenOfPage (size i : nat) : option string :=
  match i with
  | O => None
  | S _ => Some (pageToken (size * i))
  end.

(** The page tokens of the search requests in a log. *)
Definition tokensRequested (evs : list event) : list (option string) :=
  flat_map (fun ev => match ev with
                      | Request (SearchJql t) => [t]
                      | _ => []
                      end) evs.

Section Service.
Variable E : Type.

(** The v2 search endpoint over the issues [all]: asked for 50 issues from
    [startAt], it serves at most [limit] of them and reports the total. *)
Definition searchV2 (limit : nat) (all : list Legacy.issue) (startAt : Z) (e : E)
    : (error + Legacy.searchData) * E :=
  (inr {| Legacy.total := Z.of_nat (List.length all);
          Legacy.issues :=
            firstn (Nat.min 50 limit) (skipn (Z.to_nat startAt) all) |}, e).

(** The changelog endpoint over the histories [log issueKey]: asked for 100
    entries from [startAt], it serves at most [limit] of them, reports the
    page size it applied and the total, and, when [reportsIsLast], whether
    the page is the last one. *)
Definition changelogPages (limit : positive) (reportsIsLast : bool)
    (log : string -> list history) (issueKey : string) (startAt : Z) (e : E)
    : (error + Enhanced.changelogData) * E :=
  let all := log issueKey in
  let size := Nat.min 100 (Pos.to_nat limit) in
  let values := firstn size (skipn (Z.to_nat startAt) all) in
  (inr {| Enhanced.values := Some values;
          Enhanced.maxResults := Some (Z.of_nat size);
          Enhanced.total := Some (Z.of_nat (List.length all));
          Enhanced.isLastPage :=
            if reportsIsLast
            then Some (Z.of_nat (List.length all)
                       <=? startAt + Z.of_nat (List.length values))
            else None |}, e).

(** The enhanced search endpoint over the issues [all]: asked for 50 issues
    from the page a token stands for, it serves at most [limit] of them,
    says whether the page is the last one and, if not, hands out the token
    of the next page. *)
Definition searchJqlPages (limit : positive) (all : list Enhanced.issue)
    (token : option string) (e : E) : (error + Enhanced.searchData) * E :=
  let size := Nat.min 50 (Pos.to_nat limit) in
  let offset := offsetOf token in
  let last := (List.length all <=? offset + size)%nat in
  (inr {| Enhanced.issues := firstn size (skipn offset all);
          Enhanced.isLast := last;
          Enhanced.nextPageToken_ :=
            if last then None else Some (pageToken (offset + size)) |}, e).

End Service.

(** Fuel that lets every loop of the enhanced [getAllIssues] finish against
    this tracker. *)
Definition enoughFuel (all : list Enhanced.issue) (log : string -> list history)
    : nat :=
  S (List.length all
     + list_max (map (fun i => List.length (log (Enhanced.key i))) all)).

End Service.

(* ================================================================== *)
(** * Sample data *)
(* ================================================================== *)

Module Sample.
Import Changelog Tracker.

Definition statusChange (at_ to : string) : history :=
  {| Changelog.created := VStr at_;
     items := [ {| field := "status"; toString := VStr to |} ] |}.

(** An issue that enters Backlog, moves to In Progress, falls back to
    Backlog and is taken up again; an assignee change comes in between. *)
Definition reentered : list history :=
  [ statusChange "2024-01-02T09:00:00.000+0000" "Backlog";
    statusChange "2024-01-03T09:00:00.000+0000" "In Progress";
    {| Changelog.created := VStr "2024-01-03T10:00:00.000+0000";
       items := [ {| field := "assignee"; toString := VStr "In Progress" |} ] |};
    statusChange "2024-01-04T09:00:00.000+0000" "Backlog";
    statusChange "2024-01-05T09:00:00.000+0000" "In Progress" ].

Definition fieldsOf (summary : string) (created : value) : fields :=
  {| summary := Some summary; priority := Some (Some "High");
     status := Some (Some "Open"); Tracker.created := created;
     assignee := None; customfield_999 := VNull |}.

(** 2024-01-01T00:00:00Z, as a clock reading. *)
Definition newYear2024 : Z := 1704067200000.

(** An issue whose created date lies a day and a half after [newYear2024]. *)
Definition futureIssue : Enhanced.issue :=
  {| Enhanced.key := "MIS-7";
     Enhanced.issueFields :=
       fieldsOf "Planned work" (VStr "2024-01-02T12:00:00.000+0000") |}.

(** An issue created a day and a half before [newYear2024]. *)
Definition pastIssue : Enhanced.issue :=
  {| Enhanced.key := "MIS-3";
     Enhanced.issueFields :=
       fieldsOf "Old work" (VStr "2023-12-30T12:00:00.000+0000") |}.

(** An issue whose created date cannot be read. *)
Definition malformedIssue : Enhanced.issue :=
  {| Enhanced.key := "MIS-9";
     Enhanced.issueFields := fieldsOf "Broken import" (VStr "not-a-date") |}.

(** An issue created at [newYear2024] exactly. *)
Definition freshIssue : Enhanced.issue :=
  {| Enhanced.key := "MIS-11";
     Enhanced.issueFields :=
       fieldsOf "Just filed" (VStr "2024-01-01T00:00:00.000+0000") |}.

Definition legacyOf (i : Enhanced.issue) (changelog : list history)
    : Legacy.issue :=
  {| Legacy.key := Enhanced.key i;
     Legacy.issueFields := Enhanced.issueFields i;
     Legacy.changelog := changelog |}.

(** Taken up nine days after [pastIssue] was created. *)
Definition takenUp : list history :=
  [ statusChange "2024-01-08T12:00:00.000+0000" "In Progress" ].

(** The summary He said, then hi between double quotes. *)
Definition heSaidHi : string :=
  "He said " ++ String dquote ("hi" ++ String dquote EmptyString).

Definition quotedIssue : Enhanced.issue :=
  {| Enhanced.key := "MIS-12";
     Enhanced.issueFields :=
       fieldsOf heSaidHi (VStr "2024-01-01T00:00:00.000+0000") |}.

(** A tracker whose search endpoint is down: every attempt is answered
    with 503 and no [retry-after] header.  Nothing else is ever asked. *)
Definition searchDown (token : option string) (e : unit)
    : (World.error + Enhanced.searchData) * unit :=
  (inl (World.HttpError 503 None), e).

Definition noChangelog (issueKey : string) (startAt : Z) (e : unit)
    : (World.error + Enhanced.changelogData) * unit :=
  (inl World.NetworkError, e).

(** A tracker whose changelog endpoint asks for patience: every attempt is
    answered with 429 and [Retry-After: 2]. *)
Definition changelogBusy (issueKey : string) (startAt : Z) (e : unit)
    : (World.error + Enhanced.changelogData) * unit :=
  (inl (World.HttpError 429 (Some (World.DelaySeconds 2))), e).

(** A tracker whose changelog endpoint is down in the same way. *)
Definition changelogDown (issueKey : string) (startAt : Z) (e : unit)
    : (World.error + Enhanced.changelogData) * unit :=
  (inl (World.HttpError 503 None), e).

Definition frozenClock (e : unit) : Z * unit := (newYear2024, e).

Definition instantTimer (ms : Z) (e : unit) : unit := e.

Definition emptyWorld : World.world unit := World.mkWorld tt [].

(** [n] issues without changelog, keyed 0, 1, ... *)
Definition legacyIssues (n : nat) : list Legacy.issue :=
  map (fun k => {| Legacy.key := Service.pageToken k;
                   Legacy.issueFields :=
                     fieldsOf "Imported" (VStr "2024-01-01T00:00:00.000+0000");
                   Legacy.changelog := [] |})
      (seq 0 n).

(** The scenario of the specification: created on 2024-01-01, taken to
    status2 on 2024-01-10. *)
Definition scenarioIssue : Enhanced.issue :=
  {| Enhanced.key := "MIS-1";
     Enhanced.issueFields := fieldsOf "Scenario" (VStr "2024-01-01T00:00:00Z") |}.

Definition scenarioHistory : list history :=
  [ statusChange "2024-01-10T00:00:00Z" "08 Blocked" ].

(** A search endpoint that serves the scenario issue on one page. *)
Definition oneIssueSearch (token : option string) (e : unit)
    : (World.error + Enhanced.searchData) * unit :=
  (inr {| Enhanced.issues := [scenarioIssue]; Enhanced.isLast := true;
          Enhanced.nextPageToken_ := None |}, e).

(** A v2 search endpoint that serves sixty issues and fails from the second
    page on. *)
Definition secondPageFails (startAt : Z) (e : unit)
    : (World.error + Legacy.searchData) * unit :=
  if startAt =? 0
  then (inr {| Legacy.total := 60; Legacy.issues := firstn 50 (legacyIssues 60) |}, e)
  else (inl World.NetworkError, e).

(** The shipped configuration of the enhanced revision with another end
    date. *)
Definition withEndDate (d : string) : config :=
  {| status1 := status1 Enhanced.shipped; status2 := status2 Enhanced.shipped;
     endDate := d; useCreatedDate := true |}.

End Sample.

(* ================================================================== *)
(** * Vocabulary for further properties of the two revisions *)
(* ================================================================== *)

Module Revisions.
Import Changelog Tracker.

(** The issue of the enhanced revision with its changelog expanded inside
    it, as the v2 search endpoint of src/index.js delivers it. *)
Definition inlined (issue : Enhanced.issue) (histories : list history)
    : Legacy.issue :=
  {| Legacy.key := Enhanced.key issue;
     Legacy.issueFields := Enhanced.issueFields issue;
     Legacy.changelog := histories |}.

(** An object with a name that is either missing altogether or carries a
    name that is not empty. *)
Definition properName (o : option (option string)) : Prop :=
  o = None \/ exists n, o = Some (Some n) /\ n <> "".

(** An issue whose priority, status and assignee are objects without a
    name. *)
Definition nameless : Enhanced.issue :=
  {| Enhanced.key := "MIS-30";
     Enhanced.issueFields :=
       {| Tracker.summary := Some "No names";
          Tracker.priority := Some None;
          Tracker.status := Some None;
          Tracker.created := VStr "2024-01-01T00:00:00Z";
          Tracker.assignee := Some None;
          Tracker.customfield_999 := VNull |} |}.

(** The entry enters [s] and carries a timestamp. *)
Definition entersAt (s : string) (h : history) : bool :=
  enters s h && truthy (Changelog.created h).

(** Timestamp of the first entry of the history that enters [s] and
    carries a timestamp; absent when there is none. *)
Definition firstTimeIn (s : string) (histories : list history) : value :=
  match find (entersAt s) histories with
  | Some h => Changelog.created h
  | None => VNull
  end.

(** The start time of an issue, from its created date and its changelog:
    the created date when [useCreatedDate] is set, the first time in
    status1 otherwise. *)
Definition startTimeOf (cfg : config) (created : value)
    (histories : list history) : value :=
  if useCreatedDate cfg then created else firstTimeIn (status1 cfg) histories.

(** Whether some row holds [NaN] as its number of days. *)
Definition someNaN {row : Type} (days : row -> option number)
    (results : list row) : bool :=
  existsb (fun r => match days r with Some NaN => true | _ => false end) results.

End Revisions.

(* ================================================================== *)
(** * An endpoint that fails a number of times before it answers *)
(* ================================================================== *)

Module Flaky.
Import World.

(** The environment counts the calls made so far: the first [failures]
    calls are answered with [err], every later one with [data]. *)
Definition flaky {A} (failures : nat) (err : error) (data : A) (calls : nat)
    : (error + A) * nat :=
  (if (calls <? failures)%nat then inl err else inr data, S calls).

(** The environment counts the calls made so far: call number [i], counted
    from 0, is answered with [answers i]. *)
Definition scripted {A} (answers : nat -> error + A) (calls : nat)
    : (error + A) * nat :=
  (answers calls, S calls).

(** A 503 first, a 401 from then on. *)
Definition overloadThenDenied (i : nat) : error + unit :=
  if (i =? 0)%nat then inl (HttpError 503 None) else inl (HttpError 401 None).

(** Timers leave the call counter alone. *)
Definition noTimer (ms : Z) (calls : nat) : nat := calls.

(** The wait before the retry that follows failed attempt number
    [attempt] (counted from 0): the seconds of a [Retry-After] header when
    it names a positive number, the exponential delay otherwise. *)
Definition waitFor (header : option retryAfter) (baseDelayMs : Z) (attempt : nat)
    : Z :=
  match header with
  | Some (DelaySeconds n) =>
      if (n =? 0)%N then baseDelayMs * 2 ^ Z.of_nat attempt
      else Z.of_N n * 1000
  | _ => baseDelayMs * 2 ^ Z.of_nat attempt
  end.

(** The log of a wrapped request [r] that failed with [err] in attempts
    [attempt], ..., [attempt + n - 1] and was then sent once more. *)
Definition attemptsLog (r : request) (err : error) (baseDelayMs : Z)
    (attempt n : nat) : list event :=
  (flat_map (fun i => [Request r;
                       Sleep (waitFor (Enhanced.retryAfterHeaderOf err)
                                      baseDelayMs i)])
            (seq attempt n) ++ [Request r])%list.

End Flaky.

(* ================================================================== *)
(** * Endpoints that never say they are done *)
(* ================================================================== *)

Module Endless.
Import Changelog World.





(** A changelog page that carries entries but neither a total nor an
    [isLast] flag. *)
Definition barePage (issueKey : string) (startAt : Z) (e : unit)
    : (error + Enhanced.changelogData) * unit :=
  (inr {| Enhanced.values :=
            Some [ {| created := VStr "2024-01-02T09:00:00.000+0000";
                      items := [] |} ];
          Enhanced.maxResults := Some 1;
          Enhanced.total := None; Enhanced.isLastPage := None |}, e).

End Endless.

(* ================================================================== *)
(** * Reading a CSV record *)
(* ================================================================== *)

Module Csv.

Definition comma : ascii := ","%char.
Definition lineFeed : ascii := ascii_of_nat 10.
Definition carriageReturn : ascii := ascii_of_nat 13.

(** A character that needs quoting in a CSV field. *)
Definition special (c : ascii) : bool :=
  Ascii.eqb c comma || Ascii.eqb c dquote
  || Ascii.eqb c lineFeed || Ascii.eqb c carriageReturn.

(** A text that can stand in a record without quotes. *)
Fixpoint simple (s : string) : bool :=
  match s with
  | EmptyString => true
  | String c rest => negb (special c) && simple rest
  end.

(** Where a reader is within a record. *)
Inductive state : Type :=
| FieldStart
| Bare
| Quoted
| QuoteSeen.

(** A reader of one record in the format of RFC 4180: fields are separated
    by commas; a field that starts with a double quote runs to its closing
    quote, two quotes inside it standing for one; quotes and line ends
    elsewhere are malformed.  [cur] is the text of the current field read
    so far; the result is [None] for a malformed record. *)
Fixpoint readFrom (st : state) (cur : string) (s : string)
    : option (list string) :=
  match s with
  | EmptyString =>
      match st with
      | Quoted => None
      | _ => Some [cur]
      end
  | String c rest =>
      match st with
      | FieldStart =>
          if Ascii.eqb c dquote then readFrom Quoted EmptyString rest
          else if Ascii.eqb c comma
               then option_map (cons EmptyString) (readFrom FieldStart EmptyString rest)
               else if special c then None
                    else readFrom Bare (String c EmptyString) rest
      | Bare =>
          if Ascii.eqb c comma
          then option_map (cons cur) (readFrom FieldStart EmptyString rest)
          else if special c then None
               else readFrom Bare (cur ++ String c EmptyString) rest
      | Quoted =>
          if Ascii.eqb c dquote then readFrom QuoteSeen cur rest
          else readFrom Quoted (cur ++ String c EmptyString) rest
      | QuoteSeen =>
          if Ascii.eqb c dquote
          then readFrom Quoted (cur ++ String dquote EmptyString) rest
          else if Ascii.eqb c comma
               then option_map (cons cur) (readFrom FieldStart EmptyString rest)
               else None
      end
  end.

Definition readRecord (line : string) : option (list string) :=
  readFrom FieldStart EmptyString line.

(** The fields of the line of a row, apart from key and summary, as the
    two revisions write them. *)
Definition enhancedTail (r : Enhanced.row) : list string :=
  [ Enhanced.Status r; Enhanced.Priority r;
    Tracker.plain (Enhanced.Start_Time r);
    Tracker.plain (cell (Enhanced.Currently_in_Backlog_for r));
    Tracker.plain (Enhanced.Status2_Time r);
    Tracker.plain (cell (Enhanced.Time_Spent_Minutes r));
    Tracker.plain (cell (Enhanced.Time_Spent_Days r));
    Enhanced.Assignee r ].

Definition legacyTail (r : Legacy.row) : list string :=
  [ Tracker.plainIfTruthy (Legacy.Status r);
    Tracker.plainIfTruthy (Legacy.Priority r);
    Tracker.plainIfTruthy (Legacy.Start_Time r);
    Tracker.plainIfTruthy (cell (Legacy.Currently_in_Backlog_for r));
    Tracker.plainIfTruthy (Legacy.Status2_Time r);
    Tracker.plainIfTruthy (cell (Legacy.Time_Spent_Minutes r));
    Tracker.plainIfTruthy (cell (Legacy.Time_Spent_Days r));
    Tracker.plainIfTruthy (Legacy.Assignee r);
    Tracker.plainIfTruthy (Legacy.Affected_Customers r) ].

(** The fields among them that carry text of the tracker. *)
Definition enhancedTexts (r : Enhanced.row) : list string :=
  [ Enhanced.Status r; Enhanced.Priority r;
    Tracker.plain (Enhanced.Start_Time r);
    Tracker.plain (Enhanced.Status2_Time r);
    Enhanced.Assignee r ].

Definition legacyTexts (r : Legacy.row) : list string :=
  [ Tracker.plainIfTruthy (Legacy.Status r);
    Tracker.plainIfTruthy (Legacy.Priority r);
    Tracker.plainIfTruthy (Legacy.Start_Time r);
    Tracker.plainIfTruthy (Legacy.Status2_Time r);
    Tracker.plainIfTruthy (Legacy.Assignee r);
    Tracker.plainIfTruthy (Legacy.Affected_Customers r) ].

(** An issue assigned to somebody whose display name has a comma. *)
Definition familyNameFirst : Enhanced.issue :=
  {| Enhanced.key := "MIS-21";
     Enhanced.issueFields :=
       {| Tracker.summary := Some Sample.heSaidHi;
          Tracker.priority := Some (Some "High");
          Tracker.status := Some (Some "Open");
          Tracker.created := VStr "2024-01-01T00:00:00Z";
          Tracker.assignee := Some (Some "Doe, Jane");
          Tracker.customfield_999 := VNull |} |}.

End Csv.

(* ================================================================== *)
(** * The addresses the second revision asks *)
(* ================================================================== *)

Module Url.

Definition slash : ascii := "/"%char.
Definition percent : ascii := "%"%char.

Fixpoint allSlashes (s : string) : bool :=
  match s with
  | EmptyString => true
  | String c rest => Ascii.eqb c slash && allSlashes rest
  end.

(** [s.replace(/\/+$/, '')]: the pattern matches at the leftmost position
    from which slashes, at least one, run to the end of the text, and the
    match is replaced by nothing. *)
Fixpoint stripTrailingSlashes (s : string) : string :=
  match s with
  | EmptyString => EmptyString
  | String c rest =>
      if Ascii.eqb c slash && allSlashes rest then EmptyString
      else String c (stripTrailingSlashes rest)
  end.

(** [jiraBase], from the [jiraUrl] of the secrets file. *)
Definition jiraBase (jiraUrl : string) : string := stripTrailingSlashes jiraUrl.

Definition inRange (lo hi n : nat) : bool := (lo <=? n)%nat && (n <=? hi)%nat.

(** The characters [encodeURIComponent] leaves as they are: letters, digits
    and [- _ . ! ~ * ' ( )]. *)
Definition unreserved (c : ascii) : bool :=
  let n := nat_of_ascii c in
  inRange 65 90 n || inRange 97 122 n || inRange 48 57 n
  || existsb (Nat.eqb n) [45; 95; 46; 33; 126; 42; 39; 40; 41]%nat.

Definition hexDigit (n : nat) : ascii :=
  if (n <? 10)%nat then ascii_of_nat (48 + n) else ascii_of_nat (55 + n).

(** A percent sign and the two upper-case hexadecimal digits of a byte. *)
Definition escape (c : ascii) : string :=
  let n := nat_of_ascii c in
  String percent
    (String (hexDigit (n / 16)) (String (hexDigit (n mod 16)) EmptyString)).

(** [encodeURIComponent], on the UTF-8 bytes of a well-formed text: every
    byte but the unreserved characters is escaped. *)
Fixpoint encodeURIComponent (s : string) : string :=
  match s with
  | EmptyString => EmptyString
  | String c rest =>
      if unreserved c then String c (encodeURIComponent rest)
      else (escape c ++ encodeURIComponent rest)%string
  end.

(** [searchUrl], [issueChangelogUrl(key)] and the address built in
    [fetchIssueChangelog] for one page. *)
Definition searchUrl (base : string) : string :=
  (base ++ "/rest/api/3/search/jql")%string.

Definition issueChangelogUrl (base key : string) : string :=
  (base ++ "/rest/api/3/issue/" ++ encodeURIComponent key ++ "/changelog")%string.

Definition changelogPageUrl (base key : string) (startAt : Z) : string :=
  (issueChangelogUrl base key ++ "?startAt=" ++ to_string (VNum startAt)
     ++ "&maxResults=100")%string.

(** ** Vocabulary of the properties *)

Fixpoint slashes (n : nat) : string :=
  match n with
  | O => EmptyString
  | S k => String slash (slashes k)
  end.

Fixpoint endsWithSlash (s : string) : bool :=
  match s with
  | EmptyString => false
  | String c EmptyString => Ascii.eqb c slash
  | String _ rest => endsWithSlash rest
  end.

Fixpoint occurs (c : ascii) (s : string) : bool :=
  match s with
  | EmptyString => false
  | String d rest => Ascii.eqb d c || occurs c rest
  end.

Definition hexValue (c : ascii) : option nat :=
  let n := nat_of_ascii c in
  if inRange 48 57 n then Some (n - 48)%nat
  else if inRange 65 70 n then Some (n - 55)%nat
  else if inRange 97 102 n then Some (n - 87)%nat
  else None.

(** The bytes an escaped text stands for; [None] when a percent sign is
    not followed by two hexadecimal digits. *)
Fixpoint percentDecode (s : string) : option string :=
  match s with
  | EmptyString => Some EmptyString
  | String c rest =>
      if Ascii.eqb c percent then
        match rest with
        | String h (String l rest') =>
            match hexValue h, hexValue l with
            | Some a, Some b =>
                option_map (String (ascii_of_nat (16 * a + b)))
                           (percentDecode rest')
            | _, _ => None
            end
        | _ => None
        end
      else option_map (String c) (percentDecode rest)
  end.

(** The characters that end or divide the path of an address. *)
Definition delimiters : list ascii :=
  [ "/"%char; "?"%char; "#"%char; "&"%char; "="%char; " "%char ].

End Url.

(* ================================================================== *)
(** * Properties of the changelog scan *)
(* ================================================================== *)

Module ChangelogFacts.
Import Changelog.

Section Scan.
Variables status1 status2 : string.

Local Abbreviation hit := changesStatusTo.

Lemma scanItem_fst c a1 a2 it :
  fst (scanItem status1 status2 c (a1, a2) it) =
  if truthy a1 then a1 else if hit status1 it then c else a1.
Proof.
  unfold scanItem, changesStatusTo.
  destruct (field it =? "status")%string; simpl;
    destruct (is_string (toString it) status1), (truthy a1); reflexivity.
Qed.

Lemma scanItem_snd c a1 a2 it :
  snd (scanItem status1 status2 c (a1, a2) it) =
  if truthy a2 then a2 else if hit status2 it then c else a2.
Proof.
  unfold scanItem, changesStatusTo.
  destruct (field it =? "status")%string; simpl;
    destruct (is_string (toString it) status2), (truthy a2); reflexivity.
Qed.

Lemma scanItems_fst c its : forall a1 a2,
  fst (fold_left (scanItem status1 status2 c) its (a1, a2)) =
  if truthy a1 then a1 else if existsb (hit status1) its then c else a1.
Proof.
  induction its as [|it its IH]; intros a1 a2; cbn [fold_left existsb].
  - cbn. destruct (truthy a1); reflexivity.
  - destruct (scanItem status1 status2 c (a1, a2) it) as [b1 b2] eqn:Hs.
    rewrite IH.
    assert (Hb : b1 = fst (scanItem status1 status2 c (a1, a2) it))
      by (rewrite Hs; reflexivity).
    rewrite scanItem_fst in Hb. subst b1.
    destruct (truthy a1) eqn:Ha; [rewrite Ha; reflexivity|].
    destruct (hit status1 it); simpl.
    + destruct (truthy c); [reflexivity|].
      destruct (existsb (hit status1) its); reflexivity.
    + rewrite Ha. reflexivity.
Qed.

Lemma scanItems_snd c its : forall a1 a2,
  snd (fold_left (scanItem status1 status2 c) its (a1, a2)) =
  if truthy a2 then a2 else if existsb (hit status2) its then c else a2.
Proof.
  induction its as [|it its IH]; intros a1 a2; cbn [fold_left existsb].
  - cbn. destruct (truthy a2); reflexivity.
  - destruct (scanItem status1 status2 c (a1, a2) it) as [b1 b2] eqn:Hs.
    rewrite IH.
    assert (Hb : b2 = snd (scanItem status1 status2 c (a1, a2) it))
      by (rewrite Hs; reflexivity).
    rewrite scanItem_snd in Hb. subst b2.
    destruct (truthy a2) eqn:Ha; [rewrite Ha; reflexivity|].
    destruct (hit status2 it); simpl.
    + destruct (truthy c); [reflexivity|].
      destruct (existsb (hit status2) its); reflexivity.
    + rewrite Ha. reflexivity.
Qed.

Lemma scanHistory_fst a1 a2 h :
  fst (scanHistory status1 status2 (a1, a2) h) =
  if truthy a1 then a1 else if enters status1 h then created h else a1.
Proof. unfold scanHistory, enters. apply scanItems_fst. Qed.

Lemma scanHistory_snd a1 a2 h :
  snd (scanHistory status1 status2 (a1, a2) h) =
  if truthy a2 then a2 else if enters status2 h then created h else a2.
Proof. unfold scanHistory, enters. apply scanItems_snd. Qed.

(** A time that is set survives any further scanning. *)
Lemma scanFrom_keeps_fst hs : forall a1 a2,
  truthy a1 = true -> fst (scanFrom status1 status2 (a1, a2) hs) = a1.
Proof.
  unfold scanFrom.
  induction hs as [|h hs IH]; intros a1 a2 Ha; cbn [fold_left];
    [reflexivity|].
  destruct (scanHistory status1 status2 (a1, a2) h) as [b1 b2] eqn:Hs.
  assert (Hb : b1 = a1).
  { change b1 with (fst (b1, b2)). rewrite <- Hs, scanHistory_fst, Ha.
    reflexivity. }
  subst b1. apply IH, Ha.
Qed.

Lemma scanFrom_keeps_snd hs : forall a1 a2,
  truthy a2 = true -> snd (scanFrom status1 status2 (a1, a2) hs) = a2.
Proof.
  unfold scanFrom.
  induction hs as [|h hs IH]; intros a1 a2 Ha; cbn [fold_left];
    [reflexivity|].
  destruct (scanHistory status1 status2 (a1, a2) h) as [b1 b2] eqn:Hs.
  assert (Hb : b2 = a2).
  { change b2 with (snd (b1, b2)). rewrite <- Hs, scanHistory_snd, Ha.
    reflexivity. }
  subst b2. apply IH, Ha.
Qed.

(** Scanning timestamped entries from an unset time finds the first entry
    into the status. *)
Lemma scanFrom_first_fst hs : forall a1 a2,
  Forall timestamped hs -> truthy a1 = false ->
  fst (scanFrom status1 status2 (a1, a2) hs) =
  match find (enters status1) hs with Some h => created h | None => a1 end.
Proof.
  induction hs as [|h hs IH]; intros a1 a2 Hts Ha; [reflexivity|].
  inversion Hts as [|? ? Hh Hrest]; subst.
  change (scanFrom status1 status2 (a1, a2) (h :: hs))
    with (scanFrom status1 status2 (scanHistory status1 status2 (a1, a2) h) hs).
  destruct (scanHistory status1 status2 (a1, a2) h) as [b1 b2] eqn:Hs.
  assert (Hb : b1 = if enters status1 h then created h else a1).
  { change b1 with (fst (b1, b2)). rewrite <- Hs, scanHistory_fst, Ha.
    reflexivity. }
  simpl find. destruct (enters status1 h).
  - subst b1. apply scanFrom_keeps_fst, Hh.
  - subst b1. apply IH; assumption.
Qed.

Lemma scanFrom_first_snd hs : forall a1 a2,
  Forall timestamped hs -> truthy a2 = false ->
  snd (scanFrom status1 status2 (a1, a2) hs) =
  match find (enters status2) hs with Some h => created h | None => a2 end.
Proof.
  induction hs as [|h hs IH]; intros a1 a2 Hts Ha; [reflexivity|].
  inversion Hts as [|? ? Hh Hrest]; subst.
  change (scanFrom status1 status2 (a1, a2) (h :: hs))
    with (scanFrom status1 status2 (scanHistory status1 status2 (a1, a2) h) hs).
  destruct (scanHistory status1 status2 (a1, a2) h) as [b1 b2] eqn:Hs.
  assert (Hb : b2 = if enters status2 h then created h else a2).
  { change b2 with (snd (b1, b2)). rewrite <- Hs, scanHistory_snd, Ha.
    reflexivity. }
  simpl find. destruct (enters status2 h).
  - subst b2. apply scanFrom_keeps_snd, Hh.
  - subst b2. apply IH; assumption.
Qed.

Lemma extract_app hs later :
  extract status1 status2 (hs ++ later) =
  scanFrom status1 status2 (extract status1 status2 hs) later.
Proof. unfold extract, scanFrom. apply fold_left_app. Qed.

End Scan.

(** C1.  For every history whose entries carry a timestamp, scanned in the
    order given, the extraction returns for status1 and for status2 the
    timestamp of the first entry that contains a change of the status field
    to that status (nothing when there is none); and a time, once recorded,
    is the result whatever entries follow, so leaving and re-entering the
    status never overwrites or un-sets it. *)
Theorem extract_first_entry_wins :
  forall (status1 status2 : string) (histories : list history),
    Forall timestamped histories ->
    extract status1 status2 histories =
      (firstEntryTo status1 histories, firstEntryTo status2 histories)
    /\ (forall later,
          truthy (fst (extract status1 status2 histories)) = true ->
          fst (extract status1 status2 (histories ++ later)) =
          fst (extract status1 status2 histories))
    /\ (forall later,
          truthy (snd (extract status1 status2 histories)) = true ->
          snd (extract status1 status2 (histories ++ later)) =
          snd (extract status1 status2 histories)).
Proof.
  intros s1 s2 hs Hts. split; [|split].
  - unfold firstEntryTo.
    rewrite (surjective_pairing (extract s1 s2 hs)). f_equal.
    + unfold extract. rewrite scanFrom_first_fst by (assumption || reflexivity).
      reflexivity.
    + unfold extract. rewrite scanFrom_first_snd by (assumption || reflexivity).
      reflexivity.
  - intros later Hset. rewrite extract_app.
    destruct (extract s1 s2 hs) as [t1 t2]. apply scanFrom_keeps_fst, Hset.
  - intros later Hset. rewrite extract_app.
    destruct (extract s1 s2 hs) as [t1 t2]. apply scanFrom_keeps_snd, Hset.
Qed.

(** The theorem at the re-entering history of [Sample]. *)
Lemma extract_first_entry_wins_witness :
  Forall timestamped Sample.reentered /\
  extract "Backlog" "In Progress" Sample.reentered =
    (VStr "2024-01-02T09:00:00.000+0000", VStr "2024-01-03T09:00:00.000+0000").
Proof.
  assert (H : Forall timestamped Sample.reentered)
    by (repeat constructor).
  split; [exact H|].
  rewrite (proj1 (extract_first_entry_wins "Backlog" "In Progress" _ H)).
  reflexivity.
Defined.

(** An entry without a timestamp is passed over: the time of the next entry
    into the status is recorded instead. *)
Example extract_skips_untimestamped :
  extract "Backlog" "In Progress"
    [ {| created := VStr "";
         items := [ {| field := "status"; toString := VStr "Backlog" |} ] |};
      Sample.statusChange "2024-01-04T09:00:00.000+0000" "Backlog" ]
  = (VStr "2024-01-04T09:00:00.000+0000", VNull).
Proof. reflexivity. Qed.

End ChangelogFacts.

(* ================================================================== *)
(** * Properties of the per-issue timing *)
(* ================================================================== *)

Module TimingFacts.
Import Changelog Tracker.

Ltac split_extract :=
  match goal with
  | |- context [extract ?a ?b ?h] =>
      let t1 := fresh "status1Time" in
      let t2 := fresh "status2Time" in
      destruct (extract a b h) as [t1 t2]
  end.

Ltac div_lia := Z.to_euclidean_division_equations; lia.

Lemma quot_days (now t : Z) :
  Z.quot (now - t) msPerDay =
  if t <=? now then (now - t) / msPerDay else - ((t - now) / msPerDay).
Proof.
  unfold msPerDay. destruct (Z.leb_spec t now).
  - apply Z.quot_div_nonneg; lia.
  - replace (now - t) with (- (t - now)) by lia.
    rewrite Z.quot_opp_l by lia. f_equal. apply Z.quot_div_nonneg; lia.
Qed.

(** In a zone that keeps one offset every day lasts 24 hours, and the full
    days between two instants are their difference in days with the
    fraction dropped. *)
Lemma fullDays_fixed (c a b : Z) :
  fullDays (fixedOffset c) a b = Z.quot (a - b) msPerDay.
Proof.
  rewrite quot_days.
  unfold fullDays, compareLocalAsc, differenceInCalendarDays, localTime, msPerDay.
  cbn [offsetAt instantOf fixedOffset]. cbv zeta.
  replace (a + c - (b + c)) with (a - b) by lia.
  destruct (Z.lt_trichotomy a b) as [H|[H|H]].
  - rewrite (Z.sgn_neg (a - b)) by lia.
    rewrite (Z.abs_neq ((a + c) / 86400000 - (b + c) / 86400000)) by div_lia.
    destruct (Z.leb_spec b a); [lia|].
    match goal with |- context [Z.sgn ?u =? ?y] =>
      destruct (Z.eqb_spec (Z.sgn u) y) as [E|E];
      [apply Z.sgn_pos_iff in E
      |assert (u <= 0) by (destruct (Z.sgn_spec u) as [[? ?]|[[? ?]|[? ?]]]; lia)]
    end; div_lia.
  - subst b. rewrite Z.sub_diag. cbn [Z.sgn]. rewrite Z.mul_0_l.
    destruct (Z.leb_spec a a); [reflexivity|lia].
  - rewrite (Z.sgn_pos (a - b)) by lia.
    rewrite (Z.abs_eq ((a + c) / 86400000 - (b + c) / 86400000)) by div_lia.
    destruct (Z.leb_spec b a); [|lia].
    match goal with |- context [Z.sgn ?u =? ?y] =>
      destruct (Z.eqb_spec (Z.sgn u) y) as [E|E];
      [apply Z.sgn_neg_iff in E
      |assert (0 <= u) by (destruct (Z.sgn_spec u) as [[? ?]|[[? ?]|[? ?]]]; lia)]
    end; div_lia.
Qed.

Section Timing.
Variable parseISO : string -> Date.
Variable cfg : config.

(** C4, as the code has it.  In both revisions [backlogDays] is absent when
    the start time is not set.  When the start time is set and read as the
    instant [t], and the time zone of the machine keeps one offset from
    UTC, it is the number of whole days of 24 hours between [t] and now
    with the fraction dropped: the floor of (now - t) in days when [t] is
    not later than now, and minus the floor of (t - now) in days when it
    is. *)
Theorem backlogDays_whole_days_toward_zero :
  (forall c now issue histories,
     let r := Enhanced.issueRow parseISO (fixedOffset c) cfg now issue histories in
     (truthy (Enhanced.Start_Time r) = false ->
        Enhanced.Currently_in_Backlog_for r = None) /\
     (forall t,
        truthy (Enhanced.Start_Time r) = true ->
        parse parseISO (Enhanced.Start_Time r) = Some t ->
        Enhanced.Currently_in_Backlog_for r =
          Some (Num (if t <=? now then (now - t) / msPerDay
                     else - ((t - now) / msPerDay)))))
  /\
  (forall c now issue,
     let r := Legacy.issueRow parseISO (fixedOffset c) cfg now issue in
     (truthy (Legacy.Start_Time r) = false ->
        Legacy.Currently_in_Backlog_for r = None) /\
     (forall t,
        truthy (Legacy.Start_Time r) = true ->
        parse parseISO (Legacy.Start_Time r) = Some t ->
        Legacy.Currently_in_Backlog_for r =
          Some (Num (if t <=? now then (now - t) / msPerDay
                     else - ((t - now) / msPerDay))))).
Proof.
  split.
  - intros c now issue histories r. subst r. unfold Enhanced.issueRow.
    cbn [Enhanced.Start_Time Enhanced.Currently_in_Backlog_for].
    split_extract. cbn [fst snd].
    set (startTime := if negb (useCreatedDate cfg) && truthy status1Time
                      then status1Time else _).
    split.
    + intros ->. reflexivity.
    + intros t -> ->. cbn [differenceInDays].
      rewrite fullDays_fixed, quot_days. reflexivity.
  - intros c now issue r. subst r. unfold Legacy.issueRow.
    cbn [Legacy.Start_Time Legacy.Currently_in_Backlog_for].
    split_extract. cbn [fst snd].
    set (startTime := if negb (useCreatedDate cfg) && truthy status1Time
                      then status1Time else _).
    split.
    + intros ->. reflexivity.
    + intros t -> ->. cbn [differenceInDays].
      rewrite fullDays_fixed, quot_days. reflexivity.
Qed.

End Timing.

(** Where the clocks change, a day is counted on the local calendar.  In
    New York, from noon on 2024-03-09 to noon on 2024-03-10 there are 23
    hours, and [differenceInDays] counts one day. *)
Example a_day_of_23_hours_is_a_full_day :
  differenceInDays newYork2024 (Some 1710086400000) (Some 1710003600000) = Num 1
  /\ Z.quot (1710086400000 - 1710003600000) msPerDay = 0
  /\ 1710086400000 - 1710003600000 = 23 * 3600000.
Proof. repeat split; vm_compute; reflexivity. Qed.

(** The two end-to-end scenarios of the specification. *)
Example scenario_within_cutoff :
  let r := Enhanced.issueRow parseISO_utc utc (Sample.withEndDate "2024-12-31")
             Sample.newYear2024 Sample.scenarioIssue Sample.scenarioHistory in
  Enhanced.Time_Spent_Days r = Some (Num 9)
  /\ Enhanced.Time_Spent_Minutes r = Some (Num 12960).
Proof. split; reflexivity. Qed.

Example scenario_after_cutoff :
  let r := Enhanced.issueRow parseISO_utc utc (Sample.withEndDate "2024-01-05")
             Sample.newYear2024 Sample.scenarioIssue Sample.scenarioHistory in
  Enhanced.Time_Spent_Days r = None /\ Enhanced.Time_Spent_Minutes r = None
  /\ nth 7 (Enhanced.csvFields r) "" = ""
  /\ nth 8 (Enhanced.csvFields r) "" = "".
Proof. repeat split; reflexivity. Qed.

(** The end date shipped with the enhanced revision, 2025-30-09, names month
    30: it is not a date, so no transition is within the cutoff and the
    time-spent metrics of the scenario are absent. *)
Example shipped_end_date_unreadable :
  parseISO_utc (endDate Enhanced.shipped) = None
  /\ Enhanced.Time_Spent_Days
       (Enhanced.issueRow parseISO_utc utc Enhanced.shipped Sample.newYear2024
          Sample.scenarioIssue Sample.scenarioHistory) = None.
Proof. split; reflexivity. Qed.

(** The theorem at an issue created a day and a half ago: one whole day,
    in both revisions. *)
Lemma backlogDays_whole_days_toward_zero_witness :
  Enhanced.Currently_in_Backlog_for
    (Enhanced.issueRow parseISO_utc utc Enhanced.shipped Sample.newYear2024
       Sample.pastIssue []) = Some (Num 1)
  /\
  Legacy.Currently_in_Backlog_for
    (Legacy.issueRow parseISO_utc utc Legacy.shipped Sample.newYear2024
       (Sample.legacyOf Sample.pastIssue [])) = Some (Num 1).
Proof.
  split.
  - exact (proj2 (proj1 (backlogDays_whole_days_toward_zero parseISO_utc
                           Enhanced.shipped)
                    0 Sample.newYear2024 Sample.pastIssue [])
                 1703937600000 eq_refl eq_refl).
  - exact (proj2 (proj2 (backlogDays_whole_days_toward_zero parseISO_utc
                           Legacy.shipped)
                    0 Sample.newYear2024 (Sample.legacyOf Sample.pastIssue []))
                 1703937600000 eq_refl eq_refl).
Defined.

(** C4, as the specification words it, fails: for a start time a day and a
    half after now the floor of (now - start) in days is -2, the script
    reports -1. *)
Lemma backlogDays_future_start_not_floor :
  let r := Enhanced.issueRow parseISO_utc utc Enhanced.shipped Sample.newYear2024
             Sample.futureIssue [] in
  truthy (Enhanced.Start_Time r) = true /\
  parse parseISO_utc (Enhanced.Start_Time r) = Some 1704196800000 /\
  (Sample.newYear2024 - 1704196800000) / msPerDay = -2 /\
  Enhanced.Currently_in_Backlog_for r = Some (Num (-1)) /\
  Enhanced.Currently_in_Backlog_for r <>
    Some (Num ((Sample.newYear2024 - 1704196800000) / msPerDay)).
Proof.
  cbv zeta. repeat split; try reflexivity. vm_compute. discriminate.
Qed.

End TimingFacts.

(* ================================================================== *)
(** * Properties of the report: average and CSV text *)
(* ================================================================== *)

Module ReportFacts.
Import Changelog Tracker.

(** ** The average *)

Lemma fold_addNumber (l : list Z) : forall acc,
  fold_left Enhanced.addNumber (map Num l) (Num acc) = Num (acc + sumZ l).
Proof.
  induction l as [|x l IH]; intros acc; cbn [map fold_left sumZ fold_right].
  - f_equal. lia.
  - cbn [Enhanced.addNumber]. rewrite IH. f_equal. unfold sumZ. lia.
Qed.

(** Without [NaN] among the metrics, the numbers that pass the filter are
    the present values. *)
Lemma valid_is_present (results : list Enhanced.row) :
  Forall (fun r => Enhanced.Time_Spent_Days r <> Some NaN) results ->
  flat_map (fun v => match v with Some x => [x] | None => [] end)
           (map Enhanced.Time_Spent_Days results)
  = map Num (presentDays Enhanced.Time_Spent_Days results).
Proof.
  induction 1 as [|r rs Hr _ IH]; [reflexivity|].
  cbn [map flat_map presentDays]. unfold presentDays in IH. rewrite IH.
  destruct (Enhanced.Time_Spent_Days r) as [[|n]|]; try reflexivity.
  congruence.
Qed.

(** The enhanced revision reports the mean of the present values, 0 when
    there is none. *)
Lemma Enhanced_average_is_mean (results : list Enhanced.row) :
  Forall (fun r => Enhanced.Time_Spent_Days r <> Some NaN) results ->
  Enhanced.calculateAverageTimeSpentDays results
  = Some (mean (presentDays Enhanced.Time_Spent_Days results)).
Proof.
  intros H. unfold Enhanced.calculateAverageTimeSpentDays.
  rewrite (valid_is_present results H).
  destruct (presentDays Enhanced.Time_Spent_Days results) as [|x l] eqn:Hp;
    [reflexivity|].
  rewrite length_map. cbn [List.length Nat.eqb mean].
  rewrite fold_addNumber. reflexivity.
Qed.

(** Rows built by the enhanced revision never hold [NaN] as time spent. *)
Lemma Enhanced_days_never_NaN parseISO tz cfg now issue histories :
  Enhanced.Time_Spent_Days (Enhanced.issueRow parseISO tz cfg now issue histories)
  <> Some NaN.
Proof.
  unfold Enhanced.issueRow. cbn [Enhanced.Time_Spent_Days].
  match goal with |- snd (if ?c then _ else _) <> _ => destruct c end;
    [|discriminate].
  match goal with |- snd (if ?c then _ else _) <> _ => destruct c eqn:Hc end;
    [|discriminate].
  repeat (apply andb_prop in Hc; destruct Hc as [Hc ?]).
  repeat match goal with
         | H : negb (isNaN ?d) = true |- _ => destruct d; [clear H|discriminate H]
         end.
  discriminate.
Qed.

(** The mean over the rows that the enhanced revision builds. *)
Lemma Enhanced_average_of_run parseISO tz cfg
    (inputs : list (Z * Enhanced.issue * list history)) :
  let results :=
    map (fun '(now, issue, histories) =>
           Enhanced.issueRow parseISO tz cfg now issue histories) inputs in
  Enhanced.calculateAverageTimeSpentDays results
  = Some (mean (presentDays Enhanced.Time_Spent_Days results)).
Proof.
  intros results. apply Enhanced_average_is_mean.
  subst results. apply Forall_forall. intros r Hr.
  apply in_map_iff in Hr. destruct Hr as ([[now issue] hs] & <- & _).
  apply Enhanced_days_never_NaN.
Qed.

(** The rows of a zone that keeps one offset are those of UTC. *)
Lemma differenceInDays_fixed (c : Z) (l r : Date) :
  differenceInDays (fixedOffset c) l r = differenceInDays utc l r.
Proof.
  destruct l as [a|], r as [b|]; try reflexivity.
  cbn [differenceInDays]. unfold utc.
  rewrite !TimingFacts.fullDays_fixed. reflexivity.
Qed.

Lemma Legacy_issueRow_fixed parseISO c cfg now issue :
  Legacy.issueRow parseISO (fixedOffset c) cfg now issue
  = Legacy.issueRow parseISO utc cfg now issue.
Proof. unfold Legacy.issueRow. rewrite !differenceInDays_fixed. reflexivity. Qed.

Lemma Enhanced_issueRow_fixed parseISO c cfg now issue histories :
  Enhanced.issueRow parseISO (fixedOffset c) cfg now issue histories
  = Enhanced.issueRow parseISO utc cfg now issue histories.
Proof. unfold Enhanced.issueRow. rewrite !differenceInDays_fixed. reflexivity. Qed.

(** C3 on src/index.js, in any time zone that keeps one offset.  Of two
    issues, one reaches In Progress nine days after its creation and the
    other never does: the only present value is 9, so the mean of the
    present values is 9, but the function divides the sum by the number of
    all rows and reports 9/2.  (The enhanced revision reports 9 on the same
    issues.) *)
Theorem Legacy_average_divides_by_all_rows :
  forall c : Z,
  let results :=
    map (Legacy.issueRow parseISO_utc (fixedOffset c) Legacy.shipped
           Sample.newYear2024)
        [ Sample.legacyOf Sample.pastIssue Sample.takenUp;
          Sample.legacyOf Sample.freshIssue [] ] in
  presentDays Legacy.Time_Spent_Days results = [9]
  /\ (mean (presentDays Legacy.Time_Spent_Days results) == 9)%Q
  /\ (Legacy.calculateAverageTimeSpentDays results == 9 # 2)%Q
  /\ ~ (Legacy.calculateAverageTimeSpentDays results
        == mean (presentDays Legacy.Time_Spent_Days results))%Q
  /\ Enhanced.calculateAverageTimeSpentDays
       [ Enhanced.issueRow parseISO_utc (fixedOffset c) Legacy.shipped
           Sample.newYear2024 Sample.pastIssue Sample.takenUp;
         Enhanced.issueRow parseISO_utc (fixedOffset c) Legacy.shipped
           Sample.newYear2024 Sample.freshIssue [] ]
     = Some (9 / 1)%Q.
Proof.
  intros c. cbv zeta. cbn [map].
  rewrite !Legacy_issueRow_fixed, !Enhanced_issueRow_fixed.
  repeat split; try (vm_compute; reflexivity).
  vm_compute. discriminate.
Qed.

(** ** The CSV text *)

Lemma double_quotes_doubled (s : string) : double_quotes s = doubled s.
Proof.
  unfold doubled. induction s as [|c s IH]; [reflexivity|].
  cbn [double_quotes list_ascii_of_string flat_map].
  destruct (Ascii.eqb c dquote); cbn [app string_of_list_ascii];
    rewrite IH; reflexivity.
Qed.

Lemma join_or_else (v : value) :
  join_element (or_else v (VStr "")) = plainIfTruthy v.
Proof.
  unfold or_else, plainIfTruthy. destruct (truthy v) eqn:Hv; [|reflexivity].
  destruct v as [| [|n] |s]; try discriminate; reflexivity.
Qed.

Lemma join_coalesce (v : value) :
  join_element (coalesce v (VStr "")) = plain v.
Proof. destruct v as [| [|n] |s]; reflexivity. Qed.

Lemma plainIfTruthy_string (s : string) : plainIfTruthy (VStr s) = s.
Proof. unfold plainIfTruthy. cbn. destruct s; reflexivity. Qed.

Lemma to_string_or_else_string (s : string) :
  to_string (or_else (VStr s) (VStr "")) = s.
Proof. unfold or_else. cbn. destruct s; reflexivity. Qed.

Lemma Legacy_summary_doubled parseISO tz cfg now issue :
  Legacy.Summary (Legacy.issueRow parseISO tz cfg now issue)
  = doubled (summaryText (Legacy.issueFields issue)).
Proof.
  unfold Legacy.issueRow, summaryText. cbn [Legacy.Summary].
  destruct (summary (Legacy.issueFields issue)) as [s|]; [|reflexivity].
  destruct s; [reflexivity|]. cbn [String.eqb]. apply double_quotes_doubled.
Qed.

Lemma Enhanced_summary_doubled parseISO tz cfg now issue histories :
  Enhanced.Summary (Enhanced.issueRow parseISO tz cfg now issue histories)
  = doubled (summaryText (Enhanced.issueFields issue)).
Proof.
  unfold Enhanced.issueRow, summaryText, str_or. cbn [Enhanced.Summary].
  rewrite double_quotes_doubled.
  destruct (summary (Enhanced.issueFields issue)) as [[|c s]|]; reflexivity.
Qed.







(** ** Unreadable timestamps *)

(** A start time that is set but unreadable: the enhanced revision leaves
    the time-spent fields empty and writes NaN as the backlog count. *)
Lemma Enhanced_unreadable_start parseISO tz cfg now issue histories :
  let r := Enhanced.issueRow parseISO tz cfg now issue histories in
  truthy (Enhanced.Start_Time r) = true ->
  parse parseISO (Enhanced.Start_Time r) = None ->
  nth 5 (Enhanced.csvFields r) "" = "NaN"
  /\ nth 7 (Enhanced.csvFields r) "" = ""
  /\ nth 8 (Enhanced.csvFields r) "" = "".
Proof.
  intros r. subst r. unfold Enhanced.csvFields, Enhanced.csvCells.
  cbn [map nth]. rewrite !join_coalesce.
  unfold Enhanced.issueRow.
  cbn [Enhanced.Start_Time Enhanced.Currently_in_Backlog_for
       Enhanced.Time_Spent_Minutes Enhanced.Time_Spent_Days].
  intros -> ->. cbn [andb]. repeat split.
  - destruct (truthy _); reflexivity.
  - destruct (truthy _); reflexivity.
Qed.

(** The same start time in src/index.js: all three fields are empty. *)
Lemma Legacy_unreadable_start parseISO tz cfg now issue :
  let r := Legacy.issueRow parseISO tz cfg now issue in
  truthy (Legacy.Start_Time r) = true ->
  parse parseISO (Legacy.Start_Time r) = None ->
  nth 5 (Legacy.csvFields r) "" = ""
  /\ nth 7 (Legacy.csvFields r) "" = ""
  /\ nth 8 (Legacy.csvFields r) "" = "".
Proof.
  intros r. subst r. unfold Legacy.csvFields, Legacy.csvCells.
  cbn [map nth]. rewrite !join_or_else.
  unfold Legacy.issueRow.
  cbn [Legacy.Start_Time Legacy.Currently_in_Backlog_for
       Legacy.Time_Spent_Minutes Legacy.Time_Spent_Days].
  intros -> ->. cbn [andb]. repeat split.
  - destruct (truthy _); [destruct (date_le _ _)|]; try reflexivity.
    destruct (parse parseISO _); reflexivity.
  - destruct (truthy _); [destruct (date_le _ _)|]; try reflexivity.
    destruct (parse parseISO _); reflexivity.
Qed.

(** C7 on the enhanced revision.  An issue whose created date is the text
    not-a-date is processed without an error, and its time-spent fields are
    empty, but the backlog field of its line reads NaN instead of being
    empty.  (src/index.js writes an empty backlog field for the same
    issue.) *)
Theorem unreadable_created_date_renders_NaN :
  forall tz : zone,
  let r := Enhanced.issueRow parseISO_utc tz Enhanced.shipped Sample.newYear2024
             Sample.malformedIssue [] in
  Enhanced.csvFields r =
    [ "MIS-9"; quoted "Broken import"; "Open"; "High"; "not-a-date";
      "NaN"; ""; ""; ""; "Unassigned" ]
  /\ nth 5 (Legacy.csvFields
              (Legacy.issueRow parseISO_utc tz Enhanced.shipped Sample.newYear2024
                 (Sample.legacyOf Sample.malformedIssue []))) "NaN" = "".
Proof. intros tz. cbv zeta. split; reflexivity. Qed.

End ReportFacts.

(* ================================================================== *)
(** * Properties of a run: what reaches the file system *)
(* ================================================================== *)

Module RunFacts.
Import Changelog Tracker World.
Local Open Scope run_scope.

Lemma writes_app (a b : list event) : writes (a ++ b) = (writes a ++ writes b)%list.
Proof. apply flat_map_app. Qed.

Lemma delays_app (a b : list event) : delays (a ++ b) = (delays a ++ delays b)%list.
Proof. apply flat_map_app. Qed.

Lemma requests_app (a b : list event) :
  requests (a ++ b) = (requests a ++ requests b)%list.
Proof. apply flat_map_app. Qed.

Section Silent.
Context {E : Type}.

Lemma silent_ret {A} (a : A) : silent (@ret E A a).
Proof. intros w. reflexivity. Qed.

Lemma silent_unfinished {A} : silent (@unfinished E A).
Proof. intros w. reflexivity. Qed.

Lemma silent_bind {A B} (m : M E A) (k : A -> M E B) :
  silent m -> (forall a, silent (k a)) -> silent (bind m k).
Proof.
  intros Hm Hk w. unfold bind. specialize (Hm w).
  destruct (m w) as [[a|e|] w1]; cbn [snd] in *.
  - rewrite Hk. exact Hm.
  - exact Hm.
  - exact Hm.
Qed.

Lemma silent_http {A} (respond : E -> (error + A) * E) (r : request) :
  silent (http respond r).
Proof.
  intros w. unfold http. destruct (respond (env w)) as [[err|data] e'];
    cbn [snd events]; rewrite writes_app, app_nil_r; reflexivity.
Qed.

Lemma silent_newDate (readClock : E -> Z * E) : silent (newDate readClock).
Proof.
  intros w. unfold newDate. destruct (readClock (env w)). reflexivity.
Qed.

Lemma silent_sleep (elapse : Z -> E -> E) (ms : Z) : silent (sleep elapse ms).
Proof.
  intros w. unfold sleep. cbn [snd events].
  rewrite writes_app, app_nil_r. reflexivity.
Qed.

End Silent.

(** ** The enhanced revision *)

Section Enhanced.
Variable parseISO : string -> Date.
Variable tz : zone.
Variable cfg : config.
Variable E : Type.
Variable searchJql : option string -> E -> (error + Enhanced.searchData) * E.
Variable changelogOf : string -> Z -> E -> (error + Enhanced.changelogData) * E.
Variable readClock : E -> Z * E.
Variable elapse : Z -> E -> E.

Local Abbreviation withRetryFrom := (Enhanced.withRetryFrom E elapse).
Local Abbreviation withRetryWith := (Enhanced.withRetryWith E elapse).
Local Abbreviation withRetry := (Enhanced.withRetry E elapse).
Local Abbreviation fetchIssues := (Enhanced.fetchIssues E searchJql elapse).
Local Abbreviation fetchIssueChangelogFrom :=
  (Enhanced.fetchIssueChangelogFrom E changelogOf elapse).
Local Abbreviation fetchIssueChangelog :=
  (Enhanced.fetchIssueChangelog E changelogOf elapse).
Local Abbreviation processIssues :=
  (Enhanced.processIssues parseISO tz cfg E changelogOf readClock elapse).
Local Abbreviation getAllIssuesFrom :=
  (Enhanced.getAllIssuesFrom parseISO tz cfg E searchJql changelogOf readClock elapse).
Local Abbreviation getAllIssues :=
  (Enhanced.getAllIssues parseISO tz cfg E searchJql changelogOf readClock elapse).
Local Abbreviation main :=
  (Enhanced.main parseISO tz cfg E searchJql changelogOf readClock elapse).

Lemma silent_withRetryFrom {A} (fn : M E A) retries baseDelayMs :
  silent fn ->
  forall fuel attempt, silent (withRetryFrom fuel fn retries baseDelayMs attempt).
Proof.
  intros Hfn. induction fuel as [|fuel IH]; intros attempt w;
    cbn [Enhanced.withRetryFrom]; [reflexivity|].
  specialize (Hfn w). destruct (fn w) as [[a|err|] w1]; cbn [snd] in *;
    try exact Hfn.
  destruct ((attempt <? retries)%nat && _); [|exact Hfn].
  cbn [sleep]. rewrite IH. cbn [events].
  rewrite writes_app, app_nil_r. exact Hfn.
Qed.

Lemma silent_withRetry {A} (fn : M E A) : silent fn -> silent (withRetry fn).
Proof. intros H. apply silent_withRetryFrom, H. Qed.

Lemma silent_fetchIssues token : silent (fetchIssues token).
Proof. apply silent_withRetry, silent_http. Qed.

Lemma silent_fetchIssueChangelogFrom issueKey :
  forall fuel startAt histories,
    silent (fetchIssueChangelogFrom fuel issueKey startAt histories).
Proof.
  induction fuel as [|fuel IH]; intros startAt histories;
    cbn [Enhanced.fetchIssueChangelogFrom]; [apply silent_unfinished|].
  apply silent_bind; [apply silent_withRetry, silent_http|].
  intros data. cbv zeta.
  match goal with |- silent (if ?c then _ else _) => destruct c end;
    [apply silent_ret | apply IH].
Qed.

Lemma silent_processIssues fuel :
  forall issues results, silent (processIssues fuel issues results).
Proof.
  induction issues as [|issue rest IH]; intros results;
    cbn [Enhanced.processIssues]; [apply silent_ret|].
  apply silent_bind; [apply silent_fetchIssueChangelogFrom|].
  intros histories. apply silent_bind; [apply silent_newDate|].
  intros now. apply IH.
Qed.

Lemma silent_getAllIssuesFrom fuel :
  forall budget token results,
    silent (getAllIssuesFrom fuel budget token results).
Proof.
  induction budget as [|budget IH]; intros token results;
    cbn [Enhanced.getAllIssuesFrom]; [apply silent_unfinished|].
  apply silent_bind; [apply silent_fetchIssues|].
  intros data. cbv zeta.
  apply silent_bind; [apply silent_processIssues|].
  intros results'.
  destruct (if Enhanced.isLast data then None else _);
    [apply IH | apply silent_ret].
Qed.

(** How [main] ends, from how [getAllIssues] ends. *)
Lemma Enhanced_main_cases fuel w :
  match getAllIssues fuel w with
  | (Returned results, w1) =>
      main fuel w =
        (Returned tt,
         mkWorld (env w1)
                 (events w1 ++ [WriteFile csvFile (Enhanced.csv cfg results)]))
  | (Threw _, w1) => main fuel w = (Returned tt, w1)
  | (Unfinished, w1) => main fuel w = (Unfinished, w1)
  end
  /\ writes (events (snd (getAllIssues fuel w))) = writes (events w).
Proof.
  split; [|apply silent_getAllIssuesFrom].
  unfold Enhanced.main, tryCatchLog, bind.
  destruct (getAllIssues fuel w) as [[results|e|] w1]; reflexivity.
Qed.

End Enhanced.

(** ** src/index.js *)

Section Legacy.
Variable parseISO : string -> Date.
Variable tz : zone.
Variable cfg : config.
Variable E : Type.
Variable search : Z -> E -> (error + Legacy.searchData) * E.
Variable readClock : E -> Z * E.

Local Abbreviation processIssues := (Legacy.processIssues parseISO tz cfg E readClock).
Local Abbreviation getAllIssuesFrom :=
  (Legacy.getAllIssuesFrom parseISO tz cfg E search readClock).
Local Abbreviation getAllIssues := (Legacy.getAllIssues parseISO tz cfg E search readClock).
Local Abbreviation main := (Legacy.main parseISO tz cfg E search readClock).

Lemma silent_Legacy_processIssues :
  forall issues results, silent (processIssues issues results).
Proof.
  induction issues as [|issue rest IH]; intros results;
    cbn [Legacy.processIssues]; [apply silent_ret|].
  apply silent_bind; [apply silent_newDate|]. intros now. apply IH.
Qed.

Lemma silent_Legacy_getAllIssuesFrom :
  forall fuel startAt results, silent (getAllIssuesFrom fuel startAt results).
Proof.
  induction fuel as [|fuel IH]; intros startAt results;
    cbn [Legacy.getAllIssuesFrom]; [apply silent_unfinished|].
  apply silent_bind; [apply silent_http|].
  intros data. cbv zeta.
  apply silent_bind; [apply silent_Legacy_processIssues|].
  intros results'. destruct (_ <? _); [apply IH | apply silent_ret].
Qed.

Lemma Legacy_main_cases fuel w :
  match getAllIssues fuel w with
  | (Returned results, w1) =>
      main fuel w =
        (Returned tt,
         mkWorld (env w1)
                 (events w1 ++ [WriteFile csvFile (Legacy.csvData cfg results)]))
  | (Threw _, w1) => main fuel w = (Returned tt, w1)
  | (Unfinished, w1) => main fuel w = (Unfinished, w1)
  end
  /\ writes (events (snd (getAllIssues fuel w))) = writes (events w).
Proof.
  split; [|apply silent_Legacy_getAllIssuesFrom].
  unfold Legacy.main, tryCatchLog, bind.
  destruct (getAllIssues fuel w) as [[results|e|] w1]; reflexivity.
Qed.

End Legacy.

(** ** Retries *)

Lemma backoff_sorted (baseDelayMs : Z) :
  0 <= baseDelayMs ->
  forall n attempt, Sorted Z.le (Enhanced.backoff baseDelayMs attempt n).
Proof.
  intros Hb. unfold Enhanced.backoff.
  induction n as [|n IH]; intros attempt; cbn [seq map]; constructor.
  - apply IH.
  - destruct n as [|n]; cbn [seq map]; constructor.
    rewrite Nat2Z.inj_succ, Z.pow_succ_r by lia.
    assert (0 <= 2 ^ Z.of_nat attempt) by (apply Z.pow_nonneg; lia).
    nia.
Qed.

Section Retry.
Variable E : Type.
Variable elapse : Z -> E -> E.
Context {A : Type}.
Variable respond : E -> (error + A) * E.
Variable r : request.
Variable retries : nat.
Variable baseDelayMs : Z.

Local Abbreviation withRetryFrom := (Enhanced.withRetryFrom E elapse).

(** One iteration of the loop around an HTTP exchange. *)
Lemma withRetryFrom_step fuel attempt w :
  withRetryFrom (S fuel) (http respond r) retries baseDelayMs attempt w =
  match respond (env w) with
  | (inr data, e') => (Returned data, mkWorld e' (events w ++ [Request r]))
  | (inl err, e') =>
      if (attempt <? retries)%nat && Enhanced.transient (Enhanced.statusOf err)
      then
        let waitMs := Enhanced.waitMsOf err (baseDelayMs * 2 ^ Z.of_nat attempt) in
        withRetryFrom fuel (http respond r) retries baseDelayMs (S attempt)
          (mkWorld (elapse waitMs e')
                   ((events w ++ [Request r]) ++ [Sleep waitMs]))
      else (Threw err, mkWorld e' (events w ++ [Request r]))
  end.
Proof.
  cbn [Enhanced.withRetryFrom]. unfold http at 1.
  destruct (respond (env w)) as [[err|data] e']; reflexivity.
Qed.

(** Without [retry-after] headers the waits of one wrapped call are the
    backoff delays, and a transient error is only passed on once [retries]
    waits have been made. *)
Lemma withRetryFrom_delays :
  Enhanced.noRetryAfter respond ->
  forall fuel attempt w,
    (attempt <= retries)%nat -> (retries < fuel + attempt)%nat ->
    let run := withRetryFrom fuel (http respond r) retries baseDelayMs attempt w in
    exists n,
      (attempt + n <= retries)%nat
      /\ delays (events (snd run)) =
         (delays (events w) ++ Enhanced.backoff baseDelayMs attempt n)%list
      /\ fst run <> Unfinished
      /\ (forall e, fst run = Threw e ->
                    Enhanced.transient (Enhanced.statusOf e) = true ->
                    (attempt + n)%nat = retries).
Proof.
  intros Hno. induction fuel as [|fuel IH]; intros attempt w Hle Hfuel run;
    [lia|].
  subst run. rewrite withRetryFrom_step.
  pose proof (Hno (env w)) as Hhdr.
  destruct (respond (env w)) as [[err|data] e'] eqn:Hresp; cbn [fst] in Hhdr.
  - destruct ((attempt <? retries)%nat && _) eqn:Hretry.
    + apply andb_prop in Hretry. destruct Hretry as [Hlt Htr].
      apply Nat.ltb_lt in Hlt.
      destruct err as [status header|]; [|discriminate Htr].
      rewrite (Hhdr status header eq_refl).
      cbn [Enhanced.waitMsOf Enhanced.retryAfterHeaderOf]. cbv zeta.
      match goal with
      | |- context [withRetryFrom fuel _ _ _ (S attempt) ?w2] =>
          destruct (IH (S attempt) w2) as (n & Hn & Hd & Hu & Ht); [lia|lia|]
      end.
      exists (S n). repeat split.
      * lia.
      * rewrite Hd. cbn [events].
        rewrite !delays_app. cbn [delays flat_map app].
        rewrite app_nil_r, <- app_assoc. reflexivity.
      * exact Hu.
      * intros e He Hte. specialize (Ht e He Hte). lia.
    + exists 0%nat. cbn [fst snd events]. repeat split.
      * lia.
      * rewrite delays_app. cbn [delays flat_map Enhanced.backoff seq map].
        rewrite !app_nil_r. reflexivity.
      * discriminate.
      * intros e He Hte. injection He as <-. rewrite Hte, andb_true_r in Hretry.
        apply Nat.ltb_ge in Hretry. lia.
  - exists 0%nat. cbn [fst snd events]. repeat split.
    + lia.
    + rewrite delays_app. cbn [delays flat_map Enhanced.backoff seq map].
      rewrite !app_nil_r. reflexivity.
    + discriminate.
    + discriminate.
Qed.

(** The loop of [withRetry] ends whenever each attempt does. *)
Lemma withRetryFrom_ends (fn : M E A) :
  (forall w, fst (fn w) <> Unfinished) ->
  forall fuel attempt w,
    (retries < S fuel + attempt)%nat ->
    fst (withRetryFrom (S fuel) fn retries baseDelayMs attempt w) <> Unfinished.
Proof.
  intros Hfn. induction fuel as [|fuel IH]; intros attempt w Hfuel;
    cbn [Enhanced.withRetryFrom]; pose proof (Hfn w) as Hw;
    destruct (fn w) as [[a|err|] w1]; cbn [fst] in *;
    try discriminate; try congruence;
    destruct (attempt <? retries)%nat eqn:Hlt; cbn [andb];
    try discriminate;
    destruct (Enhanced.transient _); try discriminate;
    apply Nat.ltb_lt in Hlt.
  - lia.
  - apply IH. lia.
Qed.

(** When every attempt fails transiently, the wrapped call makes
    [retries + 1] attempts, waits in between, and throws. *)
Lemma withRetryFrom_exhausted :
  Enhanced.persistentlyTransient respond ->
  forall fuel attempt w,
    (attempt <= retries)%nat -> (retries < fuel + attempt)%nat ->
    let run := withRetryFrom fuel (http respond r) retries baseDelayMs attempt w in
    (exists e, fst run = Threw e
               /\ Enhanced.transient (Enhanced.statusOf e) = true)
    /\ events (snd run) =
       (events w ++ Enhanced.exhausted r baseDelayMs attempt (retries - attempt))%list.
Proof.
  intros Hbad. induction fuel as [|fuel IH]; intros attempt w Hle Hfuel run;
    [lia|].
  subst run. rewrite withRetryFrom_step.
  destruct (Hbad (env w)) as (status & Hresp & Htr).
  destruct (respond (env w)) as [answer e']. cbn [fst] in Hresp. subst answer.
  cbn [Enhanced.statusOf]. rewrite Htr, andb_true_r.
  destruct (attempt <? retries)%nat eqn:Hlt.
  - apply Nat.ltb_lt in Hlt.
    cbn [Enhanced.waitMsOf Enhanced.retryAfterHeaderOf]. cbv zeta.
    match goal with
    | |- context [withRetryFrom fuel _ _ _ (S attempt) ?w2] =>
        destruct (IH (S attempt) w2) as [He Hev]; [lia|lia|]
    end.
    split; [exact He|].
    rewrite Hev. cbn [events]. unfold Enhanced.exhausted.
    replace (retries - attempt)%nat with (S (retries - S attempt)) by lia.
    cbn [seq flat_map]. rewrite <- !app_assoc. reflexivity.
  - apply Nat.ltb_ge in Hlt. cbn [fst snd events].
    split; [eexists; split; [reflexivity|exact Htr]|].
    replace (retries - attempt)%nat with 0%nat by lia. reflexivity.
Qed.

(** When every attempt fails transiently, with whatever headers, the
    wrapped call makes [retries + 1] attempts with a wait after each but
    the last, and throws. *)
Lemma withRetryFrom_alwaysTransient :
  Enhanced.alwaysTransient respond ->
  forall fuel attempt w,
    (attempt <= retries)%nat -> (retries < fuel + attempt)%nat ->
    let run := withRetryFrom fuel (http respond r) retries baseDelayMs attempt w in
    exists tail err,
      events (snd run) = (events w ++ tail)%list
      /\ fst run = Threw err
      /\ Enhanced.transient (Enhanced.statusOf err) = true
      /\ requests tail = repeat r (S (retries - attempt))
      /\ List.length (delays tail) = (retries - attempt)%nat.
Proof.
  intros Hbad. induction fuel as [|fuel IH]; intros attempt w Hle Hfuel run;
    [lia|].
  subst run. rewrite withRetryFrom_step.
  destruct (Hbad (env w)) as (err & Hresp & Htr).
  destruct (respond (env w)) as [answer e']. cbn [fst] in Hresp. subst answer.
  rewrite Htr, andb_true_r.
  destruct (attempt <? retries)%nat eqn:Hlt.
  - apply Nat.ltb_lt in Hlt. cbv zeta.
    match goal with
    | |- context [withRetryFrom fuel _ _ _ (S attempt) ?w2] =>
        destruct (IH (S attempt) w2)
          as (tail & err' & Hev & Hout & Htr' & Hreq & Hdel); [lia|lia|]
    end.
    eexists. exists err'. split.
    { rewrite Hev. cbn [events]. rewrite <- !app_assoc. reflexivity. }
    split; [exact Hout|].
    split; [exact Htr'|]. cbn [app].
    replace (retries - attempt)%nat with (S (retries - S attempt)) by lia.
    split.
    + cbn [requests flat_map app]. fold (requests tail). rewrite Hreq.
      reflexivity.
    + cbn [delays flat_map app List.length]. fold (delays tail). rewrite Hdel.
      reflexivity.
  - apply Nat.ltb_ge in Hlt. cbn [fst snd events].
    exists [Request r], err. replace (retries - attempt)%nat with 0%nat by lia.
    repeat split; auto.
Qed.

(** The loop only logs attempts at its request and waits. *)
Lemma withRetryFrom_traffic :
  forall fuel attempt w,
    exists new,
      events (snd (withRetryFrom fuel (http respond r) retries baseDelayMs
                     attempt w))
      = (events w ++ new)%list
      /\ Forall (fun ev => ev = Request r \/ exists ms, ev = Sleep ms) new.
Proof.
  induction fuel as [|fuel IH]; intros attempt w.
  - exists []. cbn. rewrite app_nil_r. auto.
  - rewrite withRetryFrom_step.
    destruct (respond (env w)) as [[err|data] e'].
    + destruct ((attempt <? retries)%nat && _).
      * cbv zeta.
        match goal with
        | |- context [withRetryFrom fuel _ _ _ (S attempt) ?w2] =>
            destruct (IH (S attempt) w2) as (new & Hev & Hnew)
        end.
        cbn [events] in Hev. rewrite Hev, <- !app_assoc.
        eexists. split; [reflexivity|].
        cbn [app]. constructor; [left; reflexivity|].
        constructor; [right; eexists; reflexivity|exact Hnew].
      * exists [Request r]. cbn [snd events]. split; [reflexivity|].
        constructor; [left; reflexivity|constructor].
    + exists [Request r]. cbn [snd events]. split; [reflexivity|].
      constructor; [left; reflexivity|constructor].
Qed.

(** When every attempt is answered with an error, the wrapped call
    throws. *)
Lemma withRetryFrom_refused :
  (forall e, exists err, fst (respond e) = inl err) ->
  forall fuel attempt w,
    (attempt <= retries)%nat -> (retries < fuel + attempt)%nat ->
    exists err,
      fst (withRetryFrom fuel (http respond r) retries baseDelayMs attempt w)
      = Threw err.
Proof.
  intros Hbad. induction fuel as [|fuel IH]; intros attempt w Hle Hfuel; [lia|].
  rewrite withRetryFrom_step.
  destruct (Hbad (env w)) as (err & Hresp).
  destruct (respond (env w)) as [answer e']. cbn [fst] in Hresp. subst answer.
  destruct ((attempt <? retries)%nat && _) eqn:Hretry.
  - apply andb_prop in Hretry. destruct Hretry as [Hlt _].
    apply Nat.ltb_lt in Hlt. cbv zeta. apply IH; lia.
  - exists err. reflexivity.
Qed.

End Retry.

(** With the search endpoint persistently failing, [main] makes four
    attempts with three waits in between and ends without a write. *)
Lemma Enhanced_main_search_down parseISO tz cfg E searchJql changelogOf readClock
    elapse :
  (forall token, Enhanced.persistentlyTransient (searchJql token)) ->
  forall fuel (w : world E),
    let run :=
      Enhanced.main parseISO tz cfg E searchJql changelogOf readClock elapse
        (S fuel) w in
    fst run = Returned tt
    /\ events (snd run) =
       (events w ++ Enhanced.exhausted (SearchJql None) 500 0 3)%list.
Proof.
  intros Hbad fuel w run. subst run.
  unfold Enhanced.main, tryCatchLog, Enhanced.getAllIssues.
  cbn [Enhanced.getAllIssuesFrom]. unfold bind.
  unfold Enhanced.fetchIssues, Enhanced.withRetry, Enhanced.withRetryWith.
  cbn [Enhanced.tokenOrNull].
  destruct (withRetryFrom_exhausted E elapse (searchJql None) (SearchJql None)
              3 500 (Hbad None) 4 0 w) as [(e & He & _) Hev]; [lia|lia|].
  destruct (Enhanced.withRetryFrom E elapse 4 _ 3 500 0 w) as [out w1].
  cbn [fst snd] in *. subst out. split; [reflexivity|exact Hev].
Qed.

Lemma Legacy_main_search_fails parseISO tz cfg E search readClock
    (w : world E) (err : error) fuel :
  fst (search 0 (env w)) = inl err ->
  let run := Legacy.main parseISO tz cfg E search readClock (S fuel) w in
  fst run = Returned tt
  /\ events (snd run) = (events w ++ [Request (SearchV2 0)])%list.
Proof.
  intros Herr run. subst run.
  unfold Legacy.main, tryCatchLog, Legacy.getAllIssues.
  cbn [Legacy.getAllIssuesFrom]. unfold bind.
  unfold Legacy.fetchIssues, http.
  destruct (search 0 (env w)) as [answer e']. cbn [fst] in Herr. subst answer.
  split; reflexivity.
Qed.

(** ** Runs that stop at a failing request *)

Lemma request_eq_dec (a b : request) : {a = b} + {a <> b}.
Proof.
  decide equality; try apply Z.eq_dec; try apply string_dec.
  decide equality; apply string_dec.
Qed.

Lemma delays_of_requests (l : list event) : Forall isRequest l -> delays l = [].
Proof.
  induction 1 as [|ev l [r ->] _ IH]; [reflexivity|]. exact IH.
Qed.

Section Stops.
Context {E : Type}.
Variable r : request.
Variable P : event -> Prop.
Variable Q : list event -> error -> Prop.

Lemma stopsAt_quiet {A} (m : M E A) :
  (forall w, exists new,
     events (snd (m w)) = (events w ++ new)%list
     /\ Forall P new /\ ~ In (Request r) new) ->
  stopsAt r P Q m.
Proof.
  intros H w. destruct (H w) as (new & Hev & HP & Hno). exists new. auto.
Qed.

Lemma stopsAt_ret {A} (a : A) : stopsAt r P Q (@ret E A a).
Proof.
  apply stopsAt_quiet. intros w. exists []. cbn. rewrite app_nil_r. auto.
Qed.

Lemma stopsAt_unfinished {A} : stopsAt r P Q (@unfinished E A).
Proof.
  apply stopsAt_quiet. intros w. exists []. cbn. rewrite app_nil_r. auto.
Qed.

Lemma stopsAt_newDate (readClock : E -> Z * E) :
  stopsAt r P Q (newDate readClock).
Proof.
  apply stopsAt_quiet. intros w. exists []. unfold newDate.
  destruct (readClock (env w)). cbn. rewrite app_nil_r. auto.
Qed.

Lemma stopsAt_bind {A B} (m : M E A) (k : A -> M E B) :
  stopsAt r P Q m -> (forall a, stopsAt r P Q (k a)) ->
  stopsAt r P Q (bind m k).
Proof.
  intros Hm Hk w. unfold bind.
  destruct (Hm w) as (new1 & Hev1 & HP1 & Hcase1).
  destruct (m w) as [[a|e|] w1]; cbn [fst snd] in *.
  - destruct (Hk a w1) as (new2 & Hev2 & HP2 & Hcase2).
    exists (new1 ++ new2)%list. rewrite Hev2, Hev1, app_assoc.
    split; [reflexivity|]. split; [apply Forall_app; auto|].
    destruct Hcase1 as [Hno1 | (b & t & err & _ & _ & Hthrew & _)];
      [|discriminate].
    destruct Hcase2 as [Hno2 | (b & t & err & -> & Hb & Hthrew & HQ)].
    + left. intros Hin. apply in_app_or in Hin. tauto.
    + right. exists (new1 ++ b)%list, t, err. rewrite app_assoc.
      repeat split; auto.
      intros Hin. apply in_app_or in Hin. tauto.
  - exists new1. split; [assumption|]. split; [assumption|].
    destruct Hcase1 as [Hno1 | (b & t & err & Hnew & Hb & Hthrew & HQ)];
      [left; assumption|].
    right. exists b, t, err. injection Hthrew as ->. auto.
  - exists new1. split; [assumption|]. split; [assumption|].
    destruct Hcase1 as [Hno1 | (b & t & err & _ & _ & Hthrew & _)];
      [left; assumption|discriminate].
Qed.

(** What a run that stops at [r] has done once [r] is in its log. *)
Lemma stopsAt_sent {A} (m : M E A) (w : world E) (new : list event) :
  stopsAt r P Q m ->
  events (snd (m w)) = (events w ++ new)%list ->
  In (Request r) new ->
  Forall P new
  /\ exists before tail err,
       new = (before ++ tail)%list
       /\ ~ In (Request r) before
       /\ fst (m w) = Threw err
       /\ Q tail err.
Proof.
  intros Hm Hev Hin. destruct (Hm w) as (new' & Hev' & HP & Hcase).
  rewrite Hev in Hev'. apply app_inv_head in Hev'. subst new'.
  split; [exact HP|]. destruct Hcase as [Hno|H]; [contradiction|exact H].
Qed.

End Stops.

Section EnhancedStops.
Variable parseISO : string -> Date.
Variable tz : zone.
Variable cfg : config.
Variable E : Type.
Variable searchJql : option string -> E -> (error + Enhanced.searchData) * E.
Variable changelogOf : string -> Z -> E -> (error + Enhanced.changelogData) * E.
Variable readClock : E -> Z * E.
Variable elapse : Z -> E -> E.
Variable r : request.
Variable Q : list event -> error -> Prop.

Local Abbreviation withRetry := (Enhanced.withRetry E elapse).

Local Abbreviation failsAs := (Enhanced.failsAs elapse r Q).

Hypothesis search_fails :
  forall token, SearchJql token = r -> failsAs (searchJql token).
Hypothesis changelog_fails :
  forall issueKey startAt,
    ChangelogPage issueKey startAt = r -> failsAs (changelogOf issueKey startAt).

Lemma stopsAt_wrapped {A} (respond : E -> (error + A) * E) (r' : request) :
  (r' = r -> failsAs respond) ->
  stopsAt r isTraffic Q (withRetry (http respond r')).
Proof.
  intros Hfail. destruct (request_eq_dec r' r) as [Heq|Hne].
  - subst r'. intros w.
    destruct (Hfail eq_refl w) as (tail & err & Hev & Hout & HQ).
    destruct (withRetryFrom_traffic E elapse respond r 3 500 4 0 w)
      as (new & Hnew & Hkind).
    fold (Enhanced.withRetryWith E elapse (http respond r) 3 500 w) in Hnew.
    change (Enhanced.withRetryWith E elapse (http respond r) 3 500 w)
      with (withRetry (http respond r) w) in Hnew.
    rewrite Hev in Hnew. apply app_inv_head in Hnew. subst new.
    exists tail. split; [exact Hev|]. split.
    + apply Forall_forall. intros ev Hin. rewrite Forall_forall in Hkind.
      destruct (Hkind ev Hin) as [-> | [ms ->]]; exact I.
    + right. exists [], tail, err. repeat split; auto.
  - apply stopsAt_quiet. intros w.
    destruct (withRetryFrom_traffic E elapse respond r' 3 500 4 0 w)
      as (new & Hnew & Hkind).
    exists new. split; [exact Hnew|]. rewrite Forall_forall in Hkind. split.
    + apply Forall_forall. intros ev Hin.
      destruct (Hkind ev Hin) as [-> | [ms ->]]; exact I.
    + intros Hin. destruct (Hkind _ Hin) as [Heq | [ms Heq]];
        [injection Heq as Heq; congruence | discriminate].
Qed.

Lemma stopsAt_fetchIssues token :
  stopsAt r isTraffic Q (Enhanced.fetchIssues E searchJql elapse token).
Proof. apply stopsAt_wrapped, search_fails. Qed.

Lemma stopsAt_fetchIssueChangelogFrom issueKey :
  forall fuel startAt histories,
    stopsAt r isTraffic Q
      (Enhanced.fetchIssueChangelogFrom E changelogOf elapse fuel issueKey
         startAt histories).
Proof.
  induction fuel as [|fuel IH]; intros startAt histories;
    cbn [Enhanced.fetchIssueChangelogFrom]; [apply stopsAt_unfinished|].
  apply stopsAt_bind; [apply stopsAt_wrapped, changelog_fails|].
  intros data. cbv zeta.
  match goal with |- stopsAt _ _ _ (if ?c then _ else _) => destruct c end;
    [apply stopsAt_ret | apply IH].
Qed.

Lemma stopsAt_processIssues fuel :
  forall issues results,
    stopsAt r isTraffic Q
      (Enhanced.processIssues parseISO tz cfg E changelogOf readClock elapse
         fuel issues results).
Proof.
  induction issues as [|issue rest IH]; intros results;
    cbn [Enhanced.processIssues]; [apply stopsAt_ret|].
  apply stopsAt_bind; [apply stopsAt_fetchIssueChangelogFrom|].
  intros histories. apply stopsAt_bind; [apply stopsAt_newDate|].
  intros now. apply IH.
Qed.

Lemma stopsAt_getAllIssuesFrom fuel :
  forall budget token results,
    stopsAt r isTraffic Q
      (Enhanced.getAllIssuesFrom parseISO tz cfg E searchJql changelogOf
         readClock elapse fuel budget token results).
Proof.
  induction budget as [|budget IH]; intros token results;
    cbn [Enhanced.getAllIssuesFrom]; [apply stopsAt_unfinished|].
  apply stopsAt_bind; [apply stopsAt_fetchIssues|].
  intros data. cbv zeta.
  apply stopsAt_bind; [apply stopsAt_processIssues|].
  intros results'.
  destruct (if Enhanced.isLast data then None else _);
    [apply IH | apply stopsAt_ret].
Qed.

End EnhancedStops.

Section LegacyStops.
Variable parseISO : string -> Date.
Variable tz : zone.
Variable cfg : config.
Variable E : Type.
Variable search : Z -> E -> (error + Legacy.searchData) * E.
Variable readClock : E -> Z * E.
Variable r : request.
Hypothesis refused : Legacy.refuses search r.

Local Abbreviation once := (fun (tail : list event) (_ : error) => tail = [Request r]).

Lemma stopsAt_Legacy_fetchIssues startAt :
  stopsAt r isRequest once (Legacy.fetchIssues E search startAt).
Proof.
  intros w. unfold Legacy.fetchIssues, http.
  exists [Request (SearchV2 startAt)].
  destruct (request_eq_dec (SearchV2 startAt) r) as [Heq|Hne].
  - subst r. destruct (refused (env w)) as (err & Herr).
    destruct (search startAt (env w)) as [answer e']. cbn [fst] in Herr.
    subst answer. cbn [fst snd events]. split; [reflexivity|].
    split; [repeat constructor; eexists; reflexivity|].
    right. exists [], [Request (SearchV2 startAt)], err. repeat split; auto.
  - assert (Hno : ~ In (Request r) [Request (SearchV2 startAt)]).
    { intros [H|[]]. injection H as H. congruence. }
    destruct (search startAt (env w)) as [[err|data] e']; cbn [fst snd events];
      (split; [reflexivity|]);
      (split; [repeat constructor; eexists; reflexivity|left; exact Hno]).
Qed.

Lemma stopsAt_Legacy_processIssues :
  forall issues results,
    stopsAt r isRequest once
      (Legacy.processIssues parseISO tz cfg E readClock issues results).
Proof.
  induction issues as [|issue rest IH]; intros results;
    cbn [Legacy.processIssues]; [apply stopsAt_ret|].
  apply stopsAt_bind; [apply stopsAt_newDate|]. intros now. apply IH.
Qed.

Lemma stopsAt_Legacy_getAllIssuesFrom :
  forall fuel startAt results,
    stopsAt r isRequest once
      (Legacy.getAllIssuesFrom parseISO tz cfg E search readClock fuel startAt
         results).
Proof.
  induction fuel as [|fuel IH]; intros startAt results;
    cbn [Legacy.getAllIssuesFrom]; [apply stopsAt_unfinished|].
  apply stopsAt_bind; [apply stopsAt_Legacy_fetchIssues|].
  intros data. cbv zeta.
  apply stopsAt_bind; [apply stopsAt_Legacy_processIssues|].
  intros results'. destruct (_ <? _); [apply IH | apply stopsAt_ret].
Qed.

End LegacyStops.

(** A request that the tracker always refuses ends the run of the enhanced
    revision where it is first sent. *)
Lemma Enhanced_refused_stops parseISO tz cfg E searchJql changelogOf readClock
    elapse (r : request) fuel :
  Enhanced.refuses searchJql changelogOf r ->
  stopsAt r isTraffic (fun _ _ => True)
    (Enhanced.getAllIssues parseISO tz cfg E searchJql changelogOf readClock
       elapse fuel).
Proof.
  intros Href. unfold Enhanced.getAllIssues.
  assert (Hfail : forall A (respond : E -> (error + A) * E),
            (forall e, exists err, fst (respond e) = inl err) ->
            Enhanced.failsAs elapse r (fun _ _ => True) respond).
  { intros A respond Hbad w.
    destruct (withRetryFrom_traffic E elapse respond r 3 500 4 0 w)
      as (new & Hnew & _).
    destruct (withRetryFrom_refused E elapse respond r 3 500 Hbad 4 0 w)
      as (err & Herr); [lia|lia|].
    exists new, err. auto. }
  apply stopsAt_getAllIssuesFrom.
  - intros token <-. apply Hfail, Href.
  - intros issueKey startAt <-. apply Hfail, Href.
Qed.

(** A request that is always answered with a transient error is sent four
    times, with waits of 500, 1000 and 2000 ms, and ends the run. *)
Lemma Enhanced_overloaded_stops parseISO tz cfg E searchJql changelogOf
    readClock elapse (r : request) fuel :
  Enhanced.overloaded searchJql changelogOf r ->
  stopsAt r isTraffic
    (fun tail err =>
       tail = Enhanced.exhausted r 500 0 3
       /\ Enhanced.transient (Enhanced.statusOf err) = true)
    (Enhanced.getAllIssues parseISO tz cfg E searchJql changelogOf readClock
       elapse fuel).
Proof.
  intros Hover. unfold Enhanced.getAllIssues.
  assert (Hfail : forall A (respond : E -> (error + A) * E),
            Enhanced.persistentlyTransient respond ->
            Enhanced.failsAs elapse r
              (fun tail err =>
                 tail = Enhanced.exhausted r 500 0 3
                 /\ Enhanced.transient (Enhanced.statusOf err) = true)
              respond).
  { intros A respond Hbad w.
    destruct (withRetryFrom_exhausted E elapse respond r 3 500 Hbad 4 0 w)
      as [(err & Herr & Htr) Hev]; [lia|lia|].
    exists (Enhanced.exhausted r 500 0 3), err. auto. }
  apply stopsAt_getAllIssuesFrom.
  - intros token <-. apply Hfail, Hover.
  - intros issueKey startAt <-. apply Hfail, Hover.
Qed.

(** A request that is always answered with a transient error, whatever
    its headers, is sent four times with three waits, and ends the run. *)
Lemma Enhanced_strained_stops parseISO tz cfg E searchJql changelogOf
    readClock elapse (r : request) fuel :
  Enhanced.strained searchJql changelogOf r ->
  stopsAt r isTraffic
    (fun tail err =>
       Enhanced.transient (Enhanced.statusOf err) = true
       /\ requests tail = repeat r 4
       /\ List.length (delays tail) = 3%nat)
    (Enhanced.getAllIssues parseISO tz cfg E searchJql changelogOf readClock
       elapse fuel).
Proof.
  intros Hover. unfold Enhanced.getAllIssues.
  assert (Hfail : forall A (respond : E -> (error + A) * E),
            Enhanced.alwaysTransient respond ->
            Enhanced.failsAs elapse r
              (fun tail err =>
                 Enhanced.transient (Enhanced.statusOf err) = true
                 /\ requests tail = repeat r 4
                 /\ List.length (delays tail) = 3%nat)
              respond).
  { intros A respond Hbad w.
    destruct (withRetryFrom_alwaysTransient E elapse respond r 3 500 Hbad 4 0 w)
      as (tail & err & Hev & Hout & Htr & Hreq & Hdel); [lia|lia|].
    exists tail, err. auto. }
  apply stopsAt_getAllIssuesFrom.
  - intros token <-. apply Hfail, Hover.
  - intros issueKey startAt <-. apply Hfail, Hover.
Qed.

(** C6.  (1) A call wrapped in [withRetry] that only meets errors without a
    [retry-after] header waits, before its attempts 2, 3, ..., the delays
    [baseDelayMs * 2^0], [baseDelayMs * 2^1], ...: each delay is at least the
    one before it; the loop always ends, and it passes a transient error on
    only after [retries] waits.  (2) Whatever request of a run, to the
    search endpoint or to a changelog, the tracker keeps answering with a
    transient error: once the run sends it, the run makes four attempts at
    it with three waits in between and nothing after them, [getAllIssues]
    throws a transient error, and [main] ends normally there, without a
    file; (3) when the errors carry no [retry-after] header, the waits are
    500, 1000 and 2000 ms.  (4) In particular, with the search endpoint
    down the run consists of those four attempts.  (5) src/index.js does
    not retry: a search request that the tracker refuses is sent once and
    ends the run, without a wait and without a file; (6) so does a first
    search request that fails. *)
Theorem backoff_nondecreasing_and_ceiling_aborts :
  (forall E elapse A (respond : E -> (error + A) * E) r retries baseDelayMs
          (w : world E),
     0 <= baseDelayMs ->
     Enhanced.noRetryAfter respond ->
     let run :=
       Enhanced.withRetryWith E elapse (http respond r) retries baseDelayMs w in
     exists n,
       (n <= retries)%nat
       /\ delays (events (snd run)) =
          (delays (events w) ++ Enhanced.backoff baseDelayMs 0 n)%list
       /\ Sorted Z.le (Enhanced.backoff baseDelayMs 0 n)
       /\ fst run <> Unfinished
       /\ (forall e, fst run = Threw e ->
                     Enhanced.transient (Enhanced.statusOf e) = true ->
                     n = retries))
  /\
  (forall parseISO tz cfg E searchJql changelogOf readClock elapse fuel
          (w : world E) r new,
     Enhanced.strained searchJql changelogOf r ->
     let fetched :=
       Enhanced.getAllIssues parseISO tz cfg E searchJql changelogOf readClock
         elapse fuel w in
     let run :=
       Enhanced.main parseISO tz cfg E searchJql changelogOf readClock elapse
         fuel w in
     events (snd fetched) = (events w ++ new)%list ->
     In (Request r) new ->
     (exists err, fst fetched = Threw err
                  /\ Enhanced.transient (Enhanced.statusOf err) = true)
     /\ (exists before tail,
           new = (before ++ tail)%list
           /\ ~ In (Request r) before
           /\ requests tail = repeat r 4
           /\ List.length (delays tail) = 3%nat)
     /\ run = (Returned tt, snd fetched)
     /\ writes (events (snd run)) = writes (events w))
  /\
  (forall parseISO tz cfg E searchJql changelogOf readClock elapse fuel
          (w : world E) r new,
     Enhanced.overloaded searchJql changelogOf r ->
     let fetched :=
       Enhanced.getAllIssues parseISO tz cfg E searchJql changelogOf readClock
         elapse fuel w in
     let run :=
       Enhanced.main parseISO tz cfg E searchJql changelogOf readClock elapse
         fuel w in
     events (snd fetched) = (events w ++ new)%list ->
     In (Request r) new ->
     (exists err, fst fetched = Threw err
                  /\ Enhanced.transient (Enhanced.statusOf err) = true)
     /\ (exists before,
           new = (before ++ Enhanced.exhausted r 500 0 3)%list
           /\ ~ In (Request r) before)
     /\ run = (Returned tt, snd fetched)
     /\ writes (events (snd run)) = writes (events w))
  /\
  (forall parseISO tz cfg E searchJql changelogOf readClock elapse fuel
          (w : world E),
     (forall token, Enhanced.persistentlyTransient (searchJql token)) ->
     let run :=
       Enhanced.main parseISO tz cfg E searchJql changelogOf readClock elapse
         (S fuel) w in
     fst run = Returned tt
     /\ writes (events (snd run)) = writes (events w)
     /\ delays (events (snd run)) = (delays (events w) ++ [500; 1000; 2000])%list
     /\ requests (events (snd run)) =
        (requests (events w) ++ repeat (SearchJql None) 4)%list)
  /\
  (forall parseISO tz cfg E search readClock fuel (w : world E) r new,
     Legacy.refuses search r ->
     let fetched :=
       Legacy.getAllIssues parseISO tz cfg E search readClock fuel w in
     let run := Legacy.main parseISO tz cfg E search readClock fuel w in
     events (snd fetched) = (events w ++ new)%list ->
     In (Request r) new ->
     (exists err, fst fetched = Threw err)
     /\ (exists before,
           new = (before ++ [Request r])%list /\ ~ In (Request r) before)
     /\ run = (Returned tt, snd fetched)
     /\ writes (events (snd run)) = writes (events w)
     /\ delays (events (snd run)) = delays (events w))
  /\
  (forall parseISO tz cfg E search readClock fuel (w : world E) err,
     fst (search 0 (env w)) = inl err ->
     let run := Legacy.main parseISO tz cfg E search readClock (S fuel) w in
     fst run = Returned tt
     /\ writes (events (snd run)) = writes (events w)
     /\ delays (events (snd run)) = delays (events w)).
Proof.
  split; [|split; [|split; [|split; [|split]]]].
  - intros E elapse A respond r retries baseDelayMs w Hb Hno run.
    destruct (withRetryFrom_delays E elapse respond r retries baseDelayMs Hno
                (S retries) 0 w) as (n & Hn & Hd & Hu & Ht); [lia|lia|].
    exists n. repeat split; try assumption.
    apply backoff_sorted, Hb.
  - intros parseISO tz cfg E searchJql changelogOf readClock elapse fuel w r new
           Hover fetched run Hev Hin.
    destruct (stopsAt_sent r isTraffic _ _ w new
                (Enhanced_strained_stops parseISO tz cfg E searchJql
                   changelogOf readClock elapse r fuel Hover) Hev Hin)
      as (_ & before & tail & err & -> & Hbefore & Hthrew & Htr & Hreq & Hdel).
    fold fetched in Hthrew.
    destruct (Enhanced_main_cases parseISO tz cfg E searchJql changelogOf
                readClock elapse fuel w) as [Hrun Hsilent].
    fold fetched in Hrun, Hsilent. fold run in Hrun.
    destruct fetched as [out w1]. cbn [fst snd] in *. subst out.
    split; [eauto|]. split; [exists before, tail; auto|]. split; [exact Hrun|].
    rewrite Hrun. exact Hsilent.
  - intros parseISO tz cfg E searchJql changelogOf readClock elapse fuel w r new
           Hover fetched run Hev Hin.
    destruct (stopsAt_sent r isTraffic _ _ w new
                (Enhanced_overloaded_stops parseISO tz cfg E searchJql
                   changelogOf readClock elapse r fuel Hover) Hev Hin)
      as (_ & before & tail & err & -> & Hbefore & Hthrew & -> & Htr).
    fold fetched in Hthrew.
    destruct (Enhanced_main_cases parseISO tz cfg E searchJql changelogOf
                readClock elapse fuel w) as [Hrun Hsilent].
    fold fetched in Hrun, Hsilent. fold run in Hrun.
    destruct fetched as [out w1]. cbn [fst snd] in *. subst out.
    split; [eauto|]. split; [eauto|]. split; [exact Hrun|].
    rewrite Hrun. exact Hsilent.
  - intros parseISO tz cfg E searchJql changelogOf readClock elapse fuel w Hbad run.
    destruct (Enhanced_main_search_down parseISO tz cfg E searchJql changelogOf
                readClock elapse Hbad fuel w) as [Hout Hev].
    fold run in Hout, Hev. rewrite Hev.
    rewrite writes_app, delays_app, requests_app.
    repeat split; try assumption.
    cbn. rewrite app_nil_r. reflexivity.
  - intros parseISO tz cfg E search readClock fuel w r new Href fetched run
           Hev Hin.
    destruct (stopsAt_sent r isRequest _ _ w new
                (stopsAt_Legacy_getAllIssuesFrom parseISO tz cfg E search
                   readClock r Href fuel 0 []) Hev Hin)
      as (Hkind & before & tail & err & Hnew & Hbefore & Hthrew & ->).
    fold (Legacy.getAllIssues parseISO tz cfg E search readClock fuel w)
      in Hthrew.
    fold fetched in Hthrew.
    destruct (Legacy_main_cases parseISO tz cfg E search readClock fuel w)
      as [Hrun Hsilent].
    fold fetched in Hrun, Hsilent. fold run in Hrun.
    destruct fetched as [out w1]. cbn [fst snd] in *. subst out.
    split; [eauto|]. split; [eauto|]. split; [exact Hrun|].
    rewrite Hrun. split; [exact Hsilent|].
    cbn [snd]. rewrite Hev, delays_app, (delays_of_requests new Hkind).
    apply app_nil_r.
  - intros parseISO tz cfg E search readClock fuel w err Herr run.
    destruct (Legacy_main_search_fails parseISO tz cfg E search readClock w err
                fuel Herr) as [Hout Hev].
    fold run in Hout, Hev. rewrite Hev. rewrite writes_app, delays_app.
    cbn. rewrite !app_nil_r. auto.
Qed.

(** The theorem at three trackers of [Sample]: the waits of a wrapped
    search call against a search endpoint that is down, and the runs
    against a tracker that serves one issue and whose changelog endpoint
    answers 429 with Retry-After: 2, or 503 without the header. *)
Lemma backoff_nondecreasing_and_ceiling_aborts_witness :
  (let run :=
     Enhanced.withRetryWith unit Sample.instantTimer
       (http (Sample.searchDown None) (SearchJql None)) 3 500
       Sample.emptyWorld in
   exists n,
     (n <= 3)%nat
     /\ delays (events (snd run)) =
        (delays (events Sample.emptyWorld) ++ Enhanced.backoff 500 0 n)%list
     /\ Sorted Z.le (Enhanced.backoff 500 0 n)
     /\ fst run <> Unfinished
     /\ (forall e, fst run = Threw e ->
                   Enhanced.transient (Enhanced.statusOf e) = true ->
                   n = 3%nat))
  /\
  (let r := ChangelogPage "MIS-1" 0 in
   let fetched :=
     Enhanced.getAllIssues parseISO_utc utc Enhanced.shipped unit
       Sample.oneIssueSearch Sample.changelogBusy Sample.frozenClock
       Sample.instantTimer 1 Sample.emptyWorld in
   let run :=
     Enhanced.main parseISO_utc utc Enhanced.shipped unit
       Sample.oneIssueSearch Sample.changelogBusy Sample.frozenClock
       Sample.instantTimer 1 Sample.emptyWorld in
   (exists err, fst fetched = Threw err
                /\ Enhanced.transient (Enhanced.statusOf err) = true)
   /\ (exists before tail,
         [ Request (SearchJql None);
           Request r; Sleep 2000; Request r; Sleep 2000; Request r; Sleep 2000;
           Request r ]
         = (before ++ tail)%list
         /\ ~ In (Request r) before
         /\ requests tail = repeat r 4
         /\ List.length (delays tail) = 3%nat)
   /\ run = (Returned tt, snd fetched)
   /\ writes (events (snd run)) = writes (events Sample.emptyWorld))
  /\
  (let r := ChangelogPage "MIS-1" 0 in
   let fetched :=
     Enhanced.getAllIssues parseISO_utc utc Enhanced.shipped unit
       Sample.oneIssueSearch Sample.changelogDown Sample.frozenClock
       Sample.instantTimer 1 Sample.emptyWorld in
   let run :=
     Enhanced.main parseISO_utc utc Enhanced.shipped unit
       Sample.oneIssueSearch Sample.changelogDown Sample.frozenClock
       Sample.instantTimer 1 Sample.emptyWorld in
   (exists err, fst fetched = Threw err
                /\ Enhanced.transient (Enhanced.statusOf err) = true)
   /\ (exists before,
         [ Request (SearchJql None);
           Request r; Sleep 500; Request r; Sleep 1000; Request r; Sleep 2000;
           Request r ]
         = (before ++ Enhanced.exhausted r 500 0 3)%list
         /\ ~ In (Request r) before)
   /\ run = (Returned tt, snd fetched)
   /\ writes (events (snd run)) = writes (events Sample.emptyWorld)).
Proof.
  split; [|split].
  - refine (proj1 backoff_nondecreasing_and_ceiling_aborts unit
              Sample.instantTimer Enhanced.searchData (Sample.searchDown None)
              (SearchJql None) 3%nat 500 Sample.emptyWorld _ _).
    + discriminate.
    + intros e status header H. cbn in H. congruence.
  - refine (proj1 (proj2 backoff_nondecreasing_and_ceiling_aborts)
              parseISO_utc utc Enhanced.shipped unit Sample.oneIssueSearch
              Sample.changelogBusy Sample.frozenClock Sample.instantTimer
              1%nat Sample.emptyWorld (ChangelogPage "MIS-1" 0) _ _ _ _).
    + intros e. eexists. split; reflexivity.
    + reflexivity.
    + right. left. reflexivity.
  - refine (proj1 (proj2 (proj2 backoff_nondecreasing_and_ceiling_aborts))
              parseISO_utc utc Enhanced.shipped unit Sample.oneIssueSearch
              Sample.changelogDown Sample.frozenClock Sample.instantTimer
              1%nat Sample.emptyWorld (ChangelogPage "MIS-1" 0) _ _ _ _).
    + intros e. exists 503. split; reflexivity.
    + reflexivity.
    + right. left. reflexivity.
Defined.

(** Processing a list of issues is processing its first part and then
    the rest. *)
Lemma Enhanced_processIssues_app parseISO tz cfg E changelogOf readClock elapse
    fuel (pre post : list Enhanced.issue) :
  forall results (w : world E),
    Enhanced.processIssues parseISO tz cfg E changelogOf readClock elapse fuel
      (pre ++ post) results w
    = match Enhanced.processIssues parseISO tz cfg E changelogOf readClock
              elapse fuel pre results w with
      | (Returned results1, w1) =>
          Enhanced.processIssues parseISO tz cfg E changelogOf readClock elapse
            fuel post results1 w1
      | (Threw err, w1) => (Threw err, w1)
      | (Unfinished, w1) => (Unfinished, w1)
      end.
Proof.
  induction pre as [|issue pre IH]; intros results w; [reflexivity|].
  cbn [app Enhanced.processIssues]. unfold bind.
  destruct (Enhanced.fetchIssueChangelog E changelogOf elapse fuel
              (Enhanced.key issue) w) as [[histories|err|] w1]; try reflexivity.
  unfold newDate. destruct (readClock (env w1)) as [now e']. apply IH.
Qed.

(** C8.  In both revisions, a run in which fetching the issues or a
    changelog ends with an error ends normally without writing anything.
    (1, 2) The only write of a run is the one that follows a successful end
    of [getAllIssues], with the CSV text of all its results, and
    [getAllIssues] itself never writes.  (3) In the enhanced revision,
    whatever request, to the search endpoint or to the changelog of an
    issue, the tracker refuses: once the run sends it, [getAllIssues]
    throws, all it has logged are requests and waits, and [main] ends
    normally there without a file.  (4) The same holds of src/index.js and
    its search requests, on whatever page.  (5) Whatever the tracker does
    at other times: in whatever state the loop of [getAllIssues] is, an
    error thrown by the fetch of the page is thrown by the loop, and so is
    an error thrown by the fetch of the changelog of any issue of the page
    once the issues before it have been processed; when the page has been
    processed and names a next page, the loop goes on as it does from
    there.  (6) An error thrown by the wrapped request of a page of a
    changelog is thrown by the fetch of the changelog.  (7) In
    src/index.js an error thrown by the fetch of a page, in whatever state
    the loop is, is thrown by the loop. *)
Theorem no_csv_unless_all_issues_fetched :
  (forall parseISO tz cfg E searchJql changelogOf readClock elapse fuel
          (w : world E),
     let fetched :=
       Enhanced.getAllIssues parseISO tz cfg E searchJql changelogOf readClock
         elapse fuel w in
     let run :=
       Enhanced.main parseISO tz cfg E searchJql changelogOf readClock elapse
         fuel w in
     writes (events (snd fetched)) = writes (events w)
     /\ match fst fetched with
        | Returned results =>
            fst run = Returned tt /\
            writes (events (snd run)) =
              (writes (events w) ++ [(csvFile, Enhanced.csv cfg results)])%list
        | Threw _ =>
            fst run = Returned tt /\
            writes (events (snd run)) = writes (events w)
        | Unfinished =>
            fst run = Unfinished /\
            writes (events (snd run)) = writes (events w)
        end)
  /\
  (forall parseISO tz cfg E search readClock fuel (w : world E),
     let fetched := Legacy.getAllIssues parseISO tz cfg E search readClock fuel w in
     let run := Legacy.main parseISO tz cfg E search readClock fuel w in
     writes (events (snd fetched)) = writes (events w)
     /\ match fst fetched with
        | Returned results =>
            fst run = Returned tt /\
            writes (events (snd run)) =
              (writes (events w) ++ [(csvFile, Legacy.csvData cfg results)])%list
        | Threw _ =>
            fst run = Returned tt /\
            writes (events (snd run)) = writes (events w)
        | Unfinished =>
            fst run = Unfinished /\
            writes (events (snd run)) = writes (events w)
        end)
  /\
  (forall parseISO tz cfg E searchJql changelogOf readClock elapse fuel
          (w : world E) r new,
     Enhanced.refuses searchJql changelogOf r ->
     let fetched :=
       Enhanced.getAllIssues parseISO tz cfg E searchJql changelogOf readClock
         elapse fuel w in
     let run :=
       Enhanced.main parseISO tz cfg E searchJql changelogOf readClock elapse
         fuel w in
     events (snd fetched) = (events w ++ new)%list ->
     In (Request r) new ->
     (exists err, fst fetched = Threw err)
     /\ Forall isTraffic new
     /\ run = (Returned tt, snd fetched)
     /\ writes (events (snd run)) = writes (events w))
  /\
  (forall parseISO tz cfg E search readClock fuel (w : world E) r new,
     Legacy.refuses search r ->
     let fetched := Legacy.getAllIssues parseISO tz cfg E search readClock fuel w in
     let run := Legacy.main parseISO tz cfg E search readClock fuel w in
     events (snd fetched) = (events w ++ new)%list ->
     In (Request r) new ->
     (exists err, fst fetched = Threw err)
     /\ Forall isRequest new
     /\ run = (Returned tt, snd fetched)
     /\ writes (events (snd run)) = writes (events w))
  /\
  (forall parseISO tz cfg E searchJql changelogOf readClock elapse fuel budget
          token results (w : world E),
     let loop :=
       Enhanced.getAllIssuesFrom parseISO tz cfg E searchJql changelogOf
         readClock elapse fuel in
     let processIssues :=
       Enhanced.processIssues parseISO tz cfg E changelogOf readClock elapse
         fuel in
     match Enhanced.fetchIssues E searchJql elapse token w with
     | (Threw err, w1) => loop (S budget) token results w = (Threw err, w1)
     | (Returned data, w1) =>
         (forall pre issue rest results1 w2 err w3,
            Enhanced.issues data = (pre ++ issue :: rest)%list ->
            processIssues pre results w1 = (Returned results1, w2) ->
            Enhanced.fetchIssueChangelog E changelogOf elapse fuel
              (Enhanced.key issue) w2 = (Threw err, w3) ->
            loop (S budget) token results w = (Threw err, w3))
         /\
         (forall results1 w2 next,
            processIssues (Enhanced.issues data) results w1
            = (Returned results1, w2) ->
            (if Enhanced.isLast data then None
             else Enhanced.tokenOrNull (Enhanced.nextPageToken_ data))
            = Some next ->
            loop (S budget) token results w
            = loop budget (Some next) results1 w2)
     | (Unfinished, w1) => loop (S budget) token results w = (Unfinished, w1)
     end)
  /\
  (forall E changelogOf elapse fuel issueKey startAt histories (w : world E)
          err w1,
     Enhanced.withRetry E elapse
       (http (changelogOf issueKey startAt) (ChangelogPage issueKey startAt)) w
     = (Threw err, w1) ->
     Enhanced.fetchIssueChangelogFrom E changelogOf elapse (S fuel) issueKey
       startAt histories w
     = (Threw err, w1))
  /\
  (forall parseISO tz cfg E search readClock fuel startAt results (w : world E)
          err w1,
     Legacy.fetchIssues E search startAt w = (Threw err, w1) ->
     Legacy.getAllIssuesFrom parseISO tz cfg E search readClock (S fuel) startAt
       results w
     = (Threw err, w1)).
Proof.
  split; [|split; [|split; [|split; [|split; [|split]]]]].
  - intros parseISO tz cfg E searchJql changelogOf readClock elapse fuel w
           fetched run.
    destruct (Enhanced_main_cases parseISO tz cfg E searchJql changelogOf
                readClock elapse fuel w) as [Hrun Hsilent].
    fold fetched in Hrun, Hsilent. fold run in Hrun.
    split; [exact Hsilent|].
    destruct fetched as [[results|e|] w1]; cbn [fst snd] in *; rewrite Hrun;
      cbn [fst snd events]; rewrite ?writes_app, ?Hsilent; auto.
  - intros parseISO tz cfg E search readClock fuel w fetched run.
    destruct (Legacy_main_cases parseISO tz cfg E search readClock fuel w)
      as [Hrun Hsilent].
    fold fetched in Hrun, Hsilent. fold run in Hrun.
    split; [exact Hsilent|].
    destruct fetched as [[results|e|] w1]; cbn [fst snd] in *; rewrite Hrun;
      cbn [fst snd events]; rewrite ?writes_app, ?Hsilent; auto.
  - intros parseISO tz cfg E searchJql changelogOf readClock elapse fuel w r new
           Href fetched run Hev Hin.
    destruct (stopsAt_sent r isTraffic _ _ w new
                (Enhanced_refused_stops parseISO tz cfg E searchJql
                   changelogOf readClock elapse r fuel Href) Hev Hin)
      as (Hkind & before & tail & err & _ & _ & Hthrew & _).
    fold fetched in Hthrew.
    destruct (Enhanced_main_cases parseISO tz cfg E searchJql changelogOf
                readClock elapse fuel w) as [Hrun Hsilent].
    fold fetched in Hrun, Hsilent. fold run in Hrun.
    destruct fetched as [out w1]. cbn [fst snd] in *. subst out.
    split; [eauto|]. split; [exact Hkind|]. split; [exact Hrun|].
    rewrite Hrun. exact Hsilent.
  - intros parseISO tz cfg E search readClock fuel w r new Href fetched run
           Hev Hin.
    destruct (stopsAt_sent r isRequest _ _ w new
                (stopsAt_Legacy_getAllIssuesFrom parseISO tz cfg E search
                   readClock r Href fuel 0 []) Hev Hin)
      as (Hkind & before & tail & err & _ & _ & Hthrew & _).
    fold (Legacy.getAllIssues parseISO tz cfg E search readClock fuel w)
      in Hthrew.
    fold fetched in Hthrew.
    destruct (Legacy_main_cases parseISO tz cfg E search readClock fuel w)
      as [Hrun Hsilent].
    fold fetched in Hrun, Hsilent. fold run in Hrun.
    destruct fetched as [out w1]. cbn [fst snd] in *. subst out.
    split; [eauto|]. split; [exact Hkind|]. split; [exact Hrun|].
    rewrite Hrun. exact Hsilent.
  - intros parseISO tz cfg E searchJql changelogOf readClock elapse fuel budget
           token results w loop processIssues. subst loop processIssues.
    cbn [Enhanced.getAllIssuesFrom]. unfold bind.
    destruct (Enhanced.fetchIssues E searchJql elapse token w)
      as [[data|err|] w1]; try reflexivity.
    cbv zeta. split.
    + intros pre issue rest results1 w2 err w3 Hpage Hpre Hlog.
      rewrite Hpage, Enhanced_processIssues_app, Hpre.
      cbn [Enhanced.processIssues]. unfold bind. rewrite Hlog. reflexivity.
    + intros results1 w2 next Hdone Hnext. rewrite Hdone, Hnext. reflexivity.
  - intros E changelogOf elapse fuel issueKey startAt histories w err w1 Hpage.
    cbn [Enhanced.fetchIssueChangelogFrom]. unfold bind. rewrite Hpage.
    reflexivity.
  - intros parseISO tz cfg E search readClock fuel startAt results w err w1
           Hpage.
    cbn [Legacy.getAllIssuesFrom]. unfold bind. rewrite Hpage. reflexivity.
Qed.

(** The theorem at two trackers of [Sample]: one serves an issue and
    answers no changelog request, the other serves the first page of sixty
    issues and fails on the second.  Neither run writes a file. *)
Lemma no_csv_unless_all_issues_fetched_witness :
  (let fetched :=
     Enhanced.getAllIssues parseISO_utc utc Enhanced.shipped unit
       Sample.oneIssueSearch Sample.noChangelog Sample.frozenClock
       Sample.instantTimer 1 Sample.emptyWorld in
   let run :=
     Enhanced.main parseISO_utc utc Enhanced.shipped unit
       Sample.oneIssueSearch Sample.noChangelog Sample.frozenClock
       Sample.instantTimer 1 Sample.emptyWorld in
   (exists err, fst fetched = Threw err)
   /\ Forall isTraffic
        [Request (SearchJql None); Request (ChangelogPage "MIS-1" 0)]
   /\ run = (Returned tt, snd fetched)
   /\ writes (events (snd run)) = writes (events Sample.emptyWorld))
  /\
  (let fetched :=
     Legacy.getAllIssues parseISO_utc utc Legacy.shipped unit
       Sample.secondPageFails Sample.frozenClock 2 Sample.emptyWorld in
   let run :=
     Legacy.main parseISO_utc utc Legacy.shipped unit
       Sample.secondPageFails Sample.frozenClock 2 Sample.emptyWorld in
   (exists err, fst fetched = Threw err)
   /\ Forall isRequest [Request (SearchV2 0); Request (SearchV2 50)]
   /\ run = (Returned tt, snd fetched)
   /\ writes (events (snd run)) = writes (events Sample.emptyWorld)).
Proof.
  split.
  - refine (proj1 (proj2 (proj2 no_csv_unless_all_issues_fetched))
              parseISO_utc utc Enhanced.shipped unit Sample.oneIssueSearch
              Sample.noChangelog Sample.frozenClock Sample.instantTimer
              1%nat Sample.emptyWorld (ChangelogPage "MIS-1" 0) _ _ _ _).
    + intros e. exists NetworkError. reflexivity.
    + reflexivity.
    + right. left. reflexivity.
  - refine (proj1 (proj2 (proj2 (proj2 no_csv_unless_all_issues_fetched)))
              parseISO_utc utc Legacy.shipped unit Sample.secondPageFails
              Sample.frozenClock 2%nat Sample.emptyWorld (SearchV2 50) _ _ _ _).
    + intros e. exists NetworkError. reflexivity.
    + vm_compute. reflexivity.
    + right. left. reflexivity.
Defined.

End RunFacts.

(* ================================================================== *)
(** * Properties of the pagination loops *)
(* ================================================================== *)

Module PagingFacts.
Import Changelog Tracker World Service.
Local Open Scope run_scope.

(** ** Counting pages *)

Lemma ceilDiv_gt (total size k : nat) :
  (0 < size)%nat -> ((k < ceilDiv total size)%nat <-> (size * k < total)%nat).
Proof.
  intros Hs. unfold ceilDiv. split; intros H.
  - destruct (Nat.lt_ge_cases (size * k) total) as [|Hge]; [assumption|].
    exfalso. apply (Nat.lt_irrefl k). eapply Nat.lt_le_trans; [exact H|].
    apply Nat.lt_succ_r. apply Nat.Div0.div_lt_upper_bound. nia.
  - apply Nat.lt_le_trans with (m := S k); [lia|].
    apply Nat.div_le_lower_bound; [lia|]. nia.
Qed.

Lemma next_page_iff (total size i : nat) :
  (0 < size)%nat ->
  ((S i < pageCount total size)%nat <-> (size * S i < total)%nat).
Proof.
  intros Hs. unfold pageCount. rewrite <- (ceilDiv_gt total size (S i) Hs). lia.
Qed.

Lemma pageCount_le (total size : nat) :
  (0 < size)%nat -> (pageCount total size <= S total)%nat.
Proof.
  intros Hs. unfold pageCount.
  destruct (Nat.le_gt_cases (ceilDiv total size) total) as [|Hgt]; [lia|].
  apply ceilDiv_gt in Hgt; [nia|assumption].
Qed.

Lemma firstn_add {A} (l : list A) (a b : nat) :
  firstn (a + b) l = (firstn a l ++ firstn b (skipn a l))%list.
Proof.
  revert l. induction a as [|a IH]; intros l; [reflexivity|].
  destruct l as [|x l]; cbn [Nat.add firstn skipn app].
  - rewrite firstn_nil. reflexivity.
  - rewrite IH. reflexivity.
Qed.

Lemma seq_cons (i n : nat) : seq i (S n) = i :: seq (S i) n.
Proof. reflexivity. Qed.

(** ** The changelog loop of the enhanced revision *)

Section ChangelogLoop.
Variable E : Type.
Variable elapse : Z -> E -> E.

Lemma withRetry_answered {A} (respond : E -> (error + A) * E) (r : request)
    (w : world E) (data : A) (e' : E) :
  respond (env w) = (inr data, e') ->
  Enhanced.withRetry E elapse (http respond r) w =
  (Returned data, mkWorld e' (events w ++ [Request r])).
Proof.
  intros H. unfold Enhanced.withRetry, Enhanced.withRetryWith.
  cbn [Enhanced.withRetryFrom]. unfold http. rewrite H. reflexivity.
Qed.

Variable limit : positive.
Variable reportsIsLast : bool.
Variable log : string -> list history.
Variable issueKey : string.

Local Abbreviation all := (log issueKey).
Local Abbreviation size := (Nat.min 100 (Pos.to_nat limit)).
Local Abbreviation pages := (pageCount (List.length all) size).

Lemma size_pos : (0 < size)%nat.
Proof. lia. Qed.

Local Abbreviation loop :=
  (Enhanced.fetchIssueChangelogFrom E (changelogPages E limit reportsIsLast log)
     elapse).

Lemma changelog_loop_from :
  forall fuel i w,
    (pages - i <= fuel)%nat -> (i < pages)%nat ->
    loop fuel issueKey (Z.of_nat (size * i)) (firstn (size * i) all) w =
    (Returned all,
     mkWorld (env w)
       (events w ++
        map (fun j => Request (ChangelogPage issueKey (Z.of_nat (size * j))))
            (seq i (pages - i)))).
Proof.
  pose proof size_pos as Hs.
  induction fuel as [|fuel IH]; intros i w Hfuel Hi; [lia|].
  cbn [Enhanced.fetchIssueChangelogFrom]. unfold bind.
  erewrite withRetry_answered by reflexivity.
  cbv zeta. cbn [Enhanced.values Enhanced.maxResults Enhanced.total
                 Enhanced.isLastPage].
  rewrite Nat2Z.id.
  rewrite <- firstn_add.
  replace (size * i + size)%nat with (size * S i)%nat by lia.
  set (values := firstn size (skipn (size * i) all)).
  assert (Hlen : List.length values = Nat.min size (List.length all - size * i)).
  { subst values. rewrite length_firstn, length_skipn. reflexivity. }
  replace (pages - i)%nat with (S (pages - S i)) by lia.
  rewrite seq_cons. cbn [map].
  destruct (Nat.lt_ge_cases (S i) pages) as [Hmore|Hlast].
  - (* another page follows *)
    pose proof (proj1 (next_page_iff (List.length all) size i Hs) Hmore) as Hlt.
    assert (Hnot : (if reportsIsLast
                    then Some (Z.of_nat (List.length all)
                               <=? Z.of_nat (size * i) + Z.of_nat (List.length values))
                    else None) = Some false
                   \/ reportsIsLast = false).
    { destruct reportsIsLast; [left|right; reflexivity].
      f_equal. apply Z.leb_gt. rewrite Hlen. lia. }
    assert (Hcomputed : (Z.of_nat (List.length all)
                         <=? Z.of_nat (size * i) + Z.of_nat size) = false)
      by (apply Z.leb_gt; lia).
    assert (Hstep : Z.of_nat (size * i)
                    + (if Z.of_nat size =? 0 then 100 else Z.of_nat size)
                    = Z.of_nat (size * S i)).
    { destruct (Z.eqb_spec (Z.of_nat size) 0); lia. }
    destruct Hnot as [-> | ->]; rewrite ?Hcomputed, Hstep, IH by lia;
      cbn [env events]; rewrite <- app_assoc; reflexivity.
  - (* this is the last page *)
    assert (Hall : (List.length all <= size * S i)%nat).
    { destruct (Nat.le_gt_cases (List.length all) (size * S i)) as [|Hgt];
        [assumption|].
      apply (next_page_iff (List.length all) size i Hs) in Hgt.
      lia. }
    assert (Hin : (size * i <= List.length all)%nat).
    { destruct i as [|i]; [lia|].
      assert (Hp : (S i < pages)%nat) by lia.
      apply (next_page_iff (List.length all) size i Hs) in Hp. lia. }
    assert (Hyes : (if reportsIsLast
                    then Some (Z.of_nat (List.length all)
                               <=? Z.of_nat (size * i) + Z.of_nat (List.length values))
                    else None) = Some true
                   \/ reportsIsLast = false).
    { destruct reportsIsLast; [left|right; reflexivity].
      f_equal. apply Z.leb_le. rewrite Hlen. lia. }
    assert (Hcomputed : (Z.of_nat (List.length all)
                         <=? Z.of_nat (size * i) + Z.of_nat size) = true)
      by (apply Z.leb_le; lia).
    replace (pages - S i)%nat with 0%nat by lia. cbn [seq map].
    destruct Hyes as [-> | ->]; rewrite ?Hcomputed; unfold ret;
      rewrite firstn_all2 by exact Hall; reflexivity.
Qed.

(** Against the paging tracker the changelog loop ends, returns the whole
    history, and asks for each of its pages once, in order. *)
Lemma fetchIssueChangelog_pages fuel w :
  (pages <= fuel)%nat ->
  Enhanced.fetchIssueChangelog E (changelogPages E limit reportsIsLast log)
    elapse fuel issueKey w =
  (Returned all,
   mkWorld (env w)
     (events w ++
      map (fun j => Request (ChangelogPage issueKey (Z.of_nat (size * j))))
          (seq 0 pages))).
Proof.
  intros Hfuel. unfold Enhanced.fetchIssueChangelog.
  pose proof (changelog_loop_from fuel 0 w) as H.
  rewrite Nat.mul_0_r, Nat.sub_0_r in H. cbn [firstn Z.of_nat] in H.
  apply H; [exact Hfuel|]. unfold pageCount. lia.
Qed.

End ChangelogLoop.

Lemma Forall_page {A} (P : A -> Prop) (l : list A) (n m : nat) :
  Forall P l -> Forall P (firstn n (skipn m l)).
Proof.
  intros H. apply Forall_forall. intros x Hx.
  rewrite Forall_forall in H. apply H.
  rewrite <- (firstn_skipn m l). apply in_or_app. right.
  rewrite <- (firstn_skipn n (skipn m l)). apply in_or_app. left. exact Hx.
Qed.

Lemma page_then_rest {A} (l : list A) (size i : nat) :
  (firstn size (skipn (size * i) l) ++ skipn (size * S i) l)%list
  = skipn (size * i) l.
Proof.
  replace (size * S i)%nat with (size + size * i)%nat by lia.
  rewrite <- skipn_skipn. apply firstn_skipn.
Qed.

Lemma last_page {A} (l : list A) (size i : nat) :
  (List.length l <= size * S i)%nat ->
  firstn size (skipn (size * i) l) = skipn (size * i) l.
Proof. intros H. apply firstn_all2. rewrite length_skipn. lia. Qed.

(** ** The offset loop of src/index.js *)

Section LegacyLoop.
Variable parseISO : string -> Date.
Variable tz : zone.
Variable cfg : config.
Variable E : Type.
Variable readClock : E -> Z * E.
Variable limit : nat.
Variable all : list Legacy.issue.
Hypothesis full_pages : (50 <= limit)%nat.

Local Abbreviation pages := (pageCount (List.length all) 50).
Local Abbreviation processIssues := (Legacy.processIssues parseISO tz cfg E readClock).
Local Abbreviation loop :=
  (Legacy.getAllIssuesFrom parseISO tz cfg E (searchV2 E limit all) readClock).

Lemma Legacy_processIssues_rows :
  forall issues results w,
    exists rows w',
      processIssues issues results w = (Returned (results ++ rows)%list, w')
      /\ events w' = events w
      /\ map Legacy.Issue_Key rows = map Legacy.key issues.
Proof.
  induction issues as [|issue rest IH]; intros results w.
  - exists [], w. rewrite app_nil_r. repeat split.
  - cbn [Legacy.processIssues]. unfold bind, newDate.
    destruct (readClock (env w)) as [now e'].
    destruct (IH (results ++ [Legacy.issueRow parseISO tz cfg now issue])%list
                 (mkWorld e' (events w))) as (rows & w' & Hrun & Hev & Hkeys).
    exists (Legacy.issueRow parseISO tz cfg now issue :: rows), w'.
    rewrite Hrun, <- app_assoc. repeat split.
    + exact Hev.
    + cbn [map]. rewrite Hkeys. reflexivity.
Qed.

Lemma Legacy_fetchIssues_page (startAt : Z) (w : world E) :
  Legacy.fetchIssues E (searchV2 E limit all) startAt w =
  (Returned {| Legacy.total := Z.of_nat (List.length all);
               Legacy.issues := firstn 50 (skipn (Z.to_nat startAt) all) |},
   mkWorld (env w) (events w ++ [Request (SearchV2 startAt)])).
Proof.
  unfold Legacy.fetchIssues, http, searchV2.
  rewrite (Nat.min_l 50 limit) by exact full_pages. reflexivity.
Qed.

Lemma Legacy_loop_from :
  forall fuel i results w,
    (pages - i <= fuel)%nat -> (i < pages)%nat ->
    exists rows w',
      loop fuel (Z.of_nat (50 * i)) results w
        = (Returned (results ++ rows)%list, w')
      /\ map Legacy.Issue_Key rows = map Legacy.key (skipn (50 * i) all)
      /\ events w' =
         (events w ++
          map (fun j => Request (SearchV2 (Z.of_nat (50 * j))))
              (seq i (pages - i)))%list.
Proof.
  induction fuel as [|fuel IH]; intros i results w Hfuel Hi; [lia|].
  cbn [Legacy.getAllIssuesFrom]. unfold bind at 1.
  rewrite Legacy_fetchIssues_page.
  cbn [Legacy.total Legacy.issues]. cbv zeta.
  rewrite Nat2Z.id.
  unfold bind.
  match goal with
  | |- context [processIssues ?page results ?w1] =>
      destruct (Legacy_processIssues_rows page results w1)
        as (rows1 & w1' & Hrun1 & Hev1 & Hkeys1)
  end.
  rewrite Hrun1. cbn [events] in Hev1.
  replace (Z.of_nat (50 * i) + 50) with (Z.of_nat (50 * S i)) by lia.
  replace (pages - i)%nat with (S (pages - S i)) by lia.
  rewrite seq_cons. cbn [map].
  destruct (Z.ltb_spec (Z.of_nat (50 * S i)) (Z.of_nat (List.length all)))
    as [Hmore|Hlast].
  - assert (Hp : (S i < pages)%nat)
      by (apply next_page_iff; lia).
    destruct (IH (S i) (results ++ rows1)%list w1') as (rows2 & w2 & Hrun2 & Hkeys2 & Hev2);
      [lia|exact Hp|].
    exists (rows1 ++ rows2)%list, w2. rewrite Hrun2, <- app_assoc.
    repeat split.
    + rewrite map_app, Hkeys1, Hkeys2, <- map_app, page_then_rest. reflexivity.
    + rewrite Hev2, Hev1, <- app_assoc. reflexivity.
  - assert (Hp : ~ (S i < pages)%nat).
    { intros Hp. apply next_page_iff in Hp; lia. }
    exists rows1, w1'. unfold ret. repeat split.
    + rewrite Hkeys1, last_page by lia. reflexivity.
    + rewrite Hev1. replace (pages - S i)%nat with 0%nat by lia. reflexivity.
Qed.

(** Against a tracker that serves full pages the loop ends, builds one row
    per issue, in order, and asks for each page once. *)
Lemma Legacy_getAllIssues_pages fuel w :
  (pages <= fuel)%nat ->
  exists rows w',
    Legacy.getAllIssues parseISO tz cfg E (searchV2 E limit all) readClock fuel w
      = (Returned rows, w')
    /\ map Legacy.Issue_Key rows = map Legacy.key all
    /\ events w' =
       (events w ++
        map (fun j => Request (SearchV2 (Z.of_nat (50 * j)))) (seq 0 pages))%list.
Proof.
  intros Hfuel. unfold Legacy.getAllIssues.
  destruct (Legacy_loop_from fuel 0 [] w) as (rows & w' & Hrun & Hkeys & Hev).
  - lia.
  - unfold pageCount. lia.
  - exists rows, w'. rewrite Nat.sub_0_r in Hev. cbn in Hrun. rewrite Hrun.
    repeat split; assumption.
Qed.

End LegacyLoop.

(** ** The token loop of the enhanced revision *)

Lemma offsetOf_pageToken (n : nat) : offsetOf (Some (pageToken n)) = n.
Proof.
  unfold offsetOf, pageToken. rewrite NilEmpty.usu. apply DecimalNat.Unsigned.of_to.
Qed.

Lemma pageToken_nonempty (n : nat) : (0 < n)%nat -> pageToken n <> "".
Proof.
  intros Hn Hempty. pose proof (offsetOf_pageToken n) as H.
  rewrite Hempty in H. cbn in H. lia.
Qed.

Lemma offsetOf_tokenOfPage (size i : nat) :
  offsetOf (tokenOfPage size i) = (size * i)%nat.
Proof.
  destruct i as [|i]; cbn [tokenOfPage].
  - cbn. lia.
  - apply offsetOf_pageToken.
Qed.

Lemma tokenOrNull_pageToken (n : nat) :
  (0 < n)%nat ->
  Enhanced.tokenOrNull (Some (pageToken n)) = Some (pageToken n).
Proof.
  intros Hn. unfold Enhanced.tokenOrNull.
  destruct (String.eqb_spec (pageToken n) ""); [|reflexivity].
  exfalso. eapply pageToken_nonempty; eassumption.
Qed.

Lemma tokenOrNull_tokenOfPage (size i : nat) :
  (0 < size)%nat ->
  Enhanced.tokenOrNull (tokenOfPage size i) = tokenOfPage size i.
Proof.
  intros Hs. destruct i as [|i]; [reflexivity|].
  apply tokenOrNull_pageToken. nia.
Qed.

Lemma tokenOfPage_injective (size : nat) :
  (0 < size)%nat -> forall i j, tokenOfPage size i = tokenOfPage size j -> i = j.
Proof.
  intros Hs i j H. apply (f_equal offsetOf) in H.
  rewrite !offsetOf_tokenOfPage in H. nia.
Qed.

Lemma tokensRequested_app (a b : list event) :
  tokensRequested (a ++ b) = (tokensRequested a ++ tokensRequested b)%list.
Proof. apply flat_map_app. Qed.

Lemma tokensRequested_changelog (issueKey : string) (f : nat -> Z) (l : list nat) :
  tokensRequested (map (fun j => Request (ChangelogPage issueKey (f j))) l) = [].
Proof. induction l as [|x l IH]; [reflexivity|exact IH]. Qed.

Section TokenLoop.
Variable parseISO : string -> Date.
Variable tz : zone.
Variable cfg : config.
Variable E : Type.
Variable readClock : E -> Z * E.
Variable elapse : Z -> E -> E.
Variables searchLimit changelogLimit : positive.
Variable reportsIsLast : bool.
Variable all : list Enhanced.issue.
Variable log : string -> list history.
Variable fuel : nat.
Hypothesis fuel_enough :
  Forall (fun issue => (List.length (log (Enhanced.key issue)) < fuel)%nat) all.

Local Abbreviation size := (Nat.min 50 (Pos.to_nat searchLimit)).
Local Abbreviation pages := (pageCount (List.length all) size).
Local Abbreviation changelogOf := (changelogPages E changelogLimit reportsIsLast log).
Local Abbreviation processIssues :=
  (Enhanced.processIssues parseISO tz cfg E changelogOf readClock elapse).
Local Abbreviation loop :=
  (Enhanced.getAllIssuesFrom parseISO tz cfg E (searchJqlPages E searchLimit all)
     changelogOf readClock elapse).
Local Abbreviation status2TimeOf :=
  (fun issue : Enhanced.issue =>
     snd (extract (status1 cfg) (status2 cfg) (log (Enhanced.key issue)))).

Lemma Enhanced_processIssues_rows :
  forall issues results w,
    Forall (fun issue => (List.length (log (Enhanced.key issue)) < fuel)%nat)
           issues ->
    exists rows w',
      processIssues fuel issues results w = (Returned (results ++ rows)%list, w')
      /\ tokensRequested (events w') = tokensRequested (events w)
      /\ map Enhanced.Issue_Key rows = map Enhanced.key issues
      /\ map Enhanced.Status2_Time rows = map status2TimeOf issues.
Proof.
  induction issues as [|issue rest IH]; intros results w Hfuel.
  - exists [], w. rewrite app_nil_r. repeat split.
  - inversion Hfuel as [|? ? Hissue Hrest]; subst.
    cbn [Enhanced.processIssues]. unfold bind at 1.
    rewrite fetchIssueChangelog_pages.
    2:{ eapply Nat.le_trans; [apply pageCount_le; lia|]. exact Hissue. }
    unfold bind, newDate. cbn [env events].
    destruct (readClock (env w)) as [now e'].
    match goal with
    | |- context [processIssues fuel rest ?rs ?w1] =>
        destruct (IH rs w1 Hrest) as (rows & w' & Hrun & Htok & Hkeys & Htimes)
    end.
    match goal with
    | |- context [processIssues fuel rest (results ++ [?row]) _] =>
        exists (row :: rows), w'
    end.
    rewrite Hrun, <- app_assoc. repeat split.
    + rewrite Htok. cbn [events].
      rewrite tokensRequested_app, tokensRequested_changelog, app_nil_r.
      reflexivity.
    + cbn [map]. rewrite Hkeys. reflexivity.
    + cbn [map]. rewrite Htimes. reflexivity.
Qed.

Lemma Enhanced_fetchIssues_page (i : nat) (w : world E) :
  Enhanced.fetchIssues E (searchJqlPages E searchLimit all) elapse
    (tokenOfPage size i) w =
  (Returned
     {| Enhanced.issues := firstn size (skipn (size * i) all);
        Enhanced.isLast := (List.length all <=? size * i + size)%nat;
        Enhanced.nextPageToken_ :=
          if (List.length all <=? size * i + size)%nat then None
          else Some (pageToken (size * i + size)) |},
   mkWorld (env w) (events w ++ [Request (SearchJql (tokenOfPage size i))])).
Proof.
  unfold Enhanced.fetchIssues.
  rewrite tokenOrNull_tokenOfPage by lia.
  erewrite withRetry_answered by reflexivity.
  unfold searchJqlPages. rewrite offsetOf_tokenOfPage. reflexivity.
Qed.

Lemma Enhanced_loop_from :
  forall budget i results w,
    (pages - i <= budget)%nat -> (i < pages)%nat ->
    exists rows w',
      loop fuel budget (tokenOfPage size i) results w
        = (Returned (results ++ rows)%list, w')
      /\ map Enhanced.Issue_Key rows = map Enhanced.key (skipn (size * i) all)
      /\ map Enhanced.Status2_Time rows = map status2TimeOf (skipn (size * i) all)
      /\ tokensRequested (events w') =
         (tokensRequested (events w) ++ map (tokenOfPage size) (seq i (pages - i)))%list.
Proof.
  assert (Hs : (0 < size)%nat) by lia.
  induction budget as [|budget IH]; intros i results w Hbudget Hi; [lia|].
  cbn [Enhanced.getAllIssuesFrom]. unfold bind at 1.
  rewrite Enhanced_fetchIssues_page.
  cbn [Enhanced.issues Enhanced.isLast Enhanced.nextPageToken_]. cbv zeta.
  unfold bind.
  match goal with
  | |- context [processIssues fuel ?page results ?w1] =>
      destruct (Enhanced_processIssues_rows page results w1)
        as (rows1 & w1' & Hrun1 & Htok1 & Hkeys1 & Htimes1);
        [apply Forall_page, fuel_enough|]
  end.
  rewrite Hrun1. cbn [events] in Htok1.
  rewrite tokensRequested_app in Htok1. cbn [tokensRequested flat_map app] in Htok1.
  replace (size * i + size)%nat with (size * S i)%nat by lia.
  replace (pages - i)%nat with (S (pages - S i)) by lia.
  rewrite seq_cons. cbn [map].
  destruct (Nat.leb_spec (List.length all) (size * S i)) as [Hlast|Hmore].
  - assert (Hp : ~ (S i < pages)%nat).
    { intros Hp. apply next_page_iff in Hp; lia. }
    exists rows1, w1'. unfold ret. repeat split.
    + rewrite Hkeys1, last_page by lia. reflexivity.
    + rewrite Htimes1, last_page by lia. reflexivity.
    + rewrite Htok1. replace (pages - S i)%nat with 0%nat by lia. reflexivity.
  - assert (Hp : (S i < pages)%nat) by (apply next_page_iff; lia).
    rewrite tokenOrNull_pageToken by nia.
    change (Some (pageToken (size * S i))) with (tokenOfPage size (S i)).
    destruct (IH (S i) (results ++ rows1)%list w1')
      as (rows2 & w2 & Hrun2 & Hkeys2 & Htimes2 & Htok2); [lia|exact Hp|].
    exists (rows1 ++ rows2)%list, w2. rewrite Hrun2, <- app_assoc.
    repeat split.
    + rewrite map_app, Hkeys1, Hkeys2, <- map_app, page_then_rest. reflexivity.
    + rewrite map_app, Htimes1, Htimes2, <- map_app, page_then_rest. reflexivity.
    + rewrite Htok2, Htok1, <- app_assoc. reflexivity.
Qed.

End TokenLoop.

Lemma requests_of_map (f : nat -> request) (l : list nat) :
  requests (map (fun j => Request (f j)) l) = map f l.
Proof. induction l as [|x l IH]; [reflexivity|]. cbn. f_equal. exact IH. Qed.

Lemma NoDup_pages {B} (f : nat -> B) (n : nat) :
  (forall i j, f i = f j -> i = j) -> NoDup (map f (seq 0 n)).
Proof.
  intros Hinj. apply NoDup_map_NoDup_ForallPairs; [|apply seq_NoDup].
  intros i j _ _. apply Hinj.
Qed.

(** C5, as the code has it.  Against a tracker that serves consecutive
    pages, each of the three loops ends after max(1, ceil(total / size))
    requests, one per page and none twice, and what it gathers is every item
    once, in order.  For the changelog loop and the token loop of the
    enhanced revision [size] is the page size the tracker applies, which may
    be smaller than the one requested; for the offset loop of src/index.js
    this is stated for a tracker that serves the 50 issues requested. *)
Theorem pagination_visits_every_page_once :
  (forall parseISO tz cfg E readClock limit (all : list Legacy.issue) extra
          (w : world E),
     (50 <= limit)%nat ->
     let pages := pageCount (List.length all) 50 in
     let run :=
       Legacy.getAllIssues parseISO tz cfg E (searchV2 E limit all) readClock
         (pages + extra) w in
     exists rows,
       fst run = Returned rows
       /\ map Legacy.Issue_Key rows = map Legacy.key all
       /\ requests (events (snd run)) =
          (requests (events w)
           ++ map (fun j => SearchV2 (Z.of_nat (50 * j))) (seq 0 pages))%list
       /\ NoDup (map (fun j => SearchV2 (Z.of_nat (50 * j))) (seq 0 pages)))
  /\
  (forall E elapse limit reportsIsLast log issueKey extra (w : world E),
     let size := Nat.min 100 (Pos.to_nat limit) in
     let pages := pageCount (List.length (log issueKey)) size in
     let run :=
       Enhanced.fetchIssueChangelog E
         (changelogPages E limit reportsIsLast log) elapse (pages + extra)
         issueKey w in
     fst run = Returned (log issueKey)
     /\ requests (events (snd run)) =
        (requests (events w)
         ++ map (fun j => ChangelogPage issueKey (Z.of_nat (size * j)))
                (seq 0 pages))%list
     /\ NoDup (map (fun j => ChangelogPage issueKey (Z.of_nat (size * j)))
                   (seq 0 pages)))
  /\
  (forall parseISO tz cfg E readClock elapse searchLimit changelogLimit
          reportsIsLast (all : list Enhanced.issue) log extra (w : world E),
     let size := Nat.min 50 (Pos.to_nat searchLimit) in
     let pages := pageCount (List.length all) size in
     let run :=
       Enhanced.getAllIssues parseISO tz cfg E (searchJqlPages E searchLimit all)
         (changelogPages E changelogLimit reportsIsLast log) readClock elapse
         (enoughFuel all log + extra) w in
     exists rows,
       fst run = Returned rows
       /\ map Enhanced.Issue_Key rows = map Enhanced.key all
       /\ map Enhanced.Status2_Time rows =
          map (fun issue =>
                 snd (extract (status1 cfg) (status2 cfg)
                        (log (Enhanced.key issue)))) all
       /\ tokensRequested (events (snd run)) =
          (tokensRequested (events w) ++ map (tokenOfPage size) (seq 0 pages))%list
       /\ NoDup (map (tokenOfPage size) (seq 0 pages))).
Proof.
  split; [|split].
  - intros parseISO tz cfg E readClock limit all extra w Hlimit pages run.
    destruct (Legacy_getAllIssues_pages parseISO tz cfg E readClock limit all
                Hlimit (pages + extra) w) as (rows & w' & Hrun & Hkeys & Hev);
      [lia|].
    subst run. rewrite Hrun. cbn [fst snd]. exists rows.
    repeat split; try assumption.
    + rewrite Hev, RunFacts.requests_app, requests_of_map. reflexivity.
    + apply NoDup_pages. intros i j H. injection H. lia.
  - intros E elapse limit reportsIsLast log issueKey extra w size pages run.
    subst run. rewrite fetchIssueChangelog_pages by (subst pages size; lia).
    cbn [fst snd events]. repeat split.
    + rewrite RunFacts.requests_app, requests_of_map. reflexivity.
    + apply NoDup_pages. intros i j H. injection H. subst size. nia.
  - intros parseISO tz cfg E readClock elapse searchLimit changelogLimit
           reportsIsLast all log extra w size pages run.
    assert (Hfuel : Forall (fun issue =>
                      (List.length (log (Enhanced.key issue))
                       < enoughFuel all log + extra)%nat) all).
    { unfold enoughFuel.
      pose proof (proj1 (list_max_le
                    (map (fun i => List.length (log (Enhanced.key i))) all)
                    _) (Nat.le_refl _)) as Hmax.
      rewrite Forall_map in Hmax.
      eapply Forall_impl; [|exact Hmax]. cbv beta. intros issue Hle. lia. }
    destruct (Enhanced_loop_from parseISO tz cfg E readClock elapse searchLimit
                changelogLimit reportsIsLast all log (enoughFuel all log + extra)
                Hfuel (enoughFuel all log + extra) 0 [] w)
      as (rows & w' & Hrun & Hkeys & Htimes & Htok).
    + pose proof (pageCount_le (List.length all) size) as Hp.
      unfold enoughFuel. subst size. lia.
    + unfold pageCount. lia.
    + subst run. unfold Enhanced.getAllIssues.
      cbn [tokenOfPage] in Hrun. rewrite Hrun. cbn [fst snd app].
      rewrite Nat.mul_0_r, Nat.sub_0_r in *. cbn [skipn] in *.
      exists rows. repeat split; try assumption.
      apply NoDup_pages. apply tokenOfPage_injective. subst size. lia.
Qed.

(** The theorem at a tracker with 120 issues that serves 50 per page. *)
Lemma pagination_visits_every_page_once_witness :
  let all := Sample.legacyIssues 120 in
  let pages := pageCount (List.length all) 50 in
  let run :=
    Legacy.getAllIssues parseISO_utc utc Legacy.shipped unit (searchV2 unit 50 all)
      Sample.frozenClock (pages + 0) Sample.emptyWorld in
  exists rows,
    fst run = Returned rows
    /\ map Legacy.Issue_Key rows = map Legacy.key all
    /\ requests (events (snd run)) =
       (requests (events Sample.emptyWorld)
        ++ map (fun j => SearchV2 (Z.of_nat (50 * j))) (seq 0 pages))%list
    /\ NoDup (map (fun j => SearchV2 (Z.of_nat (50 * j))) (seq 0 pages)).
Proof.
  exact (proj1 pagination_visits_every_page_once parseISO_utc utc Legacy.shipped
           unit Sample.frozenClock 50%nat (Sample.legacyIssues 120) 0%nat
           Sample.emptyWorld (le_n 50)).
Defined.

(** C5, as the specification words it, fails when there is nothing to
    fetch: ceil(0 / size) is 0, yet each loop sends one request. *)
Lemma empty_tracker_still_one_request :
  ceilDiv 0 50 = 0%nat
  /\ List.length
       (requests (events (snd
          (Legacy.getAllIssues parseISO_utc utc Legacy.shipped unit
             (searchV2 unit 50 []) Sample.frozenClock 1 Sample.emptyWorld))))
     = 1%nat
  /\ List.length
       (requests (events (snd
          (Enhanced.fetchIssueChangelog unit
             (changelogPages unit 100 true (fun _ => [])) Sample.instantTimer
             1 "MIS-1" Sample.emptyWorld))))
     = 1%nat
  /\ List.length
       (requests (events (snd
          (Enhanced.getAllIssues parseISO_utc utc Enhanced.shipped unit
             (searchJqlPages unit 50 [])
             (changelogPages unit 100 true (fun _ => [])) Sample.frozenClock
             Sample.instantTimer 1 Sample.emptyWorld))))
     = 1%nat.
Proof. repeat split; vm_compute; reflexivity. Qed.

(** The offset loop of src/index.js steps by 50 whatever the tracker
    served: when the tracker serves 20 issues per page, 45 issues yield 20
    rows. *)
Example Legacy_short_pages_skip_issues :
  let run :=
    Legacy.getAllIssues parseISO_utc utc Legacy.shipped unit
      (searchV2 unit 20 (Sample.legacyIssues 45)) Sample.frozenClock 5
      Sample.emptyWorld in
  match fst run with
  | Returned rows =>
      map Legacy.Issue_Key rows
      = map Legacy.key (firstn 20 (Sample.legacyIssues 45))
  | _ => False
  end
  /\ requests (events (snd run)) = [SearchV2 0].
Proof. cbv zeta. split; vm_compute; reflexivity. Qed.

End PagingFacts.

(* ================================================================== *)
(** * Further properties of the per-issue computation *)
(* ================================================================== *)

Module RowFacts.
Import Changelog Tracker Revisions.

(** ** Which entry sets a time *)

Section Scan.
Variables status1 status2 : string.

Lemma scanFrom_usable_fst hs : forall a1 a2,
  truthy a1 = false ->
  match find (entersAt status1) hs with
  | Some h => fst (scanFrom status1 status2 (a1, a2) hs) = Changelog.created h
  | None => truthy (fst (scanFrom status1 status2 (a1, a2) hs)) = false
  end.
Proof.
  induction hs as [|h hs IH]; intros a1 a2 Ha; [exact Ha|].
  change (scanFrom status1 status2 (a1, a2) (h :: hs))
    with (scanFrom status1 status2 (scanHistory status1 status2 (a1, a2) h) hs).
  destruct (scanHistory status1 status2 (a1, a2) h) as [b1 b2] eqn:Hs.
  assert (Hb : b1 = if enters status1 h then Changelog.created h else a1).
  { change b1 with (fst (b1, b2)).
    rewrite <- Hs, ChangelogFacts.scanHistory_fst, Ha. reflexivity. }
  cbn [find]. unfold entersAt at 1.
  destruct (enters status1 h); cbn [andb].
  - subst b1. destruct (truthy (Changelog.created h)) eqn:Hc.
    + apply ChangelogFacts.scanFrom_keeps_fst, Hc.
    + apply IH, Hc.
  - subst b1. apply IH, Ha.
Qed.

Lemma scanFrom_usable_snd hs : forall a1 a2,
  truthy a2 = false ->
  match find (entersAt status2) hs with
  | Some h => snd (scanFrom status1 status2 (a1, a2) hs) = Changelog.created h
  | None => truthy (snd (scanFrom status1 status2 (a1, a2) hs)) = false
  end.
Proof.
  induction hs as [|h hs IH]; intros a1 a2 Ha; [exact Ha|].
  change (scanFrom status1 status2 (a1, a2) (h :: hs))
    with (scanFrom status1 status2 (scanHistory status1 status2 (a1, a2) h) hs).
  destruct (scanHistory status1 status2 (a1, a2) h) as [b1 b2] eqn:Hs.
  assert (Hb : b2 = if enters status2 h then Changelog.created h else a2).
  { change b2 with (snd (b1, b2)).
    rewrite <- Hs, ChangelogFacts.scanHistory_snd, Ha. reflexivity. }
  cbn [find]. unfold entersAt at 1.
  destruct (enters status2 h); cbn [andb].
  - subst b2. destruct (truthy (Changelog.created h)) eqn:Hc.
    + apply ChangelogFacts.scanFrom_keeps_snd, Hc.
    + apply IH, Hc.
  - subst b2. apply IH, Ha.
Qed.

End Scan.

(** X1.  For every history, with or without timestamps on its entries: the
    time recorded for a status is the timestamp of the first entry that both
    enters the status and carries a timestamp; when no entry does, the time
    stays unset (falsy), whatever entries without a timestamp enter the
    status. *)
Theorem extract_first_usable_entry :
  forall (status1 status2 : string) (histories : list history),
    match find (entersAt status1) histories with
    | Some h => fst (extract status1 status2 histories) = Changelog.created h
    | None => truthy (fst (extract status1 status2 histories)) = false
    end
    /\
    match find (entersAt status2) histories with
    | Some h => snd (extract status1 status2 histories) = Changelog.created h
    | None => truthy (snd (extract status1 status2 histories)) = false
    end.
Proof.
  intros s1 s2 hs. split.
  - apply scanFrom_usable_fst. reflexivity.
  - apply scanFrom_usable_snd. reflexivity.
Qed.

(** ** Start time, time spent and backlog *)

Lemma quot_nonneg_iff (x c : Z) : 0 < c -> (0 <= Z.quot x c <-> - c < x).
Proof.
  intros Hc. destruct (Z.le_gt_cases 0 x) as [Hx|Hx].
  - split; [lia|]. intros _. apply Z.quot_pos; lia.
  - replace x with (- (- x)) by lia. rewrite Z.quot_opp_l by lia.
    rewrite Z.quot_div_nonneg by lia.
    pose proof (Z.mul_div_le (- x) c Hc).
    pose proof (Z.mul_succ_div_gt (- x) c Hc).
    pose proof (Z.div_pos (- x) c). nia.
Qed.

(** The time the scan records for status2 is, whenever it is set, the
    first time in status2. *)
Lemma status2Time_reached (status1 status2 : string) (histories : list history) :
  let status2Time := snd (extract status1 status2 histories) in
  truthy status2Time = truthy (firstTimeIn status2 histories)
  /\ (truthy (firstTimeIn status2 histories) = true ->
      status2Time = firstTimeIn status2 histories).
Proof.
  intros status2Time. subst status2Time. unfold firstTimeIn.
  pose proof (scanFrom_usable_snd status1 status2 histories VNull VNull eq_refl)
    as H.
  fold (extract status1 status2 histories) in H.
  destruct (find (entersAt status2) histories) as [h|] eqn:Hf.
  - rewrite H. split; reflexivity.
  - rewrite H. split; [reflexivity|discriminate].
Qed.

Lemma or_else_null (v : value) :
  truthy (or_else v VNull) = truthy v
  /\ (truthy v = true -> or_else v VNull = v).
Proof.
  unfold or_else. destruct (truthy v) eqn:Hv; split.
  - exact Hv.
  - reflexivity.
  - reflexivity.
  - discriminate.
Qed.

Section Shape.
Variable parseISO : string -> Date.
Variable tz : zone.
Variable cfg : config.

(** The start time, once the changelog has been scanned. *)
Lemma startTime_chosen (createdDate : value) (histories : list history) :
  (if negb (useCreatedDate cfg)
      && truthy (fst (extract (status1 cfg) (status2 cfg) histories))
   then fst (extract (status1 cfg) (status2 cfg) histories)
   else if useCreatedDate cfg then createdDate else VNull)
  = if useCreatedDate cfg then createdDate
    else match find (entersAt (status1 cfg)) histories with
         | Some h => Changelog.created h
         | None => VNull
         end.
Proof.
  pose proof (scanFrom_usable_fst (status1 cfg) (status2 cfg) histories
                VNull VNull eq_refl) as H.
  fold (extract (status1 cfg) (status2 cfg) histories) in H.
  destruct (useCreatedDate cfg); cbn [negb andb]; [reflexivity|].
  destruct (find (entersAt (status1 cfg)) histories) as [h|] eqn:Hf.
  - rewrite H. apply find_some in Hf. destruct Hf as [_ Hf].
    unfold entersAt in Hf. apply andb_prop in Hf. destruct Hf as [_ ->].
    reflexivity.
  - rewrite H. reflexivity.
Qed.

(** X2.  The start time of an issue is its created date when
    [useCreatedDate] is set, whatever the changelog holds; otherwise it is
    the timestamp of the first entry that enters status1 and carries a
    timestamp, and it is absent when there is none: the created date is
    then never used. *)
Theorem startTime_created_or_first_status1 :
  (forall now issue histories,
     Enhanced.Start_Time (Enhanced.issueRow parseISO tz cfg now issue histories)
     = if useCreatedDate cfg
       then or_else (created (Enhanced.issueFields issue)) VNull
       else match find (entersAt (status1 cfg)) histories with
            | Some h => Changelog.created h
            | None => VNull
            end)
  /\
  (forall now issue,
     Legacy.Start_Time (Legacy.issueRow parseISO tz cfg now issue)
     = if useCreatedDate cfg
       then created (Legacy.issueFields issue)
       else match find (entersAt (status1 cfg)) (Legacy.changelog issue) with
            | Some h => Changelog.created h
            | None => VNull
            end).
Proof.
  split.
  - intros now issue histories. unfold Enhanced.issueRow.
    cbn [Enhanced.Start_Time]. apply startTime_chosen.
  - intros now issue. unfold Legacy.issueRow.
    cbn [Legacy.Start_Time]. apply startTime_chosen.
Qed.

(** The start time of a row is, whenever it is set, the start time of the
    issue. *)
Lemma Enhanced_start now issue histories :
  let r := Enhanced.issueRow parseISO tz cfg now issue histories in
  let start :=
    startTimeOf cfg (created (Enhanced.issueFields issue)) histories in
  truthy (Enhanced.Start_Time r) = truthy start
  /\ (truthy start = true -> Enhanced.Start_Time r = start).
Proof.
  intros r start. subst r start. unfold Enhanced.issueRow, startTimeOf, firstTimeIn.
  cbn [Enhanced.Start_Time]. rewrite startTime_chosen.
  destruct (useCreatedDate cfg); [apply or_else_null|].
  split; reflexivity.
Qed.

Lemma Legacy_start now issue :
  let r := Legacy.issueRow parseISO tz cfg now issue in
  Legacy.Start_Time r
  = startTimeOf cfg (created (Legacy.issueFields issue)) (Legacy.changelog issue).
Proof.
  intros r. subst r. unfold Legacy.issueRow, startTimeOf, firstTimeIn.
  cbn [Legacy.Start_Time]. apply startTime_chosen.
Qed.

(** The time-spent pair of the enhanced revision, from the two times of
    the row. *)
Lemma Enhanced_timeSpent_by_row now issue histories :
  let r := Enhanced.issueRow parseISO tz cfg now issue histories in
  if presentTime parseISO (Enhanced.Start_Time r)
     && presentTime parseISO (Enhanced.Status2_Time r)
     && withinCutoff parseISO cfg (Enhanced.Status2_Time r)
  then exists t1 t2,
         parse parseISO (Enhanced.Start_Time r) = Some t1
         /\ parse parseISO (Enhanced.Status2_Time r) = Some t2
         /\ Enhanced.Time_Spent_Minutes r
            = Some (Num (Z.quot (t2 - t1) msPerMinute))
         /\ Enhanced.Time_Spent_Days r = Some (Num (fullDays tz t2 t1))
  else Enhanced.Time_Spent_Minutes r = None
       /\ Enhanced.Time_Spent_Days r = None.
Proof.
  intros r. subst r. unfold Enhanced.issueRow, presentTime, withinCutoff.
  cbn [Enhanced.Start_Time Enhanced.Status2_Time Enhanced.Time_Spent_Minutes
       Enhanced.Time_Spent_Days].
  TimingFacts.split_extract. cbn [fst snd].
  set (startTime := if negb (useCreatedDate cfg) && truthy status1Time
                    then status1Time else _).
  destruct (truthy startTime); cbn [andb fst snd]; [|split; reflexivity].
  destruct (truthy status2Time); cbn [andb fst snd];
    [|rewrite andb_false_r; split; reflexivity].
  destruct (parse parseISO startTime) as [t1|],
           (parse parseISO status2Time) as [t2|],
           (parseISO (endDate cfg)) as [te|];
    cbn [isNaN negb andb date_le fst snd]; try (split; reflexivity).
  destruct (t2 <=? te); cbn [fst snd differenceInMinutes differenceInDays];
    [|split; reflexivity].
  exists t1, t2. repeat split; reflexivity.
Qed.

(** The same for src/index.js, which does not test whether the start time
    was read. *)
Lemma Legacy_timeSpent_by_row now issue :
  let r := Legacy.issueRow parseISO tz cfg now issue in
  if presentTime parseISO (Legacy.Start_Time r)
     && presentTime parseISO (Legacy.Status2_Time r)
     && withinCutoff parseISO cfg (Legacy.Status2_Time r)
  then exists t1 t2,
         parse parseISO (Legacy.Start_Time r) = Some t1
         /\ parse parseISO (Legacy.Status2_Time r) = Some t2
         /\ Legacy.Time_Spent_Minutes r
            = Some (Num (Z.quot (t2 - t1) msPerMinute))
         /\ Legacy.Time_Spent_Days r = Some (Num (fullDays tz t2 t1))
  else if truthy (Legacy.Start_Time r)
          && negb (presentTime parseISO (Legacy.Start_Time r))
          && presentTime parseISO (Legacy.Status2_Time r)
          && withinCutoff parseISO cfg (Legacy.Status2_Time r)
       then Legacy.Time_Spent_Minutes r = Some NaN
            /\ Legacy.Time_Spent_Days r = Some NaN
       else Legacy.Time_Spent_Minutes r = None
            /\ Legacy.Time_Spent_Days r = None.
Proof.
  intros r. subst r. unfold Legacy.issueRow, presentTime, withinCutoff.
  cbn [Legacy.Start_Time Legacy.Status2_Time Legacy.Time_Spent_Minutes
       Legacy.Time_Spent_Days].
  TimingFacts.split_extract. cbn [fst snd].
  set (startTime := if negb (useCreatedDate cfg) && truthy status1Time
                    then status1Time else _).
  destruct (truthy startTime); cbn [andb fst snd]; [|split; reflexivity].
  destruct (truthy status2Time); cbn [andb fst snd];
    [|rewrite !andb_false_r; split; reflexivity].
  destruct (parse parseISO startTime) as [t1|],
           (parse parseISO status2Time) as [t2|],
           (parseISO (endDate cfg)) as [te|];
    cbn [isNaN negb andb date_le fst snd]; try (split; reflexivity).
  - destruct (t2 <=? te); cbn [fst snd differenceInMinutes differenceInDays];
      [|split; reflexivity].
    exists t1, t2. repeat split; reflexivity.
  - destruct (t2 <=? te); cbn [fst snd differenceInMinutes differenceInDays];
      split; reflexivity.
Qed.

(** The shape of the time-spent pair of the enhanced revision. *)
Lemma Enhanced_timeSpent_cases now issue histories :
  let r := Enhanced.issueRow parseISO tz cfg now issue histories in
  (Enhanced.Time_Spent_Minutes r = None /\ Enhanced.Time_Spent_Days r = None)
  \/ exists t1 t2 te,
       truthy (Enhanced.Start_Time r) = true
       /\ parse parseISO (Enhanced.Start_Time r) = Some t1
       /\ parse parseISO (Enhanced.Status2_Time r) = Some t2
       /\ parseISO (endDate cfg) = Some te /\ t2 <= te
       /\ Enhanced.Time_Spent_Minutes r = Some (Num (Z.quot (t2 - t1) msPerMinute))
       /\ Enhanced.Time_Spent_Days r = Some (Num (fullDays tz t2 t1)).
Proof.
  intros r. subst r. unfold Enhanced.issueRow.
  cbn [Enhanced.Start_Time Enhanced.Status2_Time Enhanced.Time_Spent_Minutes
       Enhanced.Time_Spent_Days].
  TimingFacts.split_extract. cbn [fst snd].
  set (startTime := if negb (useCreatedDate cfg) && truthy status1Time
                    then status1Time else _).
  destruct (truthy startTime); cbn [andb fst snd]; [|left; split; reflexivity].
  destruct (truthy status2Time); cbn [andb fst snd]; [|left; split; reflexivity].
  destruct (parse parseISO startTime) as [t1|],
           (parse parseISO status2Time) as [t2|],
           (parseISO (endDate cfg)) as [te|];
    cbn [isNaN negb andb date_le fst snd]; try (left; split; reflexivity).
  destruct (Z.leb_spec t2 te);
    cbn [fst snd differenceInMinutes differenceInDays];
    [|left; split; reflexivity].
  right. exists t1, t2, te. repeat split; assumption || reflexivity.
Qed.

(** The shape of the time-spent pair of src/index.js. *)
Lemma Legacy_timeSpent_cases now issue :
  let r := Legacy.issueRow parseISO tz cfg now issue in
  (Legacy.Time_Spent_Minutes r = None /\ Legacy.Time_Spent_Days r = None)
  \/ (Legacy.Time_Spent_Minutes r = Some NaN /\ Legacy.Time_Spent_Days r = Some NaN)
  \/ exists t1 t2 te,
       truthy (Legacy.Start_Time r) = true
       /\ parse parseISO (Legacy.Start_Time r) = Some t1
       /\ parse parseISO (Legacy.Status2_Time r) = Some t2
       /\ parseISO (endDate cfg) = Some te /\ t2 <= te
       /\ Legacy.Time_Spent_Minutes r = Some (Num (Z.quot (t2 - t1) msPerMinute))
       /\ Legacy.Time_Spent_Days r = Some (Num (fullDays tz t2 t1)).
Proof.
  intros r. subst r. unfold Legacy.issueRow.
  cbn [Legacy.Start_Time Legacy.Status2_Time Legacy.Time_Spent_Minutes
       Legacy.Time_Spent_Days].
  TimingFacts.split_extract. cbn [fst snd].
  set (startTime := if negb (useCreatedDate cfg) && truthy status1Time
                    then status1Time else _).
  destruct (truthy startTime); cbn [andb fst snd]; [|left; split; reflexivity].
  destruct (truthy status2Time); cbn [andb fst snd]; [|left; split; reflexivity].
  destruct (parse parseISO startTime) as [t1|],
           (parse parseISO status2Time) as [t2|],
           (parseISO (endDate cfg)) as [te|];
    cbn [isNaN negb andb date_le fst snd]; try (left; split; reflexivity).
  - destruct (Z.leb_spec t2 te);
      cbn [fst snd differenceInMinutes differenceInDays];
      [|left; split; reflexivity].
    right; right. exists t1, t2, te. repeat split; assumption || reflexivity.
  - destruct (Z.leb_spec t2 te);
      cbn [fst snd differenceInMinutes differenceInDays];
      [|left; split; reflexivity].
    right; left. split; reflexivity.
Qed.

(** C2.  The enhanced revision does what the claim says, for every issue
    and changelog: with the start time of the issue (its created date, or
    its first time in status1) and its first time in status2, the two
    metrics are numbers, the truncated difference in minutes and the full
    days, exactly when both times are present (set and read by [parseISO])
    and the status2 time is not later than the end date; in every other
    case both are [null].  src/index.js gives the same numbers in that
    case, but it does not test whether the start time was read: when the
    start time is set and unreadable while the status2 time is present and
    within the cutoff, both of its metrics are [NaN], not absent.  So it is
    for an issue created at the text not-a-date and taken to In Progress on
    2024-01-08: src/index.js stores [NaN] twice where the enhanced
    revision stores [null]. *)
Theorem timeSpent_present_within_cutoff_else_absent :
  (forall now issue histories,
     let r := Enhanced.issueRow parseISO tz cfg now issue histories in
     let start :=
       startTimeOf cfg (created (Enhanced.issueFields issue)) histories in
     let reached := firstTimeIn (status2 cfg) histories in
     if presentTime parseISO start && presentTime parseISO reached
        && withinCutoff parseISO cfg reached
     then exists t1 t2,
            parse parseISO start = Some t1
            /\ parse parseISO reached = Some t2
            /\ Enhanced.Time_Spent_Minutes r
               = Some (Num (Z.quot (t2 - t1) msPerMinute))
            /\ Enhanced.Time_Spent_Days r = Some (Num (fullDays tz t2 t1))
     else Enhanced.Time_Spent_Minutes r = None
          /\ Enhanced.Time_Spent_Days r = None)
  /\
  (forall now issue,
     let r := Legacy.issueRow parseISO tz cfg now issue in
     let start :=
       startTimeOf cfg (created (Legacy.issueFields issue))
         (Legacy.changelog issue) in
     let reached := firstTimeIn (status2 cfg) (Legacy.changelog issue) in
     if presentTime parseISO start && presentTime parseISO reached
        && withinCutoff parseISO cfg reached
     then exists t1 t2,
            parse parseISO start = Some t1
            /\ parse parseISO reached = Some t2
            /\ Legacy.Time_Spent_Minutes r
               = Some (Num (Z.quot (t2 - t1) msPerMinute))
            /\ Legacy.Time_Spent_Days r = Some (Num (fullDays tz t2 t1))
     else if truthy start && negb (presentTime parseISO start)
             && presentTime parseISO reached
             && withinCutoff parseISO cfg reached
          then Legacy.Time_Spent_Minutes r = Some NaN
               /\ Legacy.Time_Spent_Days r = Some NaN
          else Legacy.Time_Spent_Minutes r = None
               /\ Legacy.Time_Spent_Days r = None)
  /\
  (let old :=
     Legacy.issueRow parseISO_utc tz Legacy.shipped Sample.newYear2024
       (Sample.legacyOf Sample.malformedIssue Sample.takenUp) in
   let new :=
     Enhanced.issueRow parseISO_utc tz Legacy.shipped Sample.newYear2024
       Sample.malformedIssue Sample.takenUp in
   Legacy.Start_Time old = VStr "not-a-date"
   /\ Legacy.Status2_Time old = VStr "2024-01-08T12:00:00.000+0000"
   /\ Legacy.Time_Spent_Minutes old = Some NaN
   /\ Legacy.Time_Spent_Days old = Some NaN
   /\ Enhanced.Time_Spent_Minutes new = None
   /\ Enhanced.Time_Spent_Days new = None).
Proof.
  split; [|split].
  - intros now issue histories r start reached.
    pose proof (Enhanced_timeSpent_by_row now issue histories) as Hrow.
    cbv zeta in Hrow. fold r in Hrow.
    destruct (Enhanced_start now issue histories) as [HS1 HS2].
    fold r start in HS1, HS2.
    destruct (status2Time_reached (status1 cfg) (status2 cfg) histories)
      as [HT1 HT2].
    change (snd (extract (status1 cfg) (status2 cfg) histories))
      with (Enhanced.Status2_Time r) in HT1, HT2.
    fold reached in HT1, HT2.
    unfold presentTime in *.
    destruct (truthy start) eqn:Es.
    + rewrite (HS2 eq_refl) in Hrow. rewrite Es in Hrow.
      destruct (truthy reached) eqn:Er.
      * rewrite (HT2 eq_refl) in Hrow. rewrite Er in Hrow. exact Hrow.
      * rewrite HT1 in Hrow. cbn [andb] in Hrow |- *.
        rewrite andb_false_r in Hrow |- *. exact Hrow.
    + rewrite HS1 in Hrow. cbn [andb] in Hrow |- *. exact Hrow.
  - intros now issue r start reached.
    pose proof (Legacy_timeSpent_by_row now issue) as Hrow.
    cbv zeta in Hrow. fold r in Hrow.
    pose proof (Legacy_start now issue) as HS. cbv zeta in HS.
    fold r start in HS.
    destruct (status2Time_reached (status1 cfg) (status2 cfg)
                (Legacy.changelog issue)) as [HT1 HT2].
    change (snd (extract (status1 cfg) (status2 cfg) (Legacy.changelog issue)))
      with (Legacy.Status2_Time r) in HT1, HT2.
    fold reached in HT1, HT2.
    rewrite HS in Hrow. unfold presentTime in *.
    destruct (truthy reached) eqn:Er.
    + rewrite (HT2 eq_refl) in Hrow. rewrite Er in Hrow. exact Hrow.
    + rewrite HT1 in Hrow. cbn [andb] in Hrow |- *.
      rewrite !andb_false_r in Hrow |- *. cbn [andb] in Hrow |- *. exact Hrow.
  - cbv zeta. repeat split; reflexivity.
Qed.

(** X5.  The two revisions agree on well-formed issues: when priority,
    status and assignee are each missing or carry a name that is not empty,
    the created date is absent or set, and the start time is unset or
    readable, the row that src/index.js builds from an issue with its
    changelog inside holds, in its first ten columns, the values of the row
    that the enhanced revision builds from the issue and the fetched
    changelog.  (An object without its name is left out: src/index.js then
    stores [undefined], the enhanced revision the default text.) *)
Theorem revisions_build_the_same_row :
  forall now issue histories,
    properName (priority (Enhanced.issueFields issue)) ->
    properName (status (Enhanced.issueFields issue)) ->
    properName (assignee (Enhanced.issueFields issue)) ->
    (created (Enhanced.issueFields issue) = VNull
     \/ truthy (created (Enhanced.issueFields issue)) = true) ->
    (truthy (Enhanced.Start_Time
               (Enhanced.issueRow parseISO tz cfg now issue histories)) = true ->
     parse parseISO
       (Enhanced.Start_Time
          (Enhanced.issueRow parseISO tz cfg now issue histories)) <> None) ->
    firstn 10 (Legacy.rowValues
                 (Legacy.issueRow parseISO tz cfg now (inlined issue histories)))
    = Enhanced.rowValues (Enhanced.issueRow parseISO tz cfg now issue histories).
Proof.
  intros now issue histories Hp Hs Ha Hc Hstart.
  assert (Hcreated : or_else (created (Enhanced.issueFields issue)) VNull
                     = created (Enhanced.issueFields issue)).
  { unfold or_else. destruct Hc as [-> | ->]; reflexivity. }
  revert Hstart.
  unfold Legacy.rowValues, Enhanced.rowValues, Legacy.issueRow,
    Enhanced.issueRow, inlined.
  cbn [firstn Legacy.Issue_Key Legacy.Summary Legacy.Status Legacy.Priority
       Legacy.Start_Time Legacy.Currently_in_Backlog_for Legacy.Status2_Time
       Legacy.Time_Spent_Minutes Legacy.Time_Spent_Days Legacy.Assignee
       Enhanced.Issue_Key Enhanced.Summary Enhanced.Status Enhanced.Priority
       Enhanced.Start_Time Enhanced.Currently_in_Backlog_for
       Enhanced.Status2_Time Enhanced.Time_Spent_Minutes
       Enhanced.Time_Spent_Days Enhanced.Assignee
       Legacy.key Legacy.issueFields Legacy.changelog].
  rewrite Hcreated.
  TimingFacts.split_extract. cbn [fst snd].
  set (startTime := if negb (useCreatedDate cfg) && truthy status1Time
                    then status1Time else _).
  intros Hstart.
  assert (Hsum : (match summary (Enhanced.issueFields issue) with
                  | Some s => if (s =? "")%string then "" else double_quotes s
                  | None => ""
                  end)
                 = double_quotes (str_or (summary (Enhanced.issueFields issue)) "")).
  { unfold str_or. destruct (summary _) as [[|c s]|]; reflexivity. }
  assert (Hname : forall o d, properName o ->
            match o with Some name => member name | None => VStr d end
            = VStr (str_or (nameOf o) d)).
  { intros o d [-> | (n & -> & Hn)]; [reflexivity|].
    cbn [member nameOf str_or]. destruct n as [|c n]; [congruence|reflexivity]. }
  rewrite Hsum, !Hname by assumption.
  repeat f_equal.
  - destruct (truthy startTime); [|reflexivity]. cbn [andb].
    destruct (truthy status2Time); [|reflexivity].
    destruct (parse parseISO startTime) as [t1|];
      [|exfalso; apply Hstart; reflexivity].
    destruct (parse parseISO status2Time), (parseISO (endDate cfg));
      reflexivity.
  - destruct (truthy startTime); [|reflexivity]. cbn [andb].
    destruct (truthy status2Time); [|reflexivity].
    destruct (parse parseISO startTime) as [t1|];
      [|exfalso; apply Hstart; reflexivity].
    destruct (parse parseISO status2Time), (parseISO (endDate cfg));
      reflexivity.
Qed.

End Shape.

Lemma spent_facts (t1 t2 : Z) :
  Z.quot (t2 - t1) msPerDay = Z.quot (Z.quot (t2 - t1) msPerMinute) 1440
  /\ (0 <= Z.quot (t2 - t1) msPerMinute <-> t1 - msPerMinute < t2)
  /\ (t1 <= t2 -> 0 <= Z.quot (t2 - t1) msPerDay).
Proof.
  unfold msPerDay, msPerMinute. split; [|split].
  - rewrite Z.quot_quot by lia. reflexivity.
  - rewrite quot_nonneg_iff by lia. lia.
  - intros H. apply Z.quot_pos; lia.
Qed.

Section ConstantOffset.
Variable parseISO : string -> Date.
Variable cfg : config.

(** X3.  On a machine whose time zone keeps one offset from UTC: when the
    time spent is a number, it is the difference between the status2
    instant and the start instant, in whole minutes and in whole days with
    the fraction dropped; the days are the minutes divided by 1440; the
    status2 instant is not later than the end date.  The order of the two
    instants is not checked: the minutes are negative exactly when status2
    was entered a minute or more before the start. *)
Theorem timeSpent_is_truncated_difference :
  (forall c now issue histories m,
     let r := Enhanced.issueRow parseISO (fixedOffset c) cfg now issue histories in
     Enhanced.Time_Spent_Minutes r = Some (Num m) ->
     exists t1 t2 te,
       parse parseISO (Enhanced.Start_Time r) = Some t1
       /\ parse parseISO (Enhanced.Status2_Time r) = Some t2
       /\ parseISO (endDate cfg) = Some te /\ t2 <= te
       /\ m = Z.quot (t2 - t1) msPerMinute
       /\ Enhanced.Time_Spent_Days r = Some (Num (Z.quot m 1440))
       /\ Z.quot m 1440 = Z.quot (t2 - t1) msPerDay
       /\ (0 <= m <-> t1 - msPerMinute < t2))
  /\
  (forall c now issue m,
     let r := Legacy.issueRow parseISO (fixedOffset c) cfg now issue in
     Legacy.Time_Spent_Minutes r = Some (Num m) ->
     exists t1 t2 te,
       parse parseISO (Legacy.Start_Time r) = Some t1
       /\ parse parseISO (Legacy.Status2_Time r) = Some t2
       /\ parseISO (endDate cfg) = Some te /\ t2 <= te
       /\ m = Z.quot (t2 - t1) msPerMinute
       /\ Legacy.Time_Spent_Days r = Some (Num (Z.quot m 1440))
       /\ Z.quot m 1440 = Z.quot (t2 - t1) msPerDay
       /\ (0 <= m <-> t1 - msPerMinute < t2)).
Proof.
  split.
  - intros c now issue histories m r Hm.
    destruct (Enhanced_timeSpent_cases parseISO (fixedOffset c) cfg now issue
                histories)
      as [[Hn _] | (t1 & t2 & te & _ & H1 & H2 & He & Hle & Hmin & Hday)];
      fold r in Hn || fold r in H1, H2, Hmin, Hday.
    + rewrite Hn in Hm. discriminate.
    + rewrite Hmin in Hm. injection Hm as <-.
      rewrite TimingFacts.fullDays_fixed in Hday.
      destruct (spent_facts t1 t2) as (Hq & Hs & _).
      exists t1, t2, te. rewrite <- Hq. repeat split; tauto.
  - intros c now issue m r Hm.
    destruct (Legacy_timeSpent_cases parseISO (fixedOffset c) cfg now issue)
      as [[Hn _] | [[Hn _] | (t1 & t2 & te & _ & H1 & H2 & He & Hle & Hmin & Hday)]];
      fold r in Hn || fold r in H1, H2, Hmin, Hday.
    + rewrite Hn in Hm. discriminate.
    + rewrite Hn in Hm. discriminate.
    + rewrite Hmin in Hm. injection Hm as <-.
      rewrite TimingFacts.fullDays_fixed in Hday.
      destruct (spent_facts t1 t2) as (Hq & Hs & _).
      exists t1, t2, te. rewrite <- Hq. repeat split; tauto.
Qed.

(** X4.  On a machine whose time zone keeps one offset from UTC, an issue
    whose status2 instant is not later than now has spent no more days
    reaching status2 than it has been open: whenever the time spent in
    days is a number and status2 was entered by now, the backlog count is
    a number too and is at least the time spent. *)
Theorem timeSpentDays_le_backlogDays :
  (forall c now issue histories d t2,
     let r := Enhanced.issueRow parseISO (fixedOffset c) cfg now issue histories in
     Enhanced.Time_Spent_Days r = Some (Num d) ->
     parse parseISO (Enhanced.Status2_Time r) = Some t2 ->
     t2 <= now ->
     exists b, Enhanced.Currently_in_Backlog_for r = Some (Num b) /\ d <= b)
  /\
  (forall c now issue d t2,
     let r := Legacy.issueRow parseISO (fixedOffset c) cfg now issue in
     Legacy.Time_Spent_Days r = Some (Num d) ->
     parse parseISO (Legacy.Status2_Time r) = Some t2 ->
     t2 <= now ->
     exists b, Legacy.Currently_in_Backlog_for r = Some (Num b) /\ d <= b).
Proof.
  split.
  - intros c now issue histories d t2 r Hd H2 Hnow.
    destruct (Enhanced_timeSpent_cases parseISO (fixedOffset c) cfg now issue
                histories)
      as [[_ Hn] | (t1 & t2' & te & Hset & H1 & H2' & _ & _ & _ & Hday)];
      fold r in Hn || fold r in Hset, H1, H2', Hday.
    + rewrite Hn in Hd. discriminate.
    + rewrite H2 in H2'. injection H2' as <-.
      rewrite Hday in Hd. injection Hd as <-.
      exists (fullDays (fixedOffset c) now t1). split.
      * subst r. revert Hset H1. unfold Enhanced.issueRow.
        cbn [Enhanced.Start_Time Enhanced.Currently_in_Backlog_for].
        intros -> ->. reflexivity.
      * rewrite !TimingFacts.fullDays_fixed.
        apply Z.quot_le_mono; [reflexivity|lia].
  - intros c now issue d t2 r Hd H2 Hnow.
    destruct (Legacy_timeSpent_cases parseISO (fixedOffset c) cfg now issue)
      as [[_ Hn] | [[_ Hn] | (t1 & t2' & te & Hset & H1 & H2' & _ & _ & _ & Hday)]];
      fold r in Hn || fold r in Hset, H1, H2', Hday.
    + rewrite Hn in Hd. discriminate.
    + rewrite Hn in Hd. discriminate.
    + rewrite H2 in H2'. injection H2' as <-.
      rewrite Hday in Hd. injection Hd as <-.
      exists (fullDays (fixedOffset c) now t1). split.
      * subst r. revert Hset H1. unfold Legacy.issueRow.
        cbn [Legacy.Start_Time Legacy.Currently_in_Backlog_for].
        intros -> ->. reflexivity.
      * rewrite !TimingFacts.fullDays_fixed.
        apply Z.quot_le_mono; [reflexivity|lia].
Qed.

End ConstantOffset.

(** Where the clocks change the bound of X4 can fail.  In New York an
    issue starts at 01:20 on 2024-11-02 and reaches status2 at 01:30 on
    2024-11-03, still in summer time; at 01:10 winter time of that night,
    40 minutes later, one full day has been spent and no full day has
    passed on the local calendar since the start. *)
Example autumn_night_spends_more_than_it_lasts :
  let start := 1730524800000 in
  let reached := 1730611800000 in
  let now := 1730614200000 in
  reached <= now
  /\ differenceInDays newYork2024 (Some reached) (Some start) = Num 1
  /\ differenceInDays newYork2024 (Some now) (Some start) = Num 0.
Proof. cbv zeta. repeat split; vm_compute; congruence. Qed.

(** The enhanced revision at the scenario of the specification: both
    times are present and within the cutoff, and the metrics are 12960
    minutes and 9 days. *)
Lemma timeSpent_present_within_cutoff_else_absent_witness :
  let r := Enhanced.issueRow parseISO_utc utc (Sample.withEndDate "2024-12-31")
             Sample.newYear2024 Sample.scenarioIssue Sample.scenarioHistory in
  exists t1 t2,
    parse parseISO_utc (VStr "2024-01-01T00:00:00Z") = Some t1
    /\ parse parseISO_utc (VStr "2024-01-10T00:00:00Z") = Some t2
    /\ Enhanced.Time_Spent_Minutes r = Some (Num (Z.quot (t2 - t1) msPerMinute))
    /\ Enhanced.Time_Spent_Days r = Some (Num (fullDays utc t2 t1)).
Proof.
  exact (proj1 (timeSpent_present_within_cutoff_else_absent parseISO_utc utc
                  (Sample.withEndDate "2024-12-31"))
           Sample.newYear2024 Sample.scenarioIssue Sample.scenarioHistory).
Defined.

(** The theorem at the scenario of the specification: 12960 minutes. *)
Lemma timeSpent_is_truncated_difference_witness :
  let r := Enhanced.issueRow parseISO_utc utc (Sample.withEndDate "2024-12-31")
             Sample.newYear2024 Sample.scenarioIssue Sample.scenarioHistory in
  exists t1 t2 te,
    parse parseISO_utc (Enhanced.Start_Time r) = Some t1
    /\ parse parseISO_utc (Enhanced.Status2_Time r) = Some t2
    /\ parseISO_utc (endDate (Sample.withEndDate "2024-12-31")) = Some te
    /\ t2 <= te
    /\ 12960 = Z.quot (t2 - t1) msPerMinute
    /\ Enhanced.Time_Spent_Days r = Some (Num (Z.quot 12960 1440))
    /\ Z.quot 12960 1440 = Z.quot (t2 - t1) msPerDay
    /\ (0 <= 12960 <-> t1 - msPerMinute < t2).
Proof.
  exact (proj1 (timeSpent_is_truncated_difference parseISO_utc
                  (Sample.withEndDate "2024-12-31"))
           0 Sample.newYear2024 Sample.scenarioIssue Sample.scenarioHistory
           12960 eq_refl).
Defined.

(** The theorem at the scenario, looked at on 2024-02-01. *)
Lemma timeSpentDays_le_backlogDays_witness :
  let r := Enhanced.issueRow parseISO_utc utc (Sample.withEndDate "2024-12-31")
             1706745600000 Sample.scenarioIssue Sample.scenarioHistory in
  exists b, Enhanced.Currently_in_Backlog_for r = Some (Num b) /\ 9 <= b.
Proof.
  refine (proj1 (timeSpentDays_le_backlogDays parseISO_utc
                   (Sample.withEndDate "2024-12-31"))
            0 1706745600000 Sample.scenarioIssue Sample.scenarioHistory
            9 1704844800000 eq_refl eq_refl _).
  discriminate.
Defined.

(** Objects without a name are where the revisions part: src/index.js
    stores [undefined] and writes empty fields, the enhanced revision
    writes the default texts. *)
Example nameless_objects_part_the_revisions :
  forall tz,
    let old := Legacy.issueRow parseISO_utc tz Legacy.shipped Sample.newYear2024
                 (inlined nameless []) in
    let new := Enhanced.issueRow parseISO_utc tz Legacy.shipped
                 Sample.newYear2024 nameless [] in
    (Legacy.Status old, Legacy.Priority old, Legacy.Assignee old)
    = (VNull, VNull, VNull)
    /\ map (fun i => nth i (Legacy.csvFields old) "-") [2; 3; 9]%nat
       = [""; ""; ""]
    /\ map (fun i => nth i (Enhanced.csvFields new) "-") [2; 3; 9]%nat
       = ["Unknown"; "Unknown"; "Unassigned"].
Proof. intros tz. cbv zeta. repeat split; reflexivity. Qed.

(** The theorem at the scenario. *)
Lemma revisions_build_the_same_row_witness :
  firstn 10 (Legacy.rowValues
               (Legacy.issueRow parseISO_utc utc (Sample.withEndDate "2024-12-31")
                  Sample.newYear2024
                  (inlined Sample.scenarioIssue Sample.scenarioHistory)))
  = Enhanced.rowValues
      (Enhanced.issueRow parseISO_utc utc (Sample.withEndDate "2024-12-31")
         Sample.newYear2024 Sample.scenarioIssue Sample.scenarioHistory).
Proof.
  refine (revisions_build_the_same_row parseISO_utc utc
            (Sample.withEndDate "2024-12-31") Sample.newYear2024
            Sample.scenarioIssue Sample.scenarioHistory _ _ _ _ _).
  - right. exists "High". split; [reflexivity|discriminate].
  - right. exists "Open". split; [reflexivity|discriminate].
  - left. reflexivity.
  - right. reflexivity.
  - discriminate.
Defined.

End RowFacts.

(* ================================================================== *)
(** * Further properties of the average *)
(* ================================================================== *)

Module AverageFacts.
Import Changelog Tracker Revisions.

Lemma fold_addNumber_NaN (l : list number) :
  fold_left Enhanced.addNumber l NaN = NaN.
Proof. induction l as [|x l IH]; [reflexivity|exact IH]. Qed.

Lemma fold_addNumber_absorbs (l : list number) : forall acc,
  In NaN l -> fold_left Enhanced.addNumber l acc = NaN.
Proof.
  induction l as [|x l IH]; intros acc Hin; [contradiction|].
  cbn [fold_left]. destruct Hin as [-> | Hin].
  - destruct acc; apply fold_addNumber_NaN.
  - apply IH, Hin.
Qed.

Lemma someNaN_valid (results : list Enhanced.row) :
  someNaN Enhanced.Time_Spent_Days results = true ->
  In NaN (flat_map (fun v => match v with Some x => [x] | None => [] end)
                   (map Enhanced.Time_Spent_Days results)).
Proof.
  unfold someNaN. induction results as [|r rs IH]; [discriminate|].
  cbn [existsb map flat_map]. intros H. apply in_or_app.
  destruct (Enhanced.Time_Spent_Days r) as [[|n]|]; cbn [orb] in H.
  - left. left. reflexivity.
  - right. apply IH, H.
  - right. apply IH, H.
Qed.

Lemma someNaN_false (results : list Enhanced.row) :
  someNaN Enhanced.Time_Spent_Days results = false ->
  Forall (fun r => Enhanced.Time_Spent_Days r <> Some NaN) results.
Proof.
  unfold someNaN. induction results as [|r rs IH]; [constructor|].
  cbn [existsb]. intros H. apply orb_false_iff in H. destruct H as [Hr Hrs].
  constructor; [|apply IH, Hrs].
  destruct (Enhanced.Time_Spent_Days r) as [[|n]|]; discriminate.
Qed.

(** X6.  The average of the enhanced revision, on any list of rows: when
    some row holds [NaN] as its days the result is [NaN]; otherwise it is
    the mean of the days that are numbers, 0 when there is none, and rows
    without a number do not count in the divisor.  On the rows that
    [getAllIssues] builds it is never [NaN]. *)
Theorem Enhanced_average_characterised :
  (forall results : list Enhanced.row,
     Enhanced.calculateAverageTimeSpentDays results
     = if someNaN Enhanced.Time_Spent_Days results then None
       else Some (mean (presentDays Enhanced.Time_Spent_Days results)))
  /\
  (forall parseISO tz cfg (inputs : list (Z * Enhanced.issue * list history)),
     let results :=
       map (fun '(now, issue, histories) =>
              Enhanced.issueRow parseISO tz cfg now issue histories) inputs in
     Enhanced.calculateAverageTimeSpentDays results
     = Some (mean (presentDays Enhanced.Time_Spent_Days results))).
Proof.
  split.
  - intros results.
    destruct (someNaN Enhanced.Time_Spent_Days results) eqn:Hnan.
    + unfold Enhanced.calculateAverageTimeSpentDays.
      pose proof (someNaN_valid results Hnan) as Hin.
      destruct (flat_map _ _) as [|x l] eqn:Hv; [contradiction|].
      cbn [List.length Nat.eqb].
      rewrite fold_addNumber_absorbs by exact Hin. reflexivity.
    + apply ReportFacts.Enhanced_average_is_mean, someNaN_false, Hnan.
  - intros parseISO tz cfg inputs results.
    apply ReportFacts.Enhanced_average_is_mean.
    subst results. apply Forall_forall. intros r Hr.
    apply in_map_iff in Hr. destruct Hr as ([[now issue] hs] & <- & _).
    apply ReportFacts.Enhanced_days_never_NaN.
Qed.

Lemma Legacy_total (results : list Legacy.row) : forall acc,
  fold_left (fun sum result => sum + Legacy.orZero (Legacy.Time_Spent_Days result))
            results acc
  = acc + sumZ (presentDays Legacy.Time_Spent_Days results).
Proof.
  induction results as [|r rs IH]; intros acc; cbn [fold_left presentDays flat_map].
  - cbn. lia.
  - rewrite IH. unfold presentDays, sumZ. rewrite fold_right_app.
    destruct (Legacy.Time_Spent_Days r) as [[|n]|]; cbn; lia.
Qed.

(** X7.  The average of src/index.js, on any list of rows: 0 for the empty
    list; otherwise the sum of the days that are numbers divided by the
    number of all rows, so that rows without a number (null or NaN) pull the
    result toward 0.  It is the mean of the present values when every row
    holds a number. *)
Theorem Legacy_average_characterised :
  forall results : list Legacy.row,
    let present := presentDays Legacy.Time_Spent_Days results in
    (inject_Z (Z.of_nat (List.length results))
     * Legacy.calculateAverageTimeSpentDays results
     == inject_Z (sumZ present))%Q
    /\ (results = [] -> Legacy.calculateAverageTimeSpentDays results = 0%Q)
    /\ (List.length present = List.length results ->
        (Legacy.calculateAverageTimeSpentDays results == mean present)%Q).
Proof.
  intros results present. unfold Legacy.calculateAverageTimeSpentDays.
  rewrite Legacy_total, Z.add_0_l. fold present.
  split; [|split].
  - destruct results as [|r rs]; [reflexivity|].
    cbn [List.length Nat.eqb]. apply Qmult_div_r.
    unfold Qeq. cbn. lia.
  - intros ->. reflexivity.
  - intros Hlen. destruct results as [|r rs].
    + destruct present; [reflexivity|discriminate].
    + cbn [List.length Nat.eqb].
      destruct present as [|x l] eqn:Hp; [discriminate|].
      unfold mean. rewrite Hlen. reflexivity.
Qed.

End AverageFacts.

(* ================================================================== *)
(** * Further properties of the retry wrapper *)
(* ================================================================== *)

Module RetryFacts.
Import Changelog Tracker World Flaky.

Lemma waitMsOf_waitFor (err : error) (baseDelayMs : Z) (attempt : nat) :
  Enhanced.waitMsOf err (baseDelayMs * 2 ^ Z.of_nat attempt)
  = waitFor (Enhanced.retryAfterHeaderOf err) baseDelayMs attempt.
Proof.
  unfold Enhanced.waitMsOf, waitFor.
  destruct (Enhanced.retryAfterHeaderOf err) as [[n|s]|]; try reflexivity.
  cbn [Enhanced.NumberOf truthy].
  destruct (N.eqb_spec n 0) as [-> | Hn]; [reflexivity|].
  destruct (Z.eqb_spec (Z.of_N n * 1000) 0); [lia|reflexivity].
Qed.

Section Flaky.
Context {A : Type}.
Variable data : A.
Variable err : error.
Variable r : request.
Variable retries : nat.
Variable baseDelayMs : Z.
Variable failures : nat.
Hypothesis err_transient : Enhanced.transient (Enhanced.statusOf err) = true.

Local Abbreviation loop :=
  (Enhanced.withRetryFrom nat noTimer).

Lemma flaky_from :
  forall fuel attempt evs,
    (attempt <= retries)%nat -> (retries < fuel + attempt)%nat ->
    (attempt <= failures)%nat ->
    loop fuel (http (flaky failures err data) r) retries baseDelayMs attempt
         (mkWorld attempt evs)
    = if (failures <=? retries)%nat
      then (Returned data,
            mkWorld (S failures)
              (evs ++ attemptsLog r err baseDelayMs attempt (failures - attempt)))
      else (Threw err,
            mkWorld (S retries)
              (evs ++ attemptsLog r err baseDelayMs attempt (retries - attempt))).
Proof.
  induction fuel as [|fuel IH]; intros attempt evs Hle Hfuel Hfail; [lia|].
  rewrite RunFacts.withRetryFrom_step. unfold flaky at 1. cbn [env events].
  destruct (Nat.ltb_spec attempt failures) as [Hlt|Hge].
  - rewrite err_transient, andb_true_r.
    destruct (Nat.ltb_spec attempt retries) as [Hretry|Hstop].
    + cbv zeta. rewrite waitMsOf_waitFor.
      change (noTimer (waitFor (Enhanced.retryAfterHeaderOf err) baseDelayMs
                               attempt) (S attempt))
        with (S attempt).
      rewrite IH by lia.
      destruct (failures <=? retries)%nat.
      * replace (failures - attempt)%nat with (S (failures - S attempt)) by lia.
        unfold attemptsLog. cbn [seq flat_map]. rewrite <- !app_assoc.
        reflexivity.
      * replace (retries - attempt)%nat with (S (retries - S attempt)) by lia.
        unfold attemptsLog. cbn [seq flat_map]. rewrite <- !app_assoc.
        reflexivity.
    + destruct (Nat.leb_spec failures retries); [lia|].
      replace attempt with retries by lia.
      rewrite Nat.sub_diag. reflexivity.
  - destruct (Nat.leb_spec failures retries); [|lia].
    replace attempt with failures by lia.
    rewrite Nat.sub_diag. reflexivity.
Qed.

End Flaky.

(** X8.  A wrapped request whose first [failures] attempts fail with the
    same transient error and whose next attempt is answered: when
    [failures] is at most [retries], [withRetry] returns the answer after
    [failures + 1] attempts; otherwise it throws the error after
    [retries + 1] attempts.  Before each retry it waits the seconds of the
    error's [Retry-After] header when the header names a positive number,
    and [baseDelayMs * 2^attempt] when the header is missing, is 0 or is a
    date. *)
Theorem withRetry_recovers_within_retries :
  forall (A : Type) (data : A) err r retries baseDelayMs failures evs,
    Enhanced.transient (Enhanced.statusOf err) = true ->
    Enhanced.withRetryWith nat noTimer (http (flaky failures err data) r)
      retries baseDelayMs (mkWorld 0%nat evs)
    = if (failures <=? retries)%nat
      then (Returned data,
            mkWorld (S failures) (evs ++ attemptsLog r err baseDelayMs 0 failures))
      else (Threw err,
            mkWorld (S retries) (evs ++ attemptsLog r err baseDelayMs 0 retries)).
Proof.
  intros A data err r retries baseDelayMs failures evs Htr.
  unfold Enhanced.withRetryWith.
  rewrite (flaky_from data err r retries baseDelayMs failures Htr) by lia.
  rewrite !Nat.sub_0_r. reflexivity.
Qed.

(** The theorem at an endpoint that answers 429 with Retry-After: 7 twice. *)
Lemma withRetry_recovers_within_retries_witness :
  Enhanced.withRetryWith nat noTimer
    (http (flaky 2 (HttpError 429 (Some (DelaySeconds 7))) tt) (SearchJql None))
    3 500 (mkWorld 0%nat [])
  = (Returned tt,
     mkWorld 3%nat
       [ Request (SearchJql None); Sleep 7000;
         Request (SearchJql None); Sleep 7000;
         Request (SearchJql None) ]).
Proof.
  exact (withRetry_recovers_within_retries unit tt
           (HttpError 429 (Some (DelaySeconds 7))) (SearchJql None) 3 500 2 []
           eq_refl).
Defined.

Section Scripted.
Context {A : Type}.
Variable answers : nat -> error + A.
Variable r : request.
Variable retries : nat.
Variable baseDelayMs : Z.
Variable k : nat.
Variable fatal : error.
Hypothesis before_transient :
  forall i, (i < k)%nat ->
    exists err, answers i = inl err
                /\ Enhanced.transient (Enhanced.statusOf err) = true.
Hypothesis then_fatal : answers k = inl fatal.
Hypothesis fatal_is_final :
  Enhanced.transient (Enhanced.statusOf fatal) = false.
Hypothesis within_retries : (k <= retries)%nat.

Lemma scripted_from :
  forall fuel attempt evs,
    (attempt <= k)%nat -> (retries < fuel + attempt)%nat ->
    let run :=
      Enhanced.withRetryFrom nat noTimer fuel (http (scripted answers) r)
        retries baseDelayMs attempt (mkWorld attempt evs) in
    fst run = Threw fatal
    /\ env (snd run) = S k
    /\ requests (events (snd run))
       = (requests evs ++ repeat r (S (k - attempt)))%list
    /\ List.length (delays (events (snd run)))
       = (List.length (delays evs) + (k - attempt))%nat.
Proof.
  induction fuel as [|fuel IH]; intros attempt evs Hle Hfuel run; [lia|].
  subst run. rewrite RunFacts.withRetryFrom_step.
  cbn [env events].
  change (scripted answers attempt) with (answers attempt, S attempt).
  destruct (Nat.eq_dec attempt k) as [-> | Hne].
  - rewrite then_fatal, fatal_is_final, andb_false_r. cbn [fst snd env events].
    rewrite Nat.sub_diag, RunFacts.requests_app, RunFacts.delays_app.
    cbn. rewrite app_nil_r. auto.
  - destruct (before_transient attempt) as (err & -> & Htr); [lia|].
    rewrite Htr, andb_true_r.
    destruct (Nat.ltb_spec attempt retries) as [_|Hstop]; [|lia].
    cbv zeta.
    match goal with
    | |- context [noTimer ?ms (S attempt)] =>
        change (noTimer ms (S attempt)) with (S attempt)
    end.
    destruct (IH (S attempt)
                ((evs ++ [Request r])
                 ++ [Sleep (Enhanced.waitMsOf err
                              (baseDelayMs * 2 ^ Z.of_nat attempt))])%list)
      as (Hout & Henv & Hreq & Hdel); [lia|lia|].
    split; [exact Hout|]. split; [exact Henv|]. split.
    + rewrite Hreq, !RunFacts.requests_app. cbn [requests flat_map app].
      rewrite app_nil_r, <- app_assoc.
      replace (k - attempt)%nat with (S (k - S attempt)) by lia. reflexivity.
    + rewrite Hdel, !RunFacts.delays_app, !length_app. cbn. lia.
Qed.

End Scripted.

(** X9.  An error that is not transient (no response, or a status other
    than 429 and 5xx, such as 401, 403 or 404) is never retried, and no
    error is once [retries] retries have been made.  (1) Whatever has
    happened before, in whatever attempt the loop of [withRetry] is: when
    the request is answered with such an error, the loop throws it at
    once, without a wait and without another attempt.  (2) So a request
    that is answered with transient errors [k] times and then with an error
    that is not transient is sent [k + 1] times, with [k] waits, and never
    again. *)
Theorem withRetry_never_retries_a_final_error :
  (forall E elapse (A : Type) (respond : E -> (error + A) * E) r retries
          baseDelayMs fuel attempt (w : world E) err e',
     respond (env w) = (inl err, e') ->
     Enhanced.transient (Enhanced.statusOf err) = false
     \/ (retries <= attempt)%nat ->
     Enhanced.withRetryFrom E elapse (S fuel) (http respond r) retries
       baseDelayMs attempt w
     = (Threw err, mkWorld e' (events w ++ [Request r])))
  /\
  (forall (A : Type) (answers : nat -> error + A) r retries baseDelayMs k
          fatal evs,
     (forall i, (i < k)%nat ->
        exists err, answers i = inl err
                    /\ Enhanced.transient (Enhanced.statusOf err) = true) ->
     answers k = inl fatal ->
     Enhanced.transient (Enhanced.statusOf fatal) = false ->
     (k <= retries)%nat ->
     let run :=
       Enhanced.withRetryWith nat noTimer (http (scripted answers) r) retries
         baseDelayMs (mkWorld 0%nat evs) in
     fst run = Threw fatal
     /\ env (snd run) = S k
     /\ requests (events (snd run)) = (requests evs ++ repeat r (S k))%list
     /\ List.length (delays (events (snd run)))
        = (List.length (delays evs) + k)%nat).
Proof.
  split.
  - intros E elapse A respond r retries baseDelayMs fuel attempt w err e'
           Hresp Hno.
    rewrite RunFacts.withRetryFrom_step, Hresp.
    destruct Hno as [-> | Hge]; [rewrite andb_false_r; reflexivity|].
    destruct (Nat.ltb_spec attempt retries); [lia|reflexivity].
  - intros A answers r retries baseDelayMs k fatal evs Hbefore Hthen Hfinal
           Hk run.
    subst run. unfold Enhanced.withRetryWith.
    destruct (scripted_from answers r retries baseDelayMs k fatal Hbefore
                Hthen Hfinal Hk (S retries) 0 evs) as (H1 & H2 & H3 & H4);
      [lia|lia|].
    rewrite Nat.sub_0_r in H3, H4. auto.
Qed.

(** The theorem at an endpoint that answers 503 once and 401 from then on:
    a second attempt is made after the wait, and no third. *)
Lemma withRetry_never_retries_a_final_error_witness :
  let run :=
    Enhanced.withRetryWith nat noTimer
      (http (scripted overloadThenDenied) (SearchJql None)) 3 500
      (mkWorld 0%nat []) in
  fst run = Threw (HttpError 401 None)
  /\ env (snd run) = 2%nat
  /\ requests (events (snd run)) = [SearchJql None; SearchJql None]
  /\ List.length (delays (events (snd run))) = 1%nat.
Proof.
  refine (proj2 withRetry_never_retries_a_final_error unit overloadThenDenied
            (SearchJql None) 3%nat 500 1%nat (HttpError 401 None) [] _ _ _ _).
  - intros i Hi. exists (HttpError 503 None).
    destruct i as [|i]; [split; reflexivity|lia].
  - reflexivity.
  - reflexivity.
  - lia.
Defined.

Section AnyEndpoint.
Variable E : Type.
Variable elapse : Z -> E -> E.
Context {A : Type}.
Variable respond : E -> (error + A) * E.
Variable r : request.
Variable retries : nat.
Variable baseDelayMs : Z.

Lemma attempts_from :
  forall fuel attempt w,
    (attempt <= retries)%nat -> (retries < fuel + attempt)%nat ->
    let run :=
      Enhanced.withRetryFrom E elapse fuel (http respond r) retries
        baseDelayMs attempt w in
    exists k,
      (attempt + k <= retries)%nat
      /\ requests (events (snd run)) = (requests (events w) ++ repeat r (S k))%list
      /\ List.length (delays (events (snd run)))
         = (List.length (delays (events w)) + k)%nat
      /\ writes (events (snd run)) = writes (events w)
      /\ fst run <> Unfinished.
Proof.
  induction fuel as [|fuel IH]; intros attempt w Hle Hfuel run; [lia|].
  subst run. rewrite RunFacts.withRetryFrom_step.
  destruct (respond (env w)) as [[err|data] e'].
  - destruct ((attempt <? retries)%nat && _) eqn:Hretry.
    + apply andb_prop in Hretry. destruct Hretry as [Hlt _].
      apply Nat.ltb_lt in Hlt. cbv zeta.
      match goal with
      | |- context [Enhanced.withRetryFrom E elapse fuel _ _ _ (S attempt) ?w2] =>
          destruct (IH (S attempt) w2) as (k & Hk & Hreq & Hdel & Hwr & Hu);
            [lia|lia|]
      end.
      exists (S k). cbn [events] in *. repeat split.
      * lia.
      * rewrite Hreq, !RunFacts.requests_app. cbn [requests flat_map app].
        rewrite app_nil_r, <- app_assoc. reflexivity.
      * rewrite Hdel, !RunFacts.delays_app, !length_app. cbn. lia.
      * rewrite Hwr, !RunFacts.writes_app. cbn. rewrite !app_nil_r. reflexivity.
      * exact Hu.
    + exists 0%nat. cbn [fst snd events]. repeat split.
      * lia.
      * rewrite RunFacts.requests_app. reflexivity.
      * rewrite RunFacts.delays_app, length_app. cbn. lia.
      * rewrite RunFacts.writes_app. cbn. rewrite app_nil_r. reflexivity.
      * discriminate.
  - exists 0%nat. cbn [fst snd events]. repeat split.
    + lia.
    + rewrite RunFacts.requests_app. reflexivity.
    + rewrite RunFacts.delays_app, length_app. cbn. lia.
    + rewrite RunFacts.writes_app. cbn. rewrite app_nil_r. reflexivity.
    + discriminate.
Qed.

End AnyEndpoint.

(** X10.  Whatever the endpoint answers, one call of [withRetry] around a
    request ends, sends that request between 1 and [retries + 1] times and
    nothing else, waits exactly once between two attempts, and writes no
    file. *)
Theorem withRetry_attempts_bounded :
  forall E elapse (A : Type) (respond : E -> (error + A) * E) r retries
         baseDelayMs (w : world E),
    let run :=
      Enhanced.withRetryWith E elapse (http respond r) retries baseDelayMs w in
    exists k,
      (k <= retries)%nat
      /\ requests (events (snd run)) = (requests (events w) ++ repeat r (S k))%list
      /\ List.length (delays (events (snd run)))
         = (List.length (delays (events w)) + k)%nat
      /\ writes (events (snd run)) = writes (events w)
      /\ fst run <> Unfinished.
Proof.
  intros E elapse A respond r retries baseDelayMs w run.
  destruct (attempts_from E elapse respond r retries baseDelayMs
              (S retries) 0 w) as (k & Hk & H); [lia|lia|].
  exists k. split; [lia|exact H].
Qed.

Lemma sum_backoff (baseDelayMs : Z) : forall n attempt,
  sumZ (Enhanced.backoff baseDelayMs attempt n)
  = baseDelayMs * 2 ^ Z.of_nat attempt * (2 ^ Z.of_nat n - 1).
Proof.
  unfold Enhanced.backoff.
  induction n as [|n IH]; intros attempt; cbn [seq map sumZ fold_right].
  - cbn. lia.
  - fold (sumZ (map (fun k => baseDelayMs * 2 ^ Z.of_nat k) (seq (S attempt) n))).
    rewrite IH, !Nat2Z.inj_succ, !Z.pow_succ_r by lia. ring.
Qed.

(** X11.  Against an endpoint that sends no [retry-after] header, the waits
    of one call of [withRetry] add up to at most
    [baseDelayMs * (2^retries - 1)] milliseconds, 3500 with the default
    options. *)
Theorem withRetry_total_wait_bounded :
  forall E elapse (A : Type) (respond : E -> (error + A) * E) r retries
         baseDelayMs (w : world E),
    0 <= baseDelayMs ->
    Enhanced.noRetryAfter respond ->
    let run :=
      Enhanced.withRetryWith E elapse (http respond r) retries baseDelayMs w in
    exists waits,
      delays (events (snd run)) = (delays (events w) ++ waits)%list
      /\ Forall (fun d => 0 <= d) waits
      /\ sumZ waits <= baseDelayMs * (2 ^ Z.of_nat retries - 1).
Proof.
  intros E elapse A respond r retries baseDelayMs w Hb Hno run.
  destruct (RunFacts.withRetryFrom_delays E elapse respond r retries
              baseDelayMs Hno (S retries) 0 w) as (n & Hn & Hd & _);
    [lia|lia|].
  exists (Enhanced.backoff baseDelayMs 0 n). split; [exact Hd|]. split.
  - unfold Enhanced.backoff. apply Forall_forall. intros d Hin.
    apply in_map_iff in Hin. destruct Hin as (k & <- & _).
    assert (0 <= 2 ^ Z.of_nat k) by (apply Z.pow_nonneg; lia). nia.
  - rewrite sum_backoff. cbn [Z.of_nat]. rewrite Z.pow_0_r, Z.mul_1_r.
    assert (2 ^ Z.of_nat n <= 2 ^ Z.of_nat retries)
      by (apply Z.pow_le_mono_r; lia).
    nia.
Qed.

(** The theorem at the search endpoint of [Sample] that is down: the waits
    add up to at most 3500 ms. *)
Lemma withRetry_total_wait_bounded_witness :
  let run :=
    Enhanced.withRetryWith unit Sample.instantTimer
      (http (Sample.searchDown None) (SearchJql None)) 3 500
      Sample.emptyWorld in
  exists waits,
    delays (events (snd run)) = (delays (events Sample.emptyWorld) ++ waits)%list
    /\ Forall (fun d => 0 <= d) waits
    /\ sumZ waits <= 500 * (2 ^ Z.of_nat 3 - 1).
Proof.
  refine (withRetry_total_wait_bounded unit Sample.instantTimer
            Enhanced.searchData (Sample.searchDown None) (SearchJql None)
            3%nat 500 Sample.emptyWorld _ _).
  - discriminate.
  - intros e status header H. cbn in H. congruence.
Defined.

End RetryFacts.

(* ================================================================== *)
(** * Further properties of the pagination loops *)
(* ================================================================== *)

Module LoopFacts.
Import Changelog Tracker World Service Endless.
Local Open Scope run_scope.

(** ** The offset loop of src/index.js against any page size *)

Section LegacyAnyLimit.
Variable parseISO : string -> Date.
Variable tz : zone.
Variable cfg : config.
Variable E : Type.
Variable readClock : E -> Z * E.
Variable limit : nat.
Variable all : list Legacy.issue.

Local Abbreviation size := (Nat.min 50 limit).
Local Abbreviation pages := (pageCount (List.length all) 50).
Local Abbreviation page := (fun i : nat => firstn size (skipn (50 * i) all)).
Local Abbreviation loop :=
  (Legacy.getAllIssuesFrom parseISO tz cfg E (searchV2 E limit all) readClock).

Lemma Legacy_fetchIssues_any (startAt : Z) (w : world E) :
  Legacy.fetchIssues E (searchV2 E limit all) startAt w =
  (Returned {| Legacy.total := Z.of_nat (List.length all);
               Legacy.issues := firstn size (skipn (Z.to_nat startAt) all) |},
   mkWorld (env w) (events w ++ [Request (SearchV2 startAt)])).
Proof. reflexivity. Qed.

Lemma Legacy_loop_any :
  forall fuel i results w,
    (pages - i <= fuel)%nat -> (i < pages)%nat ->
    exists rows w',
      loop fuel (Z.of_nat (50 * i)) results w
        = (Returned (results ++ rows)%list, w')
      /\ map Legacy.Issue_Key rows
         = map Legacy.key (flat_map page (seq i (pages - i)))
      /\ events w' =
         (events w ++
          map (fun j => Request (SearchV2 (Z.of_nat (50 * j))))
              (seq i (pages - i)))%list.
Proof.
  induction fuel as [|fuel IH]; intros i results w Hfuel Hi; [lia|].
  cbn [Legacy.getAllIssuesFrom]. unfold bind at 1.
  rewrite Legacy_fetchIssues_any.
  cbn [Legacy.total Legacy.issues]. cbv zeta.
  rewrite Nat2Z.id.
  unfold bind.
  match goal with
  | |- context [Legacy.processIssues parseISO tz cfg E readClock ?p results ?w1] =>
      destruct (PagingFacts.Legacy_processIssues_rows parseISO tz cfg E readClock
                  p results w1)
        as (rows1 & w1' & Hrun1 & Hev1 & Hkeys1)
  end.
  rewrite Hrun1. cbn [events] in Hev1.
  replace (Z.of_nat (50 * i) + 50) with (Z.of_nat (50 * S i)) by lia.
  replace (pages - i)%nat with (S (pages - S i)) by lia.
  rewrite PagingFacts.seq_cons. cbn [map flat_map].
  destruct (Z.ltb_spec (Z.of_nat (50 * S i)) (Z.of_nat (List.length all)))
    as [Hmore|Hlast].
  - assert (Hp : (S i < pages)%nat)
      by (apply PagingFacts.next_page_iff; lia).
    destruct (IH (S i) (results ++ rows1)%list w1')
      as (rows2 & w2 & Hrun2 & Hkeys2 & Hev2); [lia|exact Hp|].
    exists (rows1 ++ rows2)%list, w2. rewrite Hrun2, <- app_assoc.
    repeat split.
    + rewrite !map_app, Hkeys1, Hkeys2. reflexivity.
    + rewrite Hev2, Hev1, <- app_assoc. reflexivity.
  - assert (Hp : ~ (S i < pages)%nat).
    { intros Hp. apply PagingFacts.next_page_iff in Hp; lia. }
    exists rows1, w1'. unfold ret.
    replace (pages - S i)%nat with 0%nat by lia. cbn [seq flat_map map].
    rewrite app_nil_r. repeat split; assumption.
Qed.

Lemma pages_length_le : forall n i,
  (List.length (flat_map page (seq i n)) <= List.length all - 50 * i)%nat.
Proof.
  induction n as [|n IH]; intros i; cbn [seq flat_map]; [cbn; lia|].
  rewrite length_app, length_firstn, length_skipn.
  specialize (IH (S i)). lia.
Qed.

End LegacyAnyLimit.

(** X12.  The offset loop of src/index.js against a tracker that serves at
    most [limit] issues per page: it asks for the offsets 0, 50, 100, ...
    below the total and gathers, from each, the [min 50 limit] issues
    served, in order.  When [limit] is below 50 and below the number of
    issues, the issues between two pages are skipped and there are fewer
    rows than issues. *)
Theorem Legacy_gathers_what_each_page_serves :
  forall parseISO tz cfg E readClock limit (all : list Legacy.issue) extra
         (w : world E),
    let pages := pageCount (List.length all) 50 in
    let run :=
      Legacy.getAllIssues parseISO tz cfg E (searchV2 E limit all) readClock
        (pages + extra) w in
    exists rows,
      fst run = Returned rows
      /\ map Legacy.Issue_Key rows
         = map Legacy.key
             (flat_map (fun i => firstn (Nat.min 50 limit) (skipn (50 * i) all))
                       (seq 0 pages))
      /\ requests (events (snd run)) =
         (requests (events w)
          ++ map (fun j => SearchV2 (Z.of_nat (50 * j))) (seq 0 pages))%list
      /\ ((limit < 50)%nat -> (limit < List.length all)%nat ->
          (List.length rows < List.length all)%nat).
Proof.
  intros parseISO tz cfg E readClock limit all extra w pages run.
  destruct (Legacy_loop_any parseISO tz cfg E readClock limit all
              (pages + extra) 0 [] w) as (rows & w' & Hrun & Hkeys & Hev).
  - lia.
  - unfold pageCount. lia.
  - rewrite Nat.sub_0_r in Hkeys, Hev.
    change (Z.of_nat (50 * 0)) with 0 in Hrun.
    change ([] ++ rows)%list with rows in Hrun.
    subst run. unfold Legacy.getAllIssues. rewrite Hrun. cbn [fst snd].
    exists rows. repeat split.
    + exact Hkeys.
    + rewrite Hev, RunFacts.requests_app, PagingFacts.requests_of_map.
      reflexivity.
    + intros Hlimit Hall.
      apply (f_equal (@List.length string)) in Hkeys.
      rewrite !length_map in Hkeys. rewrite Hkeys.
      assert (Hpages : (1 <= pageCount (List.length all) 50)%nat)
        by (unfold pageCount; lia).
      subst pages.
      destruct (pageCount (List.length all) 50) as [|n]; [lia|].
      rewrite PagingFacts.seq_cons. cbn [flat_map].
      rewrite length_app, length_firstn, length_skipn.
      pose proof (pages_length_le limit all n 1). lia.
Qed.

(** ** Pages without paging data *)

(** X13.  A changelog page that says it is the last one, or that carries
    neither a total nor an [isLast] flag, ends the changelog loop: the
    entries gathered so far and those of this page are returned and no
    further page is requested, whatever the page size and the offset. *)
Theorem changelog_page_without_total_is_last :
  forall E (changelogOf : string -> Z -> E -> (error + Enhanced.changelogData) * E)
         elapse fuel issueKey startAt histories (w : world E) data e',
    changelogOf issueKey startAt (env w) = (inr data, e') ->
    Enhanced.isLastPage data = Some true
    \/ (Enhanced.isLastPage data = None /\ Enhanced.total data = None) ->
    Enhanced.fetchIssueChangelogFrom E changelogOf elapse (S fuel) issueKey
      startAt histories w
    = (Returned (histories
                 ++ match Enhanced.values data with Some v => v | None => [] end)%list,
       mkWorld e' (events w ++ [Request (ChangelogPage issueKey startAt)])).
Proof.
  intros E changelogOf elapse fuel issueKey startAt histories w data e' Hresp Hlast.
  cbn [Enhanced.fetchIssueChangelogFrom]. unfold bind.
  rewrite (PagingFacts.withRetry_answered E elapse _ _ w data e' Hresp).
  cbv zeta. destruct Hlast as [-> | [-> ->]]; [reflexivity|].
  rewrite Z.leb_refl. reflexivity.
Qed.

(** The theorem at a page of one entry that reports a page size of 1 and
    nothing else: the loop stops although more entries may follow. *)
Lemma changelog_page_without_total_is_last_witness :
  Enhanced.fetchIssueChangelogFrom unit barePage Sample.instantTimer 5
    "MIS-1" 0 [] Sample.emptyWorld
  = (Returned [ {| Changelog.created := VStr "2024-01-02T09:00:00.000+0000";
                   items := [] |} ],
     mkWorld tt [Request (ChangelogPage "MIS-1" 0)]).
Proof.
  exact (changelog_page_without_total_is_last unit barePage
           Sample.instantTimer 4 "MIS-1" 0 [] Sample.emptyWorld _ tt eq_refl
           (or_intror (conj eq_refl eq_refl))).
Defined.

(** ** Endpoints that never say they are done *)

Section Endless.
Variable parseISO : string -> Date.
Variable tz : zone.
Variable cfg : config.
Variable E : Type.
Variable searchJql : option string -> E -> (error + Enhanced.searchData) * E.
Variable changelogOf : string -> Z -> E -> (error + Enhanced.changelogData) * E.
Variable readClock : E -> Z * E.
Variable elapse : Z -> E -> E.



End Endless.



End LoopFacts.

(* ================================================================== *)
(** * The written line read back *)
(* ================================================================== *)

Module CsvFacts.
Import Changelog Tracker Csv.

Lemma append_empty (s : string) : (s ++ "")%string = s.
Proof. induction s as [|c s IH]; [reflexivity|]. cbn. rewrite IH. reflexivity. Qed.

Lemma append_snoc (cur : string) (c : ascii) (s : string) :
  ((cur ++ String c "") ++ s)%string = (cur ++ String c s)%string.
Proof.
  induction cur as [|d cur IH]; [reflexivity|]. cbn. rewrite IH. reflexivity.
Qed.

Lemma append_assoc3 (a b c : string) :
  ((a ++ b) ++ c)%string = (a ++ (b ++ c))%string.
Proof. induction a as [|d a IH]; [reflexivity|]. cbn. rewrite IH. reflexivity. Qed.

Lemma special_comma (c : ascii) : special c = false -> Ascii.eqb c comma = false.
Proof.
  unfold special. intros H. destruct (Ascii.eqb c comma); [discriminate|reflexivity].
Qed.

Lemma bare_then_comma (f : string) : forall cur rest,
  simple f = true ->
  readFrom Bare cur (f ++ String comma rest)
  = option_map (cons (cur ++ f)%string) (readFrom FieldStart "" rest).
Proof.
  induction f as [|c f IH]; intros cur rest Hs.
  - cbn [append readFrom]. rewrite Ascii.eqb_refl, append_empty. reflexivity.
  - cbn [simple] in Hs. apply andb_prop in Hs. destruct Hs as [Hc Hf].
    apply negb_true_iff in Hc.
    cbn [append readFrom]. rewrite (special_comma c Hc), Hc.
    rewrite IH by exact Hf. rewrite append_snoc. reflexivity.
Qed.

Lemma bare_then_end (f : string) : forall cur,
  simple f = true -> readFrom Bare cur f = Some [(cur ++ f)%string].
Proof.
  induction f as [|c f IH]; intros cur Hs.
  - cbn. rewrite append_empty. reflexivity.
  - cbn [simple] in Hs. apply andb_prop in Hs. destruct Hs as [Hc Hf].
    apply negb_true_iff in Hc.
    cbn [readFrom]. rewrite (special_comma c Hc), Hc.
    rewrite IH by exact Hf. rewrite append_snoc. reflexivity.
Qed.

Lemma special_dquote (c : ascii) : special c = false -> Ascii.eqb c dquote = false.
Proof.
  unfold special. intros H.
  destruct (Ascii.eqb c dquote); [|reflexivity].
  rewrite orb_true_r in H. discriminate.
Qed.

Lemma field_then_comma (f rest : string) :
  simple f = true ->
  readFrom FieldStart "" (f ++ String comma rest)
  = option_map (cons f) (readFrom FieldStart "" rest).
Proof.
  intros Hs. destruct f as [|c f].
  - cbn [append readFrom]. reflexivity.
  - cbn [simple] in Hs. apply andb_prop in Hs. destruct Hs as [Hc Hf].
    apply negb_true_iff in Hc.
    cbn [append readFrom].
    rewrite (special_dquote c Hc), (special_comma c Hc), Hc.
    rewrite bare_then_comma by exact Hf. reflexivity.
Qed.

Lemma field_then_end (f : string) :
  simple f = true -> readFrom FieldStart "" f = Some [f].
Proof.
  intros Hs. destruct f as [|c f]; [reflexivity|].
  cbn [simple] in Hs. apply andb_prop in Hs. destruct Hs as [Hc Hf].
  apply negb_true_iff in Hc.
  cbn [readFrom]. rewrite (special_dquote c Hc), (special_comma c Hc), Hc.
  rewrite bare_then_end by exact Hf. reflexivity.
Qed.

Lemma concat_comma (x y : string) (l : list string) :
  String.concat "," (x :: y :: l)
  = (x ++ String comma (String.concat "," (y :: l)))%string.
Proof. reflexivity. Qed.

(** A list of simple fields, joined by commas, reads back as the list. *)
Lemma simple_fields_read_back (f : string) (fs : list string) :
  Forall (fun x => simple x = true) (f :: fs) ->
  readFrom FieldStart "" (String.concat "," (f :: fs)) = Some (f :: fs).
Proof.
  revert f. induction fs as [|g fs IH]; intros f Hs.
  - cbn [String.concat]. apply field_then_end. inversion Hs; assumption.
  - inversion Hs as [|? ? Hf Hrest]; subst.
    rewrite concat_comma.
    rewrite field_then_comma by exact Hf. rewrite IH by exact Hrest.
    reflexivity.
Qed.

Lemma quoted_then_comma (s : string) : forall cur rest,
  readFrom Quoted cur (double_quotes s ++ String dquote (String comma rest))
  = option_map (cons (cur ++ s)%string) (readFrom FieldStart "" rest).
Proof.
  induction s as [|c s IH]; intros cur rest.
  - cbn [double_quotes append readFrom]. rewrite Ascii.eqb_refl.
    cbn [readFrom]. change (Ascii.eqb comma dquote) with false.
    rewrite Ascii.eqb_refl, append_empty. reflexivity.
  - cbn [double_quotes]. destruct (Ascii.eqb c dquote) eqn:Hc.
    + apply Ascii.eqb_eq in Hc. subst c.
      cbn [append readFrom]. rewrite Ascii.eqb_refl. cbn [readFrom].
      rewrite IH, append_snoc. reflexivity.
    + cbn [append readFrom]. rewrite Hc, IH, append_snoc. reflexivity.
Qed.

(** The line of a key, a quoted summary and further simple fields. *)
Lemma line_reads_back (key summary : string) (f : string) (fs : list string) :
  Forall (fun x => simple x = true) (key :: f :: fs) ->
  readRecord (String.concat "," (key :: quoted (double_quotes summary) :: f :: fs))
  = Some (key :: summary :: f :: fs).
Proof.
  intros Hs. inversion Hs as [|? ? Hkey Hrest]; subst.
  unfold readRecord. rewrite !concat_comma.
  rewrite field_then_comma by exact Hkey.
  unfold quoted. cbn [append].
  match goal with
  | |- context [readFrom FieldStart "" (String dquote ?x)] =>
      change (readFrom FieldStart "" (String dquote x)) with (readFrom Quoted "" x)
  end.
  rewrite append_assoc3. cbn [append].
  rewrite quoted_then_comma.
  rewrite (simple_fields_read_back f fs Hrest). reflexivity.
Qed.

Lemma simple_uint (d : Decimal.uint) : simple (NilEmpty.string_of_uint d) = true.
Proof. induction d; cbn; auto. Qed.

Lemma simple_string_of_Z (n : Z) : simple (JS.string_of_Z n) = true.
Proof.
  unfold JS.string_of_Z, NilZero.string_of_int.
  destruct (Z.to_int n) as [d|d]; unfold NilZero.string_of_uint.
  - destruct d; try reflexivity; apply (simple_uint (_ _)).
  - change (simple (String "-" ?x)) with (simple x).
    destruct d; try reflexivity; apply (simple_uint (_ _)).
Qed.

Lemma simple_plain_cell (m : option JS.number) : simple (plain (JS.cell m)) = true.
Proof.
  destruct m as [[|n]|]; try reflexivity. apply simple_string_of_Z.
Qed.

Lemma simple_plainIfTruthy_cell (m : option JS.number) :
  simple (plainIfTruthy (JS.cell m)) = true.
Proof.
  destruct m as [[|n]|]; try reflexivity.
  unfold plainIfTruthy. destruct (JS.truthy (JS.cell (Some (JS.Num n))));
    [apply simple_string_of_Z | reflexivity].
Qed.

Lemma Enhanced_line (r : Enhanced.row) :
  JS.join "," (Enhanced.csvCells r)
  = String.concat ","
      (Enhanced.Issue_Key r :: quoted (Enhanced.Summary r) :: enhancedTail r).
Proof.
  unfold JS.join, Enhanced.csvCells, enhancedTail. cbn [map].
  rewrite !ReportFacts.join_coalesce. reflexivity.
Qed.

Lemma Legacy_line (r : Legacy.row) :
  JS.join "," (Legacy.csvCells r)
  = String.concat ","
      (Legacy.Issue_Key r :: quoted (Legacy.Summary r) :: legacyTail r).
Proof.
  unfold JS.join, Legacy.csvCells, legacyTail. cbn [map].
  rewrite !ReportFacts.join_or_else, ?ReportFacts.plainIfTruthy_string.
  rewrite ReportFacts.to_string_or_else_string. reflexivity.
Qed.

Lemma concat_split_last (a b : string) (fs : list string) :
  String.concat "," (fs ++ [(a ++ String comma b)%string])
  = String.concat "," (fs ++ [a; b]).
Proof.
  induction fs as [|f fs IH]; [reflexivity|].
  destruct fs as [|g fs]; [reflexivity|].
  cbn [app] in *. rewrite !concat_comma, IH. reflexivity.
Qed.

Ltac split_fields :=
  repeat match goal with
         | H : Forall _ (_ :: _) |- _ => inversion_clear H
         end.

(** X15.  The line either revision writes for an issue is a well-formed
    CSV record as long as the texts the tracker supplies for the unquoted
    fields (key, status, priority, the two timestamps, assignee and, in
    the first revision, the customer field) hold no comma, double quote
    or line end: read back, it gives the key, the summary exactly as the
    tracker had it, whatever characters it holds, and the other fields as
    written.  The numeric fields never need the assumption. *)
Theorem written_line_reads_back
    (parseISO : string -> DateFns.Date) (tz : DateFns.zone) (cfg : config) (now : Z)
    (issue : Enhanced.issue) (histories : list history)
    (old : Legacy.issue) :
  let r := Enhanced.issueRow parseISO tz cfg now issue histories in
  let l := Legacy.issueRow parseISO tz cfg now old in
  (Forall (fun x => simple x = true) (Enhanced.key issue :: enhancedTexts r) ->
   readRecord (JS.join "," (Enhanced.csvCells r))
   = Some (Enhanced.key issue :: summaryText (Enhanced.issueFields issue)
             :: enhancedTail r))
  /\
  (Forall (fun x => simple x = true) (Legacy.key old :: legacyTexts l) ->
   readRecord (JS.join "," (Legacy.csvCells l))
   = Some (Legacy.key old :: summaryText (Legacy.issueFields old)
             :: legacyTail l)).
Proof.
  intros r l. split; intros Hs.
  - rewrite Enhanced_line. unfold r at 2.
    rewrite ReportFacts.Enhanced_summary_doubled,
      <- ReportFacts.double_quotes_doubled.
    change (Enhanced.Issue_Key r) with (Enhanced.key issue).
    unfold enhancedTail, enhancedTexts in *. split_fields.
    apply line_reads_back.
    repeat constructor; try assumption; apply simple_plain_cell.
  - rewrite Legacy_line. unfold l at 2.
    rewrite ReportFacts.Legacy_summary_doubled,
      <- ReportFacts.double_quotes_doubled.
    change (Legacy.Issue_Key l) with (Legacy.key old).
    unfold legacyTail, legacyTexts in *. split_fields.
    apply line_reads_back.
    repeat constructor; try assumption; apply simple_plainIfTruthy_cell.
Qed.

(** The theorem at an issue whose summary holds double quotes. *)
Lemma written_line_reads_back_witness :
  readRecord
    (JS.join ","
       (Enhanced.csvCells
          (Enhanced.issueRow DateFns.parseISO_utc utc
             (Sample.withEndDate "2024-12-31") Sample.newYear2024
             Sample.quotedIssue Sample.takenUp)))
  = Some ["MIS-12"; Sample.heSaidHi; "Open"; "High";
          "2024-01-01T00:00:00.000+0000"; "0"; ""; ""; ""; "Unassigned"].
Proof.
  apply (proj1 (written_line_reads_back DateFns.parseISO_utc utc
                  (Sample.withEndDate "2024-12-31") Sample.newYear2024
                  Sample.quotedIssue Sample.takenUp
                  (Sample.legacyOf Sample.quotedIssue Sample.takenUp))).
  repeat constructor.
Defined.

(** X16.  No field but the summary is ever quoted, so a comma in one of
    them moves the columns: when the assignee's display name is made of
    two parts with a comma between them, the line of the second revision
    reads back as eleven fields under ten headers, the two parts of the
    name being the last two. *)
Theorem comma_in_assignee_adds_a_column
    (parseISO : string -> DateFns.Date) (tz : DateFns.zone) (cfg : config) (now : Z)
    (issue : Enhanced.issue) (histories : list history) (a b : string) :
  let r := Enhanced.issueRow parseISO tz cfg now issue histories in
  Enhanced.Assignee r = (a ++ String comma b)%string ->
  Forall (fun x => simple x = true)
    [ Enhanced.key issue; Enhanced.Status r; Enhanced.Priority r;
      plain (Enhanced.Start_Time r); plain (Enhanced.Status2_Time r); a; b ] ->
  readRecord (JS.join "," (Enhanced.csvCells r))
  = Some (Enhanced.key issue :: summaryText (Enhanced.issueFields issue)
            :: removelast (enhancedTail r) ++ [a; b])
  /\ List.length (Enhanced.headers cfg) = 10%nat.
Proof.
  intros r Ha Hs. split; [|reflexivity].
  rewrite Enhanced_line. unfold r at 2.
  rewrite ReportFacts.Enhanced_summary_doubled,
    <- ReportFacts.double_quotes_doubled.
  change (Enhanced.Issue_Key r) with (Enhanced.key issue).
  unfold enhancedTail. rewrite Ha. cbn [removelast app].
  match goal with
  | |- readRecord (String.concat "," (?k :: ?q :: ?f1 :: ?f2 :: ?f3 :: ?f4
                                        :: ?f5 :: ?f6 :: ?f7 :: [?x])) = _ =>
      change (String.concat "," (k :: q :: f1 :: f2 :: f3 :: f4 :: f5 :: f6
                                   :: f7 :: [x]))
        with (String.concat "," ([k; q; f1; f2; f3; f4; f5; f6; f7] ++ [x]))
  end.
  rewrite concat_split_last. cbn [app]. split_fields.
  apply line_reads_back.
  repeat constructor; try assumption; apply simple_plain_cell.
Qed.

(** The theorem at an issue assigned to Doe, Jane. *)
Lemma comma_in_assignee_adds_a_column_witness :
  readRecord
    (JS.join ","
       (Enhanced.csvCells
          (Enhanced.issueRow DateFns.parseISO_utc utc
             (Sample.withEndDate "2024-12-31") Sample.newYear2024
             familyNameFirst [])))
  = Some ["MIS-21"; Sample.heSaidHi; "Open"; "High"; "2024-01-01T00:00:00Z";
          "0"; ""; ""; ""; "Doe"; " Jane"]
  /\ List.length (Enhanced.headers (Sample.withEndDate "2024-12-31")) = 10%nat.
Proof.
  apply (comma_in_assignee_adds_a_column DateFns.parseISO_utc utc
           (Sample.withEndDate "2024-12-31") Sample.newYear2024
           familyNameFirst [] "Doe" " Jane").
  - reflexivity.
  - repeat constructor.
Defined.

End CsvFacts.

(* ================================================================== *)
(** * The addresses asked *)
(* ================================================================== *)

Module UrlFacts.
Import Url.

Lemma allSlashes_slashes (n : nat) : allSlashes (slashes n) = true.
Proof. induction n as [|n IH]; [reflexivity|]. cbn. exact IH. Qed.

Lemma allSlashes_is_slashes (s : string) :
  allSlashes s = true -> s = slashes (String.length s).
Proof.
  induction s as [|c s IH]; [reflexivity|]. cbn [allSlashes].
  intros H. apply andb_prop in H. destruct H as [Hc Hs].
  apply Ascii.eqb_eq in Hc. subst c. cbn. f_equal. exact (IH Hs).
Qed.

Lemma allSlashes_app (s : string) (n : nat) :
  allSlashes (s ++ slashes n) = allSlashes s.
Proof.
  induction s as [|c s IH]; [apply allSlashes_slashes|].
  cbn. rewrite IH. reflexivity.
Qed.

Lemma allSlashes_ends (c : ascii) (s : string) :
  allSlashes (String c s) = true -> endsWithSlash (String c s) = true.
Proof.
  revert c. induction s as [|d s IH]; intros c H.
  - cbn in *. rewrite andb_true_r in H. exact H.
  - cbn [allSlashes] in H. apply andb_prop in H. destruct H as [_ H].
    change (endsWithSlash (String c (String d s)))
      with (endsWithSlash (String d s)).
    apply IH. exact H.
Qed.

Lemma strip_ends (s : string) : endsWithSlash (stripTrailingSlashes s) = false.
Proof.
  induction s as [|c s IH]; [reflexivity|].
  cbn [stripTrailingSlashes].
  destruct (Ascii.eqb c slash && allSlashes s) eqn:Hall; [reflexivity|].
  destruct (stripTrailingSlashes s) as [|d t] eqn:Ht.
  - cbn. destruct (Ascii.eqb c slash) eqn:Hc; [|reflexivity].
    cbn in Hall.
    assert (Hs : stripTrailingSlashes s = "" -> allSlashes s = true).
    { clear. destruct s as [|e s]; [reflexivity|]. cbn [stripTrailingSlashes].
      destruct (Ascii.eqb e slash && allSlashes s) eqn:H; [|discriminate].
      intros _. exact H. }
    rewrite (Hs Ht) in Hall. discriminate.
  - exact IH.
Qed.

Lemma strip_rest (s : string) :
  exists n, s = (stripTrailingSlashes s ++ slashes n)%string.
Proof.
  induction s as [|c s [n IH]]; [exists 0%nat; reflexivity|].
  cbn [stripTrailingSlashes].
  destruct (Ascii.eqb c slash && allSlashes s) eqn:Hall.
  - exists (String.length (String c s)). apply allSlashes_is_slashes. exact Hall.
  - exists n. cbn [append]. f_equal. exact IH.
Qed.

Lemma strip_of_clean (t : string) (n : nat) :
  endsWithSlash t = false -> stripTrailingSlashes (t ++ slashes n) = t.
Proof.
  induction t as [|c t IH]; intros Ht.
  - cbn [append]. destruct n as [|n]; [reflexivity|].
    cbn [slashes stripTrailingSlashes]. rewrite Ascii.eqb_refl.
    rewrite allSlashes_slashes. reflexivity.
  - cbn [append stripTrailingSlashes]. rewrite allSlashes_app.
    destruct (Ascii.eqb c slash && allSlashes t) eqn:Hall.
    + rewrite (allSlashes_ends c t Hall) in Ht. discriminate.
    + f_equal. apply IH. destruct t as [|d t]; [reflexivity|]. exact Ht.
Qed.

(** X17.  The base address: [jiraBase] is the configured address without
    the slashes at its end, and nothing else of it is touched.  It is the
    one text that does not end in a slash and that the configured address
    extends by slashes only; so addresses that differ in their closing
    slashes give the same search address. *)
Theorem jiraBase_drops_closing_slashes_only (jiraUrl t : string) :
  (t = jiraBase jiraUrl
   <-> endsWithSlash t = false
       /\ exists n, jiraUrl = (t ++ slashes n)%string)
  /\ forall n, searchUrl (jiraBase (jiraUrl ++ slashes n)) = searchUrl (jiraBase jiraUrl).
Proof.
  unfold jiraBase. split; [split|].
  - intros ->. split; [apply strip_ends | apply strip_rest].
  - intros [Ht [n ->]]. symmetry. apply strip_of_clean. exact Ht.
  - intros n. f_equal.
    destruct (strip_rest jiraUrl) as [m Hm].
    rewrite Hm at 1. rewrite CsvFacts.append_assoc3.
    assert (Hadd : forall a b, (slashes a ++ slashes b)%string = slashes (a + b)).
    { intros a b. induction a as [|a IH]; [reflexivity|]. cbn. rewrite IH.
      reflexivity. }
    rewrite Hadd. apply strip_of_clean. apply strip_ends.
Qed.

Lemma unreserved_not_percent (c : ascii) :
  unreserved c = true -> Ascii.eqb c percent = false.
Proof.
  destruct c as [[] [] [] [] [] [] [] []]; vm_compute; intros H;
    first [reflexivity | discriminate H].
Qed.

Lemma escape_decodes (c : ascii) (rest : string) :
  percentDecode (escape c ++ rest)
  = option_map (String c) (percentDecode rest).
Proof. destruct c as [[] [] [] [] [] [] [] []]; reflexivity. Qed.

Lemma encode_decodes (s : string) :
  percentDecode (encodeURIComponent s) = Some s.
Proof.
  induction s as [|c s IH]; [reflexivity|].
  cbn [encodeURIComponent]. destruct (unreserved c) eqn:Hc.
  - cbn [percentDecode]. rewrite (unreserved_not_percent c Hc), IH. reflexivity.
  - rewrite escape_decodes, IH. reflexivity.
Qed.

Lemma occurs_app (c : ascii) (a b : string) :
  occurs c (a ++ b) = occurs c a || occurs c b.
Proof.
  induction a as [|d a IH]; [reflexivity|]. cbn. rewrite IH, orb_assoc.
  reflexivity.
Qed.

Lemma unreserved_not_delimiter (d c : ascii) :
  In d delimiters -> unreserved c = true -> Ascii.eqb c d = false.
Proof.
  intros Hd. cbn in Hd.
  repeat (destruct Hd as [<-|Hd];
          [destruct c as [[] [] [] [] [] [] [] []]; vm_compute; intros H;
             first [reflexivity | discriminate H]|]).
  contradiction.
Qed.

Lemma escape_no_delimiter (d c : ascii) :
  In d delimiters -> occurs d (escape c) = false.
Proof.
  intros Hd. cbn in Hd.
  repeat (destruct Hd as [<-|Hd];
          [destruct c as [[] [] [] [] [] [] [] []]; reflexivity|]).
  contradiction.
Qed.

Lemma encode_no_delimiter (d : ascii) (s : string) :
  In d delimiters -> occurs d (encodeURIComponent s) = false.
Proof.
  intros Hd. induction s as [|c s IH]; [reflexivity|].
  cbn [encodeURIComponent]. destruct (unreserved c) eqn:Hc.
  - cbn [occurs]. rewrite (unreserved_not_delimiter d c Hd Hc), IH. reflexivity.
  - rewrite occurs_app, (escape_no_delimiter d c Hd), IH. reflexivity.
Qed.

Lemma append_cancel (a x y : string) : (a ++ x)%string = (a ++ y)%string -> x = y.
Proof.
  induction a as [|c a IH]; [trivial|]. cbn. intros H. injection H as H.
  exact (IH H).
Qed.

(** Two texts cut at the first occurrence of a character agree part by
    part. *)
Lemma cut_at_first (c : ascii) (a a' r r' : string) :
  occurs c a = false -> occurs c a' = false ->
  (a ++ String c r)%string = (a' ++ String c r')%string ->
  a = a' /\ r = r'.
Proof.
  revert a'. induction a as [|d a IH]; intros a' Ha Ha' H.
  - destruct a' as [|d' a'].
    + cbn in H. injection H as H. split; [reflexivity|exact H].
    + cbn in H. injection H as Hc _. subst d'.
      cbn in Ha'. rewrite Ascii.eqb_refl in Ha'. discriminate.
  - destruct a' as [|d' a'].
    + cbn in H. injection H as Hc _. subst d.
      cbn in Ha. rewrite Ascii.eqb_refl in Ha. discriminate.
    + cbn in H. injection H as Hd H. subst d'.
      cbn in Ha, Ha'. apply orb_false_elim in Ha, Ha'.
      destruct (IH a' (proj2 Ha) (proj2 Ha') H) as [-> ->].
      split; reflexivity.
Qed.

Lemma string_of_Z_reads (z : Z) :
  option_map Z.of_int (NilZero.int_of_string (JS.string_of_Z z)) = Some z.
Proof.
  unfold JS.string_of_Z. rewrite <- (DecimalZ.of_to z) at 2.
  destruct (Z.to_int z) as [u|u]; destruct u; try reflexivity;
    rewrite NilZero.isi by discriminate; reflexivity.
Qed.

Lemma string_of_Z_inj (z z' : Z) : JS.string_of_Z z = JS.string_of_Z z' -> z = z'.
Proof.
  intros H. pose proof (string_of_Z_reads z) as Hz.
  rewrite H, string_of_Z_reads in Hz. injection Hz as Hz. symmetry. exact Hz.
Qed.

Lemma no_ampersand_uint (d : Decimal.uint) :
  occurs "&" (NilEmpty.string_of_uint d) = false.
Proof. induction d; cbn; auto. Qed.

Lemma no_ampersand (z : Z) : occurs "&" (JS.string_of_Z z) = false.
Proof.
  unfold JS.string_of_Z, NilZero.string_of_int.
  destruct (Z.to_int z) as [d|d]; unfold NilZero.string_of_uint.
  - destruct d; try reflexivity; apply (no_ampersand_uint (_ _)).
  - change (occurs "&" (String "-" ?x)) with (occurs "&" x).
    destruct d; try reflexivity; apply (no_ampersand_uint (_ _)).
Qed.

(** X18.  Under one base address, the address asked for a page of an
    issue's change log tells the issue and the page: two of them are the
    same text only for the same key and the same offset, whatever
    characters the keys hold. *)
Theorem changelog_address_tells_issue_and_page
    (base key key' : string) (startAt startAt' : Z) :
  changelogPageUrl base key startAt = changelogPageUrl base key' startAt'
  <-> key = key' /\ startAt = startAt'.
Proof.
  split; [|intros [-> ->]; reflexivity].
  unfold changelogPageUrl, issueChangelogUrl. intros H.
  rewrite !CsvFacts.append_assoc3 in H. apply append_cancel in H.
  apply (append_cancel "/rest/api/3/issue/") in H.
  cbn [append] in H.
  apply cut_at_first in H;
    try (apply encode_no_delimiter; cbn; auto).
  destruct H as [Hkey H].
  assert (Hk : Some key = Some key')
    by (rewrite <- (encode_decodes key), Hkey; apply encode_decodes).
  injection Hk as ->. split; [reflexivity|].
  apply (append_cancel "changelog?startAt=") in H.
  cbn [JS.to_string] in H.
  apply cut_at_first in H; try apply no_ampersand.
  apply string_of_Z_inj. exact (proj1 H).
Qed.

(** X19.  The key stays in its place in the address: whatever the key
    holds, the text put between [/issue/] and [/changelog] has no slash,
    question mark, hash, ampersand, equals sign or blank, and it stands
    for the key, byte for byte. *)
Theorem key_stays_in_its_path_segment (key : string) :
  Forall (fun d => occurs d (encodeURIComponent key) = false) delimiters
  /\ percentDecode (encodeURIComponent key) = Some key
  /\ forall base,
       issueChangelogUrl base key
       = (base ++ "/rest/api/3/issue/" ++ encodeURIComponent key
            ++ "/changelog")%string.
Proof.
  split; [|split].
  - apply Forall_forall. intros d Hd. apply encode_no_delimiter. exact Hd.
  - apply encode_decodes.
  - reflexivity.
Qed.

End UrlFacts.
